(** * NVDA Audio Logger: the wave storage, the stream tracker and the
      system-audio recorder, embedded from the Python sources.

    - [Py]          the fragments of the Python runtime the code relies on
                    (integers, slices, [range], [struct.pack], UTF-8);
    - [WaveStorage] [_wavestorage.py], class [WaveStorage];
    - [NvdaAudio]   [_nvdaaudio.py], the patched [WavePlayer.feed],
                    [sync] and [stop], and the speech markers;
    - [SysAudio]    [_sysaudio.py], [SystemAudioRecorder.savetofile];
    - [OutputDevice] [_sysaudio.py], [getNVDAOutputDevice];
    - [SysAudioCapture] [_sysaudio.py], [_openDevice], the capture of
                    packets and the marker handlers.

    Python integers are [Z]; a bytes-like object is a [list byte]; a [str]
    is its list of code points; a reading of [time.perf_counter] is a
    rational.  Methods are computations in a state and exception monad over
    the object (or the module globals) they mutate.

    The modules [WaveStorageForms], [NvdaAudioForms], [SysAudioForms],
    [OutputDeviceForms] and [SysAudioCaptureForms] hold the derived forms
    and the specification-side definitions that the theorems of
    [WaveStorageFacts], [NvdaAudioFacts], [SysAudioFacts],
    [SysAudioCaptureFacts] and [OutputDeviceFacts] are stated with. *)

From Stdlib Require Import ZArith List String Ascii Strings.Byte Bool Lia QArith Lqa.
From Stdlib Require Import DecimalString Sorted.
From Stdlib Require DecimalZ DecimalPos.
From stdpp Require Import gmap.
Import ListNotations.

Local Open Scope Z_scope.

(** ** The Python runtime: a state and exception monad, integers,
       sequences, [struct.pack] and UTF-8 *)

Module Py.

Inductive exn : Type :=
| ZeroDivisionError
| ValueError (msg : string)
| TypeError
| OverflowError
| KeyError
| StructError
| UnicodeEncodeError
| OSError
| LibraryError (msg : string).

Inductive result (A : Type) : Type :=
| Ok (a : A)
| Raise (e : exn).
Arguments Ok {A} a.
Arguments Raise {A} e.

(** A computation over a mutable state [S]: the state survives an
    exception, as attribute assignments made before a [raise] do. *)
Definition M (S A : Type) : Type := S -> result A * S.

Definition ret {S A} (a : A) : M S A := fun s => (Ok a, s).

Definition bind {S A B} (c : M S A) (k : A -> M S B) : M S B :=
  fun s =>
    match c s with
    | (Ok a, s') => k a s'
    | (Raise e, s') => (Raise e, s')
    end.

Definition raise {S A} (e : exn) : M S A := fun s => (Raise e, s).
Definition lift {S A} (r : result A) : M S A := fun s => (r, s).
Definition get {S} : M S S := fun s => (Ok s, s).
Definition put {S} (s : S) : M S unit := fun _ => (Ok tt, s).
Definition modify {S} (f : S -> S) : M S unit := fun s => (Ok tt, f s).

(** [for x in xs: body x] *)
Fixpoint for_each {S A} (xs : list A) (body : A -> M S unit) : M S unit :=
  match xs with
  | [] => ret tt
  | x :: xs' => bind (body x) (fun _ => for_each xs' body)
  end.

(** ** Integers *)

(** [a // b] and [a % b]: floor division, the remainder takes the sign of
    the divisor, as [Z.div] and [Z.modulo] do; a zero divisor raises. *)
Definition floordiv (a b : Z) : result Z :=
  if b =? 0 then Raise ZeroDivisionError else Ok (a / b).

Definition modulo (a b : Z) : result Z :=
  if b =? 0 then Raise ZeroDivisionError else Ok (a mod b).

(** ** Sequences *)

Definition bytes : Type := list byte.
Definition str : Type := list N.

(** A literal of ASCII characters as a [str]. *)
Definition lit (s : string) : str :=
  List.map N_of_ascii (list_ascii_of_string s).

Definition len {A} (l : list A) : Z := Z.of_nat (length l).

(** Bounds of [l[start:stop]] for a sequence of length [n]: a negative
    bound counts from the end, and both are clamped to [0..n]. *)
Definition adjust (n i : Z) : Z :=
  if i <? 0 then Z.max 0 (i + n) else Z.min i n.

Definition lower (n : Z) (start : option Z) : Z :=
  match start with Some i => adjust n i | None => 0 end.

Definition upper (n : Z) (stop : option Z) : Z :=
  match stop with Some j => adjust n j | None => n end.

(** [l[start:stop]] *)
Definition slice {A} (l : list A) (start stop : option Z) : list A :=
  let a := lower (len l) start in
  let b := upper (len l) stop in
  firstn (Z.to_nat (b - a)) (skipn (Z.to_nat a) l).

(** [l[start:stop] = v] on a [bytearray]: the range [start..stop) is
    replaced by [v]; an empty or reversed range inserts at [start]. *)
Definition slice_assign {A} (l : list A) (start stop : option Z) (v : list A)
  : list A :=
  let a := lower (len l) start in
  let b := Z.max a (upper (len l) stop) in
  firstn (Z.to_nat a) l ++ v ++ skipn (Z.to_nat b) l.

(** [range(start, stop, step)] *)
Definition range (start stop step : Z) : result (list Z) :=
  if step =? 0 then Raise (ValueError "range() arg 3 must not be zero")
  else
    let n :=
      if 0 <? step then (stop - start + step - 1) / step
      else (start - stop - step - 1) / (- step) in
    Ok (List.map (fun k => start + Z.of_nat k * step) (seq 0 (Z.to_nat n))).

(** [enumerate(l, start)] *)
Fixpoint enumerate {A} (l : list A) (start : Z) : list (Z * A) :=
  match l with
  | [] => []
  | x :: l' => (start, x) :: enumerate l' (start + 1)
  end.

(** [str(n)] for an integer. *)
Definition str_of_int (n : Z) : str :=
  lit (NilZero.string_of_int (Z.to_int n)).

(** ** [ctypes] array types *)

(** [ctype * length] for a ctypes type of [itemsize] bytes: the length
    must fit a C [ssize_t] (64 bits) and must not be negative, and the
    size of the array must fit a [ssize_t] too. *)
Definition array_type (itemsize length : Z) : result Z :=
  if (length <? - 2 ^ 63) || (2 ^ 63 <=? length) then Raise OverflowError
  else if length <? 0 then
    Raise (ValueError ("Array length must be >= 0, not "
                       ++ NilZero.string_of_int (Z.to_int length))%string)
  else if (2 ^ 63 - 1) / itemsize <? length then Raise OverflowError
  else Ok length.

(** ** [struct.pack], little endian *)

Definition byte_of_Z (z : Z) : byte :=
  match Byte.of_N (Z.to_N (z mod 256)) with
  | Some b => b
  | None => x00
  end.

Fixpoint le_bytes (width : nat) (z : Z) : bytes :=
  match width with
  | O => []
  | S w => byte_of_Z z :: le_bytes w (z / 256)
  end.

(** Format [I] (and [L]): an unsigned 32-bit field; a value outside
    [0 .. 2^32 - 1] raises [struct.error]. *)
Definition pack_I (v : Z) : result bytes :=
  if (0 <=? v) && (v <? 2 ^ 32) then Ok (le_bytes 4 v) else Raise StructError.

(** Format [4s]: exactly four bytes, truncated or padded with NUL. *)
Definition pack_4s (b : bytes) : bytes :=
  firstn 4 (b ++ [x00; x00; x00; x00]).

Inductive field : Type :=
| I (v : Z)
| s4 (b : bytes).

Fixpoint pack (fields : list field) : result bytes :=
  match fields with
  | [] => Ok []
  | f :: fs =>
      match (match f with I v => pack_I v | s4 b => Ok (pack_4s b) end) with
      | Raise e => Raise e
      | Ok x =>
          match pack fs with
          | Raise e => Raise e
          | Ok y => Ok (x ++ y)
          end
      end
  end.

(** Byte string literals. *)
Definition b (s : string) : bytes := list_byte_of_string s.

(** ** [str.encode("utf-8")] *)

Definition byte_of_N (n : N) : byte := byte_of_Z (Z.of_N n).

(** One code point; a surrogate (U+D800..U+DFFF) cannot be encoded. *)
Definition utf8_char (c : N) : result bytes :=
  (if c <? 128 then Ok [byte_of_N c]
   else if c <? 2048 then
     Ok [byte_of_N (192 + c / 64); byte_of_N (128 + c mod 64)]
   else if c <? 65536 then
     if (55296 <=? c) && (c <=? 57343) then Raise UnicodeEncodeError
     else Ok [byte_of_N (224 + c / 4096);
              byte_of_N (128 + (c / 64) mod 64);
              byte_of_N (128 + c mod 64)]
   else
     Ok [byte_of_N (240 + (c / 262144) mod 8);
         byte_of_N (128 + (c / 4096) mod 64);
         byte_of_N (128 + (c / 64) mod 64);
         byte_of_N (128 + c mod 64)])%N.

Fixpoint encode_utf8 (text : str) : result bytes :=
  match text with
  | [] => Ok []
  | c :: rest =>
      match utf8_char c with
      | Raise e => Raise e
      | Ok x =>
          match encode_utf8 rest with
          | Raise e => Raise e
          | Ok y => Ok (x ++ y)
          end
      end
  end.

End Py.

Import Py.

Declare Scope py_scope.
Delimit Scope py_scope with py.
Notation "'let*' x := c 'in' k" := (bind c (fun x => k))
  (at level 10, x pattern, c at level 100, k at level 200) : py_scope.
Local Open Scope py_scope.

(** ** [_wavestorage.py] *)

Module WaveStorage.

Definition NS_PER_SEC : Z := 1000000000.

(** The attributes of a [WaveStorage] object. *)
Record t : Type := mk {
  _nchannels : Z;
  _sampwidth : Z;
  _framerate : Z;
  _framesize : Z;
  _maxframes : option Z;
  _maxsize : option Z;
  _buffer : bytes;
  _writeidx : Z;
  _nsampleswritten : Z;
  _perf_counter_ns : option Z;
  _markers : list (Z * str)
}.

Definition set_buffer (v : bytes) (s : t) : t :=
  mk (_nchannels s) (_sampwidth s) (_framerate s) (_framesize s)
     (_maxframes s) (_maxsize s) v (_writeidx s) (_nsampleswritten s)
     (_perf_counter_ns s) (_markers s).

Definition set_writeidx (v : Z) (s : t) : t :=
  mk (_nchannels s) (_sampwidth s) (_framerate s) (_framesize s)
     (_maxframes s) (_maxsize s) (_buffer s) v (_nsampleswritten s)
     (_perf_counter_ns s) (_markers s).

Definition set_nsampleswritten (v : Z) (s : t) : t :=
  mk (_nchannels s) (_sampwidth s) (_framerate s) (_framesize s)
     (_maxframes s) (_maxsize s) (_buffer s) (_writeidx s) v
     (_perf_counter_ns s) (_markers s).

Definition set_perf_counter_ns (v : option Z) (s : t) : t :=
  mk (_nchannels s) (_sampwidth s) (_framerate s) (_framesize s)
     (_maxframes s) (_maxsize s) (_buffer s) (_writeidx s)
     (_nsampleswritten s) v (_markers s).

Definition set_markers (v : list (Z * str)) (s : t) : t :=
  mk (_nchannels s) (_sampwidth s) (_framerate s) (_framesize s)
     (_maxframes s) (_maxsize s) (_buffer s) (_writeidx s)
     (_nsampleswritten s) (_perf_counter_ns s) v.

(** [WaveStorage.__init__] *)
Definition __init__ (nchannels sampwidth framerate : Z) (maxframes : option Z)
  : t :=
  let framesize := sampwidth * nchannels in
  {| _nchannels := nchannels;
     _sampwidth := sampwidth;
     _framerate := framerate;
     _framesize := framesize;
     _maxframes := maxframes;
     _maxsize := match maxframes with
                 | Some m => Some (m * framesize)
                 | None => None
                 end;
     _buffer := [];
     _writeidx := 0;
     _nsampleswritten := 0;
     _perf_counter_ns := None;
     _markers := [] |}.

(** [WaveStorage._remove_old_markers] *)
Definition _remove_old_markers : M t unit :=
  let* self := get in
  match _maxframes self with
  | Some maxframes =>
      let firstframe := _nsampleswritten self - maxframes in
      put (set_markers
             (List.filter (fun m => firstframe <=? fst m) (_markers self))
             self)
  | None => ret tt
  end.

(** [WaveStorage.addmarker] *)
Definition addmarker (text : str) : M t unit :=
  let* _ := modify (fun self =>
    set_markers (_markers self ++ [(_nsampleswritten self, text)]) self) in
  _remove_old_markers.

(** [WaveStorage.addmarker_at_time] *)
Definition addmarker_at_time (perf_counter_ns : Z) (text : str) : M t unit :=
  let* self := get in
  match _perf_counter_ns self with
  | None => addmarker text
  | Some anchor =>
      let time_delta_ns := perf_counter_ns - anchor in
      let* sample_offset :=
        lift (floordiv (time_delta_ns * _framerate self) NS_PER_SEC) in
      let* _ := modify (fun self =>
        set_markers
          (_markers self ++ [(_nsampleswritten self + sample_offset, text)])
          self) in
      _remove_old_markers
  end.

Definition MISALIGNED : str := lit "!WAVE MISALIGNED".

(** [WaveStorage.write] *)
Definition write (data : bytes) (perf_counter_ns : option Z) : M t unit :=
  let size := len data in
  let* self := get in
  let* r := lift (modulo size (_framesize self)) in
  let* aligned :=
    if negb (r =? 0) then
      (* Wave data size not aligned to frame boundary *)
      let* _ := addmarker MISALIGNED in
      let data := slice data None (Some (- r)) in
      ret (data, len data)
    else ret (data, size) in
  let '(data, size) := aligned in
  let* self := get in
  let* _ :=
    match _maxsize self with
    | None => modify (set_buffer (_buffer self ++ data))
    | Some maxsize =>
        if maxsize <=? size then
          (* Overwrite the entire buffer *)
          let* _ := modify (set_buffer
            (slice_assign (_buffer self) None None
                          (slice data (Some (- maxsize)) None))) in
          modify (set_writeidx 0)
        else
          let space := maxsize - len (_buffer self) in
          if 0 <? space then
            (* there's still space for growing *)
            if size <=? space then
              modify (set_buffer (_buffer self ++ data))
            else
              let remaining := size - space in
              let buffer := _buffer self ++ slice data None (Some space) in
              let* _ := modify (set_buffer
                (slice_assign buffer None (Some remaining)
                              (slice data (Some space) None))) in
              modify (set_writeidx remaining)
          else
            (* buffer has reached maxsize, overwrite oldest data *)
            if _writeidx self + size <=? maxsize then
              let* _ := modify (set_buffer
                (slice_assign (_buffer self) (Some (_writeidx self))
                              (Some (_writeidx self + size)) data)) in
              modify (set_writeidx (_writeidx self + size))
            else
              let space := maxsize - _writeidx self in
              let remaining := size - space in
              let buffer :=
                slice_assign (_buffer self) (Some (_writeidx self))
                             (Some maxsize) (slice data None (Some space)) in
              let* _ := modify (set_buffer
                (slice_assign buffer None (Some remaining)
                              (slice data (Some space) None))) in
              modify (set_writeidx remaining)
    end in
  let* self := get in
  let* frames := lift (floordiv size (_framesize self)) in
  let* _ := modify (set_nsampleswritten (_nsampleswritten self + frames)) in
  match perf_counter_ns with
  | Some perf_counter_ns =>
      let* duration_ns :=
        lift (floordiv (frames * NS_PER_SEC) (_framerate self)) in
      modify (set_perf_counter_ns (Some (perf_counter_ns + duration_ns)))
  | None => ret tt
  end.

(** [WaveStorage.getbytes] *)
Definition getbytes : M t bytes :=
  let* self := get in
  match _maxsize self with
  | None => ret (_buffer self)
  | Some maxsize =>
      if len (_buffer self) <? maxsize then ret (_buffer self)
      else ret (slice (_buffer self) (Some (_writeidx self)) (Some maxsize)
                ++ slice (_buffer self) None (Some (_writeidx self)))
  end.

(** The loop of [getwavecuedata] over [enumerate(self._markers, start=1)],
    with its two accumulators. *)
Fixpoint cue_loop (firstframe : Z) (items : list (Z * (Z * str)))
         (cue_points label_chunks : list bytes)
  : result (list bytes * list bytes) :=
  match items with
  | [] => Ok (cue_points, label_chunks)
  | (id, (pos, text)) :: rest =>
      match pack [I id; I pos; s4 (b "data"); I 0; I 0; I (pos - firstframe)]
      with
      | Raise e => Raise e
      | Ok cue_point =>
          match encode_utf8 text with
          | Raise e => Raise e
          | Ok encoded =>
              let text_bytes := encoded ++ [x00] in
              let text_bytes :=
                if negb (len text_bytes mod 2 =? 0)
                then text_bytes ++ [x00] (* Align each chunk to WORD *)
                else text_bytes in
              match pack [s4 (b "labl"); I (4 + len text_bytes); I id] with
              | Raise e => Raise e
              | Ok header =>
                  cue_loop firstframe rest
                           (cue_points ++ [cue_point])
                           (label_chunks ++ [header ++ text_bytes])
              end
          end
      end
  end.

(** [WaveStorage.getwavecuedata] *)
Definition getwavecuedata : M t bytes :=
  let* _ := _remove_old_markers in
  let* self := get in
  let firstframe :=
    match _maxframes self with
    | Some maxframes => Z.max (_nsampleswritten self - maxframes) 0
    | None => 0
    end in
  let* chunks := lift (cue_loop firstframe (enumerate (_markers self) 1) [] []) in
  let '(cue_points, label_chunks) := chunks in
  let cue_data := List.concat cue_points in
  let* cue_header :=
    lift (pack [s4 (b "cue "); I (4 + len cue_data); I (len cue_points)]) in
  let cue_chunk := cue_header ++ cue_data in
  let label_data := List.concat label_chunks in
  let* list_header :=
    lift (pack [s4 (b "LIST"); I (4 + len label_data); s4 (b "adtl")]) in
  let list_chunk := list_header ++ label_data in
  ret (cue_chunk ++ list_chunk).

(** The platform as [savetofile] sees it: which paths can be opened for
    writing, what the standard [wave] module leaves in the file for given
    parameters and frames (and whether it raises), the files, and the
    log. *)
Record os : Type := mk_os {
  writable : str -> bool;
  wave_module : Z -> Z -> Z -> bytes -> result unit * bytes;
  files : list (str * bytes);
  log : list str
}.

Definition set_file (file : str) (content : bytes) (o : os) : os :=
  mk_os (writable o) (wave_module o) ((file, content) :: files o) (log o).

Definition add_log (line : str) (o : os) : os :=
  mk_os (writable o) (wave_module o) (files o) (log o ++ [line]).

Fixpoint read_file (file : str) (fs : list (str * bytes)) : option bytes :=
  match fs with
  | [] => None
  | (name, content) :: rest =>
      if decide (name = file) then Some content else read_file file rest
  end.

(** A method of the storage run inside a larger state. *)
Definition on_storage {A} (c : M t A) : M (t * os) A :=
  fun st =>
    let '(r, self) := c (fst st) in (r, (self, snd st)).

Definition on_os {A} (c : M os A) : M (t * os) A :=
  fun st =>
    let '(r, o) := c (snd st) in (r, (fst st, o)).

(** [WaveStorage.savetofile]: the file is truncated when opened; the
    [wave] writer leaves the header and the frames; the cue data is
    appended and the RIFF size at offset 4 is patched. *)
Definition savetofile (file : str) : M (t * os) unit :=
  let* env := on_os get in
  if negb (writable env file) then raise OSError
  else
    let* _ := on_os (modify (set_file file [])) in
    let* self := on_storage get in
    let* frames := on_storage getbytes in
    let '(closed, written) :=
      wave_module env (_nchannels self) (_sampwidth self) (_framerate self)
                  frames in
    let* _ := on_os (modify (set_file file written)) in
    let* _ := lift closed in
    let* cuedata := on_storage getwavecuedata in
    let content := written ++ cuedata in
    let* _ := on_os (modify (set_file file content)) in
    let filesize := len content in
    let* patch := lift (pack [I (filesize - 8)]) in
    on_os (modify (set_file file
                     (slice_assign content (Some 4) (Some 8) patch))).

End WaveStorage.

(** ** [_sysaudio.py] *)

Module SysAudio.

(** The attributes of a [SystemAudioRecorder] that [savetofile] and
    [reset] use. *)
Record SystemAudioRecorder : Type := mk {
  _max_duration_sec : Z;
  _wavestorage : option WaveStorage.t
}.

Definition state : Type := (SystemAudioRecorder * WaveStorage.os)%type.

(** [SystemAudioRecorder.savetofile]; a [WaveStorage] object is always
    true, so [not self._wavestorage] holds exactly for [None]. *)
Definition savetofile (file : str) : M state unit :=
  fun st =>
    let '(self, env) := st in
    match _wavestorage self with
    | None => (Raise (ValueError "No wave storage"), st)
    | Some storage =>
        let '(r, (storage', env')) := WaveStorage.savetofile file (storage, env) in
        let self' := mk (_max_duration_sec self) (Some storage') in
        match r with
        | Raise e => (Raise e, (self', env'))
        | Ok _ =>
            (Ok tt,
             (self',
              WaveStorage.add_log
                (lit "Recorded system audio saved to " ++ file) env'))
        end
    end.

(** [SystemAudioRecorder.reset] *)
Definition reset : M state unit :=
  modify (fun st => (mk (_max_duration_sec (fst st)) None, snd st)).

End SysAudio.

(** ** [_nvdaaudio.py] *)

Module NvdaAudio.

Inductive AudioPurpose : Type := SPEECH | SOUNDS.

(** A [WavePlayer] of [nvwave]: its identity and the attributes read by
    the patched methods. *)
Record WavePlayer : Type := mk_player {
  handle : positive;
  channels : Z;
  bitsPerSample : Z;
  samplesPerSec : Z;
  _purpose : AudioPurpose
}.

(** The [data] argument of [feed]: [None], a [c_void_p] (its address and
    the bytes of the object itself), another ctypes pointer (the address
    of its contents), or a buffer. *)
Inductive feed_data : Type :=
| data_None
| data_void_p (value : Z) (raw : bytes)
| data_Pointer (address : Z)
| data_Buffer (buf : bytes).

Record _PlayerInfo : Type := mk_info {
  fileName : str;
  lastActivePerfCounter : Q;
  waveStorage : WaveStorage.t
}.

(** Calls that leave the module: the original [WavePlayer.feed], and the
    entry's [threading.Lock]. *)
Inductive event : Type :=
| original_feed (self : WavePlayer) (data : feed_data) (size : option Z)
                (onDone : option positive)
| lock_acquire (h : positive)
| lock_release (h : positive).

(** The module globals and the environment: the memory that pointers
    address, the successive readings of [time.perf_counter] and how many
    were taken, and the calls made so far. *)
Record globals : Type := mk {
  _players : gmap positive _PlayerInfo;
  _player_num : Z;
  _max_duration_sec : Z;
  memory : Z -> byte;
  perf_counter : nat -> Q;
  clock_reads : nat;
  calls : list event
}.

Definition set_players (v : gmap positive _PlayerInfo) (g : globals) : globals :=
  mk v (_player_num g) (_max_duration_sec g) (memory g) (perf_counter g)
     (clock_reads g) (calls g).

Definition set_player_num (v : Z) (g : globals) : globals :=
  mk (_players g) v (_max_duration_sec g) (memory g) (perf_counter g)
     (clock_reads g) (calls g).

Definition emit (e : event) (g : globals) : globals :=
  mk (_players g) (_player_num g) (_max_duration_sec g) (memory g)
     (perf_counter g) (clock_reads g) (calls g ++ [e]).

(** [time.perf_counter()] *)
Definition time_perf_counter : M globals Q :=
  fun g =>
    (Ok (perf_counter g (clock_reads g)),
     mk (_players g) (_player_num g) (_max_duration_sec g) (memory g)
        (perf_counter g) (S (clock_reads g)) (calls g)).

Definition _original_feed (self : WavePlayer) (data : feed_data)
           (size : option Z) (onDone : option positive) : M globals unit :=
  modify (emit (original_feed self data size onDone)).

(** [arrType.from_address(address)] with [arrType = c_ubyte * size] *)
Definition from_address (address size : Z) : M globals bytes :=
  let* g := get in
  ret (List.map (fun k => memory g (address + Z.of_nat k))
                (seq 0 (Z.to_nat size))).

(** [_PlayerInfo.__init__] *)
Definition new_PlayerInfo (player : WavePlayer) : M globals _PlayerInfo :=
  let* g := get in
  let name := lit "WavePlayer " ++ str_of_int (_player_num g) ++ lit ".wav" in
  let* _ := modify (set_player_num (_player_num g + 1)) in
  let* now := time_perf_counter in
  let* g := get in
  ret {| fileName := name;
         lastActivePerfCounter := now;
         waveStorage :=
           WaveStorage.__init__
             (channels player) (bitsPerSample player / 8)
             (samplesPerSec player)
             (Some (samplesPerSec player * _max_duration_sec g)) |}.

(** [with player.lock: body], for the entry of stream [h]. *)
Definition with_lock {A} (h : positive) (body : M globals A) : M globals A :=
  fun g =>
    let '(r, g') := body (emit (lock_acquire h) g) in
    (r, emit (lock_release h) g').

(** A method of [player.waveStorage], for the entry of stream [h]. *)
Definition on_waveStorage {A} (h : positive) (c : M WaveStorage.t A)
  : M globals A :=
  fun g =>
    match _players g !! h with
    | None => (Raise KeyError, g)
    | Some info =>
        let '(r, storage) := c (waveStorage info) in
        (r, set_players
              (<[h := mk_info (fileName info) (lastActivePerfCounter info)
                              storage]> (_players g)) g)
    end.

(** [player.lastActivePerfCounter = v] *)
Definition set_lastActive (h : positive) (v : Q) : M globals unit :=
  modify (fun g =>
    match _players g !! h with
    | None => g
    | Some info =>
        set_players
          (<[h := mk_info (fileName info) v (waveStorage info)]> (_players g)) g
    end).

(** [a > b] on clock readings; the readings are floats in the source,
    rationals here: the rounding of a float subtraction keeps its sign. *)
Definition gt (a b : Q) : bool := negb (Qle_bool a b).

(** The normalisation of [data] and [size] into the byte view [d].
    With a size, the array type [c_ubyte * size] is made first.  Without
    one, the view is that of the object itself: for a ctypes pointer,
    the eight bytes that hold the address. *)
Definition byte_view (data : feed_data) (size : option Z)
  : M globals (option bytes) :=
  match size with
  | Some size =>
      let* length := lift (array_type 1 size) in
      let* d :=
        match data with
        | data_None => ret None
        | data_void_p value _ =>
            if value =? 0 then ret None
            else let* a := from_address value length in ret (Some a)
        | data_Pointer address =>
            if address =? 0 then raise (ValueError "NULL pointer access")
            else let* a := from_address address length in ret (Some a)
        | data_Buffer buf => ret (Some buf)
        end in
      match d with
      | Some d => ret (Some (slice d None (Some size)))
      | None => ret None
      end
  | None =>
      match data with
      | data_None => ret None
      | data_void_p _ raw => ret (Some raw)
      | data_Pointer address => ret (Some (le_bytes 8 address))
      | data_Buffer buf => ret (Some buf)
      end
  end.

(** [_player_feed], the replacement of [WavePlayer.feed]. *)
Definition _player_feed (self : WavePlayer) (data : feed_data)
           (size : option Z) (onDone : option positive) : M globals unit :=
  match _purpose self with
  | SOUNDS => _original_feed self data size onDone
  | SPEECH =>
      let* view := byte_view data size in
      match view with
      | None | Some [] => _original_feed self data size onDone
      | Some d =>
          let h := handle self in
          let* g := get in
          let* _ :=
            match _players g !! h with
            | Some _ => ret tt
            | None =>
                let* player := new_PlayerInfo self in
                modify (fun g => set_players (<[h := player]> (_players g)) g)
            end in
          let framesize := channels self * bitsPerSample self / 8 in
          (* send 200ms max per block *)
          let maxblocksize := framesize * samplesPerSec self / 5 in
          let size := match size with Some n => n | None => len d end in
          let* starts := lift (range 0 size maxblocksize) in
          let* _ :=
            for_each starts (fun i =>
              let block := slice d (Some i) (Some (i + maxblocksize)) in
              let* _ :=
                _original_feed self (data_Buffer block) (Some (len block))
                               onDone in
              with_lock h
                (let* _ := on_waveStorage h (WaveStorage.write block None) in
                 let* now := time_perf_counter in
                 set_lastActive h now)) in
          let* now := time_perf_counter in
          let* g := get in
          for_each (map_to_list (_players g)) (fun kv =>
            if gt (lastActivePerfCounter (snd kv) - now)
                  (inject_Z (_max_duration_sec g))
            then modify (fun g => set_players (delete (fst kv) (_players g)) g)
            else ret tt)
      end
  end.

(** An item of a speech sequence: a string, or a command object. *)
Inductive speech_item : Type :=
| item_str (text : str)
| item_command.

(** [f"#{number}: " + "".join(i for i in speechSequence if isinstance(i, str))] *)
Definition speech_label (number : Z) (speechSequence : list speech_item) : str :=
  (lit "#" ++ str_of_int number ++ lit ": ")
  ++ List.concat
       (flat_map (fun i => match i with
                           | item_str text => [text]
                           | item_command => []
                           end) speechSequence).

(** [_player_sync], the replacement of [WavePlayer.sync]; the method it
    replaces is [_original_sync]. *)
Definition _player_sync (_original_sync : WavePlayer -> M globals unit)
           (self : WavePlayer) : M globals unit :=
  let* _ := _original_sync self in
  let* g := get in
  match _players g !! handle self with
  | Some _ =>
      with_lock (handle self)
        (on_waveStorage (handle self) (WaveStorage.addmarker (lit "Sync")))
  | None => ret tt
  end.

(** [_player_stop], the replacement of [WavePlayer.stop]. *)
Definition _player_stop (_original_stop : WavePlayer -> M globals unit)
           (self : WavePlayer) : M globals unit :=
  let* _ := _original_stop self in
  let* g := get in
  match _players g !! handle self with
  | Some _ =>
      with_lock (handle self)
        (on_waveStorage (handle self) (WaveStorage.addmarker (lit "Stop")))
  | None => ret tt
  end.

(** [_add_speech_marker]: every entry is marked, without its lock. *)
Definition _add_speech_marker (number : Z) (speechSequence : list speech_item)
  : M globals unit :=
  let* g := get in
  for_each (map_to_list (_players g)) (fun kv =>
    on_waveStorage (fst kv)
      (WaveStorage.addmarker (speech_label number speechSequence))).

(** [reset] *)
Definition reset : M globals unit := modify (set_players ∅).

End NvdaAudio.

(** ** [_sysaudio.py]: [getNVDAOutputDevice] *)

Module OutputDevice.

Definition IMMDevice : Type := positive.

(** [comtypes.COMError], carried by name. *)
Definition COMError : exn := LibraryError "COMError".

Definition is_COMError (e : exn) : bool :=
  match e with
  | LibraryError msg => String.eqb msg "COMError"
  | _ => false
  end.

Definition is_KeyError (e : exn) : bool :=
  match e with
  | KeyError => true
  | _ => false
  end.

(** [EDataFlow.eRender] and [AudioDeviceState.Active] of [_wasapi.py] *)
Definition eRender : Z := 0.
Definition Active : Z := 1.

(** The configuration and the endpoint enumerator, as the function sees
    them: the two settings (a missing key raises [KeyError]),
    [WavePlayer.DEFAULT_DEVICE_KEY], and what each call answers. *)
Record platform : Type := mk_platform {
  GetDeviceEnumerator : result unit;
  conf_audio_outputDevice : result str;
  conf_speech_outputDevice : result str;
  DEFAULT_DEVICE_KEY : str;
  GetDefaultAudioEndpoint : result IMMDevice;
  GetDevice : str -> result IMMDevice;
  GetState : IMMDevice -> result Z;
  GetDataFlow : IMMDevice -> result Z;
  EnumAudioEndpoints : result unit;
  GetCount : result Z;
  Item : Z -> result IMMDevice;
  FriendlyName : IMMDevice -> result str
}.

(** One call after another; an exception ends the sequence. *)
Definition and_then {A B} (r : result A) (k : A -> result B) : result B :=
  match r with
  | Ok a => k a
  | Raise e => Raise e
  end.

(** [try: body except E: pass], where [body] either returns a device
    from the function ([Some]) or runs to its end ([None]). *)
Definition try_pass {A} (catches : exn -> bool) (body : result (option A))
  : result (option A) :=
  match body with
  | Raise e => if catches e then Ok None else Raise e
  | Ok outcome => Ok outcome
  end.

(** The first [try] statement: the device with the configured id. *)
Definition by_id (p : platform) : result (option IMMDevice) :=
  try_pass is_KeyError
    (and_then (conf_audio_outputDevice p) (fun devId =>
     if decide (devId = DEFAULT_DEVICE_KEY p) then
       and_then (GetDefaultAudioEndpoint p) (fun dev => Ok (Some dev))
     else
       try_pass is_COMError
         (and_then (GetDevice p devId) (fun dev =>
          and_then (GetState p dev) (fun state =>
          and_then (GetDataFlow p dev) (fun dataflow =>
          if (state =? Active) && (dataflow =? eRender)
          then Ok (Some dev)
          else Ok None)))))).

(** The loop over the active render endpoints. *)
Fixpoint find_by_name (p : platform) (devName : str) (indices : list Z)
  : result (option IMMDevice) :=
  match indices with
  | [] => Ok None
  | i :: rest =>
      and_then (Item p i) (fun dev =>
      and_then (FriendlyName p dev) (fun name =>
      if decide (name = devName) then Ok (Some dev)
      else find_by_name p devName rest))
  end.

(** The second [try] statement: the device with the configured name. *)
Definition by_name (p : platform) : result (option IMMDevice) :=
  try_pass is_COMError
    (and_then (conf_speech_outputDevice p) (fun devName =>
     and_then (EnumAudioEndpoints p) (fun _ =>
     and_then (GetCount p) (fun count =>
     and_then (range 0 count 1) (fun indices =>
     find_by_name p devName indices))))).

(** [getNVDAOutputDevice] *)
Definition getNVDAOutputDevice (p : platform) : result IMMDevice :=
  and_then (GetDeviceEnumerator p) (fun _ =>
  and_then (by_id p) (fun found =>
  match found with
  | Some dev => Ok dev
  | None =>
      and_then (by_name p) (fun found =>
      match found with
      | Some dev => Ok dev
      | None => GetDefaultAudioEndpoint p
      end)
  end)).

End OutputDevice.

(** ** [_sysaudio.py]: the capture thread and the marker handlers *)

Module SysAudioCapture.
Import SysAudio.

Definition REFTIMES_PER_MS : Z := 10000.
Definition NS_PER_REFTIME : Z := 100.

(** [wave.WAVE_FORMAT_PCM] *)
Definition WAVE_FORMAT_PCM : Z := 1.

(** [WAVEFORMATEX] of [_wasapi.py], a structure of [WORD] and [DWORD]
    fields. *)
Record WAVEFORMATEX : Type := mk_format {
  wFormatTag : Z;
  nChannels : Z;
  nSamplesPerSec : Z;
  nAvgBytesPerSec : Z;
  nBlockAlign : Z;
  wBitsPerSample : Z;
  cbSize : Z
}.

(** What a [WORD] or a [DWORD] field keeps of an integer assigned to
    it. *)
Definition WORD (v : Z) : Z := v mod 2 ^ 16.
Definition DWORD (v : Z) : Z := v mod 2 ^ 32.

(** The unsigned little-endian integer in [width] bytes from [offset]. *)
Fixpoint le_value (mem : Z -> byte) (offset : Z) (width : nat) : Z :=
  match width with
  | O => 0
  | S w => Z.of_N (Byte.to_N (mem offset)) + 256 * le_value mem (offset + 1) w
  end.

(** [memmove(byref(fmt), pfmt, sizeof(WAVEFORMATEX))] into a new
    structure; [mem] is the memory at [pfmt]. *)
Definition read_format (mem : Z -> byte) : WAVEFORMATEX :=
  {| wFormatTag := le_value mem 0 2;
     nChannels := le_value mem 2 2;
     nSamplesPerSec := le_value mem 4 4;
     nAvgBytesPerSec := le_value mem 8 4;
     nBlockAlign := le_value mem 12 2;
     wBitsPerSample := le_value mem 14 2;
     cbSize := le_value mem 16 2 |}.

(** The recorder with the attribute that [_openDevice] adds; [_format]
    is [None] until it is assigned.  Reading an attribute that is not
    there, or a method of [None], raises [AttributeError], carried here
    by name. *)
Record capture : Type := mk_capture {
  recorder : SystemAudioRecorder;
  _format : option WAVEFORMATEX
}.

(** [SystemAudioRecorder.__init__] *)
Definition __init__ (max_duration_sec : Z) : capture :=
  mk_capture (mk max_duration_sec None) None.

(** What the audio endpoint answers during one call of [_openDevice]:
    [getNVDAOutputDevice()], [Activate] with its [QueryInterface], the
    memory at the pointer that [GetMixFormat] returns, [Initialize] for
    a given format, and [GetService] with its [QueryInterface]. *)
Record device : Type := mk_device {
  getNVDAOutputDevice : result unit;
  Activate : result unit;
  GetMixFormat : result (Z -> byte);
  Initialize : WAVEFORMATEX -> result unit;
  GetService : result unit
}.

(** [self._format] *)
Definition get_format : M capture WAVEFORMATEX :=
  fun self =>
    match _format self with
    | Some fmt => (Ok fmt, self)
    | None => (Raise (LibraryError "AttributeError"), self)
    end.

(** A method of [self._wavestorage]. *)
Definition on_wavestorage {A} (c : M WaveStorage.t A) : M capture A :=
  fun self =>
    match _wavestorage (recorder self) with
    | None => (Raise (LibraryError "AttributeError"), self)
    | Some storage =>
        let '(r, storage') := c storage in
        (r, mk_capture (mk (_max_duration_sec (recorder self)) (Some storage'))
                       (_format self))
    end.

(** [SystemAudioRecorder._openDevice] *)
Definition _openDevice (dev : device) : M capture unit :=
  let* _ := lift (getNVDAOutputDevice dev) in
  let* _ := lift (Activate dev) in
  let* self := get in
  let* _ :=
    match _wavestorage (recorder self) with
    | None =>
        (* Initialize wave format *)
        let* pfmt := lift (GetMixFormat dev) in
        let fmt := read_format pfmt in
        (* Set wave format to 16-bit *)
        let fmt := mk_format (WORD WAVE_FORMAT_PCM) (nChannels fmt)
                     (nSamplesPerSec fmt) (nAvgBytesPerSec fmt)
                     (nBlockAlign fmt) (wBitsPerSample fmt) (WORD 0) in
        let fmt := mk_format (wFormatTag fmt) (nChannels fmt)
                     (nSamplesPerSec fmt) (nAvgBytesPerSec fmt)
                     (nBlockAlign fmt) (WORD 16) (cbSize fmt) in
        let fmt := mk_format (wFormatTag fmt) (nChannels fmt)
                     (nSamplesPerSec fmt) (nAvgBytesPerSec fmt)
                     (WORD (nChannels fmt * wBitsPerSample fmt / 8))
                     (wBitsPerSample fmt) (cbSize fmt) in
        let fmt := mk_format (wFormatTag fmt) (nChannels fmt)
                     (nSamplesPerSec fmt)
                     (DWORD (nBlockAlign fmt * nSamplesPerSec fmt))
                     (nBlockAlign fmt) (wBitsPerSample fmt) (cbSize fmt) in
        put (mk_capture
               (mk (_max_duration_sec (recorder self))
                   (Some (WaveStorage.__init__
                            (nChannels fmt) 2 (nSamplesPerSec fmt)
                            (Some (nSamplesPerSec fmt
                                   * _max_duration_sec (recorder self))))))
               (Some fmt))
    | Some _ => ret tt
    end in
  let* fmt := get_format in
  let* _ := lift (Initialize dev fmt) in
  lift (GetService dev).

(** The body of the loop of [_captureThread] once [GetBuffer] has
    returned a packet of [frameCount] frames, stamped [qpcPos], whose
    [data] points to [address]: an empty packet is released and skipped;
    otherwise the frames are read as an array of [c_uint16] and written
    to the storage. *)
Definition capture_packet (memory : Z -> byte) (address frameCount qpcPos : Z)
  : M capture unit :=
  if frameCount =? 0 then ret tt
  else
    let* fmt := get_format in
    let arrayLen := frameCount * nChannels fmt in
    let* arrayLen := lift (array_type 2 arrayLen) in
    if address =? 0 then raise (ValueError "NULL pointer access")
    else
      let dataArray :=
        List.map (fun k => memory (address + Z.of_nat k))
                 (seq 0 (Z.to_nat (2 * arrayLen))) in
      on_wavestorage
        (WaveStorage.write dataArray (Some (qpcPos * NS_PER_REFTIME))).

(** [SystemAudioRecorder._add_speech_marker]; [perf_counter_ns] is the
    reading of [time.perf_counter_ns()] that the call takes. *)
Definition _add_speech_marker (perf_counter_ns : Z) (number : Z)
           (speechSequence : list NvdaAudio.speech_item) : M capture unit :=
  let* self := get in
  match _wavestorage (recorder self) with
  | Some _ =>
      on_wavestorage
        (WaveStorage.addmarker_at_time
           perf_counter_ns (NvdaAudio.speech_label number speechSequence))
  | None => ret tt
  end.

(** An [inputCore.InputGesture], as the handler reads it. *)
Record InputGesture : Type := mk_gesture {
  isModifier : bool;
  identifiers : list str
}.

(** [SystemAudioRecorder._add_gesture_marker]; an index out of range
    raises [IndexError], carried here by name. *)
Definition _add_gesture_marker (perf_counter_ns : Z) (gesture : InputGesture)
  : M capture bool :=
  let* self := get in
  let* _ :=
    match _wavestorage (recorder self) with
    | Some _ =>
        if negb (isModifier gesture) then
          match identifiers gesture with
          | [] => raise (LibraryError "IndexError")
          | identifier :: _ =>
              on_wavestorage
                (WaveStorage.addmarker_at_time perf_counter_ns identifier)
          end
        else ret tt
    | None => ret tt
    end in
  ret true.

End SysAudioCapture.

(** * Derived forms *)

(** Prefix and suffix of a sequence at an integer position. *)
Definition ztake {A} (k : Z) (l : list A) : list A := firstn (Z.to_nat k) l.
Definition zdrop {A} (k : Z) (l : list A) : list A := skipn (Z.to_nat k) l.

(** The last [k] elements of [l] (all of [l] when it is shorter). *)
Definition last_bytes {A} (k : Z) (l : list A) : list A := zdrop (len l - k) l.

(** ** Forms of the wave storage *)

Module WaveStorageForms.
Import WaveStorage.

(** The buffer update of [write] (the branches on [_maxsize]) as a
    function of the frame-aligned data. *)
Definition store (data : bytes) (self : t) : t :=
  let size := len data in
  match _maxsize self with
  | None => set_buffer (_buffer self ++ data) self
  | Some maxsize =>
      if maxsize <=? size then
        set_writeidx 0
          (set_buffer (slice_assign (_buffer self) None None
                                    (slice data (Some (- maxsize)) None)) self)
      else
        let space := maxsize - len (_buffer self) in
        if 0 <? space then
          if size <=? space then set_buffer (_buffer self ++ data) self
          else
            let remaining := size - space in
            set_writeidx remaining
              (set_buffer
                 (slice_assign (_buffer self ++ slice data None (Some space))
                               None (Some remaining)
                               (slice data (Some space) None)) self)
        else
          if _writeidx self + size <=? maxsize then
            set_writeidx (_writeidx self + size)
              (set_buffer
                 (slice_assign (_buffer self) (Some (_writeidx self))
                               (Some (_writeidx self + size)) data) self)
          else
            let space := maxsize - _writeidx self in
            let remaining := size - space in
            set_writeidx remaining
              (set_buffer
                 (slice_assign
                    (slice_assign (_buffer self) (Some (_writeidx self))
                                  (Some maxsize) (slice data None (Some space)))
                    None (Some remaining) (slice data (Some space) None))
                 self)
  end.

(** The end of [write]: the frame counter and the anchor. *)
Definition finish (size : Z) (perf_counter_ns : option Z) (self : t)
  : result unit * t :=
  let frames := size / _framesize self in
  let counted := set_nsampleswritten (_nsampleswritten self + frames) self in
  match perf_counter_ns with
  | None => (Ok tt, counted)
  | Some p =>
      if _framerate self =? 0 then (Raise ZeroDivisionError, counted)
      else (Ok tt,
            set_perf_counter_ns
              (Some (p + frames * NS_PER_SEC / _framerate self)) counted)
  end.

(** The state after pruning. *)
Definition pruned (s : t) : t := snd (_remove_old_markers s).

(** The ring holds [input], the stream of bytes stored so far: it is
    still growing, or full with its oldest byte at [_writeidx], or has
    no room at all. *)
Definition ring (s : t) (input : bytes) : Prop :=
  match _maxsize s with
  | None => _buffer s = input
  | Some M =>
      (len (_buffer s) < M /\ _buffer s = input /\ _writeidx s = 0) \/
      (0 < M /\ len (_buffer s) = M /\ 0 <= _writeidx s <= M /\
       M <= len input /\
       zdrop (_writeidx s) (_buffer s) ++ ztake (_writeidx s) (_buffer s)
       = last_bytes M input) \/
      (M = 0 /\ _writeidx s = 0)
  end.

(** The frames of [data]: all of it but a partial frame at the end. *)
Definition frames_of (framesize : Z) (data : bytes) : bytes :=
  ztake (framesize * (len data / framesize)) data.

(** The state in which the buffer is updated: a misaligned write has
    added its marker before. *)
Definition marked (data : bytes) (s : t) : t :=
  if len data mod _framesize s =? 0 then s
  else snd (addmarker MISALIGNED s).

(** The storage holds [input], and the frame counter counts it. *)
Definition holds (s : t) (input : bytes) : Prop :=
  ring s input /\
  0 < _framesize s /\
  _nsampleswritten s * _framesize s = len input /\
  match _maxframes s, _maxsize s with
  | Some C, Some M => M = C * _framesize s
  | None, None => True
  | _, _ => False
  end.

(** A sequence of [write] calls. *)
Definition writes (calls : list (bytes * option Z)) : M t unit :=
  for_each calls (fun call => write (fst call) (snd call)).

(** A full ring of four one-byte frames with its cursor at 2: the state
    after writing four bytes and then two into a new storage. *)
Definition full_ring_at_2 : t :=
  snd (writes [(List.map byte_of_Z [1; 2; 3; 4], None);
               (List.map byte_of_Z [5; 6], None)]
              (__init__ 1 1 48000 (Some 4))).

(** The markers that pruning keeps. *)
Definition retained (s : t) : list (Z * str) :=
  match _maxframes s with
  | Some C =>
      List.filter (fun m => _nsampleswritten s - C <=? fst m) (_markers s)
  | None => _markers s
  end.

(** ** The cue data, as the specification describes it *)

(** A value that fits an unsigned 32-bit field. *)
Definition u32 (v : Z) : bool := (0 <=? v) && (v <? 2 ^ 32).

(** The first retained frame. *)
Definition first_retained (s : t) : Z :=
  match _maxframes s with
  | Some C => Z.max (_nsampleswritten s - C) 0
  | None => 0
  end.

(** 1-based sequential ids. *)
Definition numbered {A} (l : list A) : list (Z * A) :=
  combine (List.map Z.of_nat (seq 1 (length l))) l.

Definition utf8 (text : str) : bytes :=
  match encode_utf8 text with Ok encoded => encoded | Raise _ => [] end.

Definition pad_even (content : bytes) : bytes :=
  if len content mod 2 =? 0 then content else content ++ [x00].

(** The label text: UTF-8, NUL-terminated, padded to an even length. *)
Definition label_text (text : str) : bytes :=
  pad_even (utf8 text ++ [x00]).

(** One cue point: id, position, the ["data"] chunk, two zero fields, and
    the sample offset from the first retained frame. *)
Definition cue_point (firstframe : Z) (item : Z * (Z * str)) : bytes :=
  le_bytes 4 (fst item) ++ le_bytes 4 (fst (snd item)) ++ b "data"
  ++ le_bytes 4 0 ++ le_bytes 4 0
  ++ le_bytes 4 (fst (snd item) - firstframe).

(** One [labl] sub-chunk. *)
Definition labl (item : Z * (Z * str)) : bytes :=
  (b "labl" ++ le_bytes 4 (4 + len (label_text (snd (snd item))))
   ++ le_bytes 4 (fst item))
  ++ label_text (snd (snd item)).

Definition cue_chunk (firstframe : Z) (markers : list (Z * str)) : bytes :=
  let cue_data := List.concat (List.map (cue_point firstframe) (numbered markers)) in
  (b "cue " ++ le_bytes 4 (4 + len cue_data) ++ le_bytes 4 (len markers))
  ++ cue_data.

Definition list_chunk (markers : list (Z * str)) : bytes :=
  let label_data := List.concat (List.map labl (numbered markers)) in
  (b "LIST" ++ le_bytes 4 (4 + len label_data) ++ b "adtl") ++ label_data.

(** Every field of the chunks is representable. *)
Definition marker_fits (firstframe : Z) (item : Z * (Z * str)) : bool :=
  u32 (fst item) && u32 (fst (snd item))
  && u32 (fst (snd item) - firstframe)
  && match encode_utf8 (snd (snd item)) with Ok _ => true | Raise _ => false end
  && u32 (4 + len (label_text (snd (snd item)))).

Definition cue_fits (firstframe : Z) (markers : list (Z * str)) : bool :=
  forallb (marker_fits firstframe) (numbered markers)
  && u32 (4 + len (List.concat (List.map (cue_point firstframe)
                                         (numbered markers))))
  && u32 (len markers)
  && u32 (4 + len (List.concat (List.map labl (numbered markers)))).

Definition field_fits (f : field) : bool :=
  match f with I v => u32 v | s4 _ => true end.

Definition field_bytes (f : field) : bytes :=
  match f with I v => le_bytes 4 v | s4 x => pack_4s x end.

(** Four one-byte frames of capacity; a marker at 0, three bytes, a
    marker at 3, four more bytes: the first marker is then below the
    retained window, which starts at frame 3. *)
Definition two_markers : t :=
  snd ((let* _ := addmarker (lit "a") in
        let* _ := write (List.map byte_of_Z [1; 2; 3]) None in
        let* _ := addmarker (lit "bc") in
        write (List.map byte_of_Z [4; 5; 6; 7]) None)
         (__init__ 1 1 48000 (Some 4))).

(** ** The marker timeline *)

(** The operations on a storage that touch the timeline. *)
Inductive op : Type :=
| AddMarker (text : str)
| AddMarkerAtTime (timestamp : Z) (text : str)
| Write (data : bytes) (timestamp : option Z)
| Prune
| Serialize.

Definition run (o : op) : M t unit :=
  match o with
  | AddMarker text => addmarker text
  | AddMarkerAtTime timestamp text => addmarker_at_time timestamp text
  | Write data timestamp => write data timestamp
  | Prune => _remove_old_markers
  | Serialize => let* _ := getwavecuedata in ret tt
  end.

Definition positions (s : t) : list Z := List.map fst (_markers s).

(** The timeline as the data model states it: positions that are
    unsigned 64-bit values, non-decreasing in insertion order. *)
Definition timeline_ok (s : t) : Prop :=
  Forall (fun p => 0 <= p < 2 ^ 64) (positions s)
  /\ StronglySorted Z.le (positions s).

(** The position at which an operation adds a marker, if it adds one:
    the write position for [addmarker] and for a misaligned [write], the
    position computed from the time stamp for [addmarker_at_time]. *)
Definition appended (s : t) (o : op) : option Z :=
  match o with
  | AddMarker _ => Some (_nsampleswritten s)
  | AddMarkerAtTime timestamp _ =>
      Some (match _perf_counter_ns s with
            | None => _nsampleswritten s
            | Some anchor =>
                _nsampleswritten s
                + (timestamp - anchor) * _framerate s / NS_PER_SEC
            end)
  | Write data _ =>
      if (_framesize s =? 0) || (len data mod _framesize s =? 0) then None
      else Some (_nsampleswritten s)
  | Prune | Serialize => None
  end.

(** The marker that the operation adds, if any, is an unsigned 64-bit
    value that is not below any marker already there. *)
Definition in_order (s : t) (o : op) : Prop :=
  match appended s o with
  | Some p => 0 <= p < 2 ^ 64 /\ Forall (fun q => q <= p) (positions s)
  | None => True
  end.

(** Four 16-bit mono frames at 48 kHz written with the time stamp
    10^9 ns, so that the anchor is 10^9 + 83333 ns, and then a marker at
    the write position, frame 4. *)
Definition marked_at_4 : t :=
  snd ((let* _ := write (List.map byte_of_Z [1; 2; 3; 4; 5; 6; 7; 8])
                        (Some 1000000000) in
        addmarker (lit "#1: hello"))
         (__init__ 1 2 48000 (Some 2880000))).



(** ** Forms for the further properties *)

(** The stream that a sequence of [write] calls stores: the whole frames
    of each call, in order. *)
Definition stream_of (framesize : Z) (calls : list (bytes * option Z)) : bytes :=
  List.concat (List.map (fun call => frames_of framesize (fst call)) calls).

(** No marker lies before the retained window. *)
Definition in_window (s : t) : Prop :=
  match _maxframes s with
  | Some C => Forall (fun m => _nsampleswritten s - C <= fst m) (_markers s)
  | None => True
  end.

(** The operations that only touch the markers. *)
Definition marker_op (o : op) : bool :=
  match o with Write _ _ => false | _ => true end.

(** The bytes that the labels of [markers] take in the [LIST] chunk: a
    12-byte header and the padded text for each. *)
Definition labels_size (markers : list (Z * str)) : Z :=
  fold_right (fun m acc => 12 + len (label_text (snd m)) + acc) 0 markers.

End WaveStorageForms.

(** ** Forms of the stream tracker *)

Module NvdaAudioForms.
Import NvdaAudio.

(** ** The steps of a feed, as the specification words them *)

(** [count] consecutive sub-blocks of at most [maxblocksize] bytes. *)
Fixpoint chunk (count : nat) (maxblocksize : Z) (d : bytes) : list bytes :=
  match count with
  | O => []
  | S c => ztake maxblocksize d :: chunk c maxblocksize (zdrop maxblocksize d)
  end.

(** The sub-blocks of a block of [size] bytes. *)
Definition sub_blocks (maxblocksize size : Z) (d : bytes) : list bytes :=
  chunk (Z.to_nat ((size + maxblocksize - 1) / maxblocksize)) maxblocksize d.

(** Look up the entry of the stream, or create it. *)
Definition entry_for (self : WavePlayer) (g : globals) : globals :=
  match _players g !! handle self with
  | Some _ => g
  | None =>
      let '(player, g') := new_PlayerInfo self g in
      match player with
      | Ok player =>
          set_players (<[handle self := player]> (_players g')) g'
      | Raise _ => g'
      end
  end.

(** The storage of a stream after [block] is appended. *)
Definition append_block (h : positive) (block : bytes) (g : globals) : globals :=
  snd (on_waveStorage h (WaveStorage.write block None) g).

(** The last-active timestamp of a stream refreshed from the clock. *)
Definition refresh (h : positive) (g : globals) : globals :=
  snd ((let* now := time_perf_counter in set_lastActive h now) g).

(** One sub-block: forwarded unchanged to the original feed, then, under
    the entry's lock, appended to the storage and the timestamp
    refreshed. *)
Definition block_step (self : WavePlayer) (onDone : option positive)
           (g : globals) (block : bytes) : globals :=
  let h := handle self in
  let forwarded :=
    emit (original_feed self (data_Buffer block) (Some (len block)) onDone) g in
  let locked := emit (lock_acquire h) forwarded in
  let appended := append_block h block locked in
  let refreshed := refresh h appended in
  emit (lock_release h) refreshed.

(** The sweep at the end of [_player_feed]. *)
Definition sweep : M globals unit :=
  let* now := time_perf_counter in
  let* g := get in
  for_each (map_to_list (_players g)) (fun kv =>
    if gt (lastActivePerfCounter (snd kv) - now)
          (inject_Z (_max_duration_sec g))
    then modify (fun g => set_players (delete (fst kv) (_players g)) g)
    else ret tt).

(** The calls that one sub-block makes. *)
Definition block_calls (self : WavePlayer) (onDone : option positive)
           (block : bytes) : list event :=
  [original_feed self (data_Buffer block) (Some (len block)) onDone;
   lock_acquire (handle self);
   lock_release (handle self)].

(** The stream has an entry whose storage has a positive frame size. *)
Definition tracked (h : positive) (g : globals) : Prop :=
  exists info,
    _players g !! h = Some info
    /\ 0 < WaveStorage._framesize (waveStorage info).

(** The body of the loop of [_player_feed]. *)
Definition loop_body (self : WavePlayer) (onDone : option positive)
           (block : bytes) : M globals unit :=
  let* _ :=
    _original_feed self (data_Buffer block) (Some (len block)) onDone in
  with_lock (handle self)
    (let* _ := on_waveStorage (handle self) (WaveStorage.write block None) in
     let* now := time_perf_counter in
     set_lastActive (handle self) now).

(** A clock that reads 0, 1000, 2000, ... seconds; two speech streams of
    8-bit mono audio at 10 frames per second; recording started with a
    retention of 80 seconds. *)
Definition stream_A : WavePlayer := mk_player 1 1 8 10 SPEECH.
Definition stream_B : WavePlayer := mk_player 2 1 8 10 SPEECH.

Definition started : globals :=
  {| _players := ∅;
     _player_num := 1;
     _max_duration_sec := 80;
     memory := fun _ => x00;
     perf_counter := fun n => inject_Z (1000 * Z.of_nat n);
     clock_reads := 0;
     calls := [] |}.

Definition after_A : globals :=
  snd (_player_feed stream_A (data_Buffer (List.map byte_of_Z [1; 2; 3; 4; 5]))
                    None None started).

Definition after_B : globals :=
  snd (_player_feed stream_B (data_Buffer (List.map byte_of_Z [6; 7; 8]))
                    None None after_A).

(** ** Forms for the further properties *)

(** The entry of a stream with [label] added to its storage. *)
Definition mark_entry (label : str) (info : _PlayerInfo) : _PlayerInfo :=
  mk_info (fileName info) (lastActivePerfCounter info)
          (snd (WaveStorage.addmarker label (waveStorage info))).

(** The patched [feed] from the point where the stream has its entry:
    the loop over the sub-blocks, then the sweep. *)
Definition feed_blocks (self : WavePlayer) (onDone : option positive)
           (d : bytes) (maxblocksize : Z) (starts : list Z) : M globals unit :=
  let* _ :=
    for_each starts (fun i =>
      loop_body self onDone (slice d (Some i) (Some (i + maxblocksize)))) in
  sweep.

(** A clock that never runs backwards, and a retention that is not
    negative. *)
Definition steady (g : globals) : Prop :=
  0 <= _max_duration_sec g
  /\ forall i j, (i <= j)%nat -> (perf_counter g i <= perf_counter g j)%Q.

(** No entry was last active after the next reading of the clock. *)
Definition fresh (g : globals) : Prop :=
  forall h info, _players g !! h = Some info ->
    (lastActivePerfCounter info <= perf_counter g (clock_reads g))%Q.

(** [g] continues [g0]: the same clock and retention, every entry of
    [g0] still there, and no entry ahead of the clock. *)
Definition continues (g0 g : globals) : Prop :=
  perf_counter g = perf_counter g0
  /\ _max_duration_sec g = _max_duration_sec g0
  /\ (forall h, is_Some (_players g0 !! h) -> is_Some (_players g !! h))
  /\ fresh g.

(** The file name that [_PlayerInfo.__init__] gives when the counter
    [_player_num] is [k]. *)
Definition file_name (k : Z) : str :=
  lit "WavePlayer " ++ str_of_int k ++ lit ".wav".

(** Every entry is named after a value that the counter has passed, and
    no two entries share a file name. *)
Definition named (g : globals) : Prop :=
  (forall h info, _players g !! h = Some info ->
     exists k, k < _player_num g /\ fileName info = file_name k)
  /\ (forall h1 h2 info1 info2,
        _players g !! h1 = Some info1 -> _players g !! h2 = Some info2 ->
        fileName info1 = fileName info2 -> h1 = h2).

(** Every entry of [g'] is an entry of [g] under the same file name, and
    the counter has not moved. *)
Definition renames_nothing (g g' : globals) : Prop :=
  _player_num g' = _player_num g
  /\ forall h info', _players g' !! h = Some info' ->
       exists info, _players g !! h = Some info
                    /\ fileName info' = fileName info.

End NvdaAudioForms.

(** ** A platform for the recorder *)

Module SysAudioForms.
Import SysAudio.

(** A [wave] module that leaves the canonical 44-byte PCM header and the
    frames, and refuses parameters that [wave.Wave_write] refuses. *)
Definition canonical_wave (nchannels sampwidth framerate : Z) (frames : bytes)
  : result unit * bytes :=
  if (nchannels <? 1) || (sampwidth <? 1) || (4 <? sampwidth)
     || (framerate <=? 0)
  then (Raise (LibraryError "wave.Error"), [])
  else
    (Ok tt,
     b "RIFF" ++ le_bytes 4 (36 + len frames) ++ b "WAVEfmt "
     ++ le_bytes 4 16 ++ le_bytes 2 1 ++ le_bytes 2 nchannels
     ++ le_bytes 4 framerate
     ++ le_bytes 4 (nchannels * framerate * sampwidth)
     ++ le_bytes 2 (nchannels * sampwidth) ++ le_bytes 2 (sampwidth * 8)
     ++ b "data" ++ le_bytes 4 (len frames) ++ frames).

Definition plain_os : WaveStorage.os :=
  {| WaveStorage.writable := fun _ => true;
     WaveStorage.wave_module := canonical_wave;
     WaveStorage.files := [];
     WaveStorage.log := [] |}.

End SysAudioForms.

(** ** A platform for [getNVDAOutputDevice] *)

Module OutputDeviceForms.
Import OutputDevice.

(** The indices [0 .. count - 1] of the endpoint collection. *)
Definition indices_below (count : Z) : list Z :=
  List.map Z.of_nat (seq 0 (Z.to_nat count)).

(** The endpoint at index [i] does not have the name [devName]. *)
Definition other_name (p : platform) (devName : str) (i : Z) : Prop :=
  exists dev name,
    Item p i = Ok dev /\ FriendlyName p dev = Ok name /\ name <> devName.

(** An NVDA whose configuration has the audio setting but no speech
    setting, set to an endpoint that is no longer there; endpoint 1 is
    the default. *)
Definition unplugged : platform :=
  {| GetDeviceEnumerator := Ok tt;
     conf_audio_outputDevice := Ok (lit "{0.0.0.00000000}.{usb}");
     conf_speech_outputDevice := Raise KeyError;
     DEFAULT_DEVICE_KEY := lit "default";
     GetDefaultAudioEndpoint := Ok 1%positive;
     GetDevice := fun _ => Raise COMError;
     GetState := fun _ => Ok Active;
     GetDataFlow := fun _ => Ok eRender;
     EnumAudioEndpoints := Ok tt;
     GetCount := Ok 1;
     Item := fun _ => Ok 1%positive;
     FriendlyName := fun _ => Ok (lit "Speakers") |}.

(** An older NVDA: no audio setting, the speech setting names the
    second of three endpoints. *)
Definition by_speech_name : platform :=
  {| GetDeviceEnumerator := Ok tt;
     conf_audio_outputDevice := Raise KeyError;
     conf_speech_outputDevice := Ok (lit "Headphones");
     DEFAULT_DEVICE_KEY := lit "default";
     GetDefaultAudioEndpoint := Ok 1%positive;
     GetDevice := fun _ => Raise COMError;
     GetState := fun _ => Ok Active;
     GetDataFlow := fun _ => Ok eRender;
     EnumAudioEndpoints := Ok tt;
     GetCount := Ok 3;
     Item := fun i => Ok (Z.to_pos (i + 1));
     FriendlyName := fun dev =>
       Ok (match dev with
           | 2%positive => lit "Headphones"
           | _ => lit "Speakers"
           end) |}.

End OutputDeviceForms.

(** ** Forms of the capture *)

Module SysAudioCaptureForms.
Import SysAudio SysAudioCapture.

(** The storage, when there is one, was made for the format: frames of
    two bytes per channel at the sample rate of the format. *)
Definition coherent (c : capture) : Prop :=
  match _wavestorage (recorder c) with
  | None => True
  | Some storage =>
      exists fmt,
        _format c = Some fmt
        /\ WaveStorage._framesize storage = 2 * nChannels fmt
        /\ WaveStorage._framerate storage = nSamplesPerSec fmt
  end.

(** What happens to a recorder while it records. *)
Inductive action : Type :=
| Open (dev : device)
| Packet (memory : Z -> byte) (address frameCount qpcPos : Z)
| Speech (perf_counter_ns number : Z)
         (speechSequence : list NvdaAudio.speech_item)
| Gesture (perf_counter_ns : Z) (gesture : InputGesture).

Definition act (a : action) : M capture unit :=
  match a with
  | Open dev => _openDevice dev
  | Packet memory address frameCount qpcPos =>
      capture_packet memory address frameCount qpcPos
  | Speech perf_counter_ns number speechSequence =>
      _add_speech_marker perf_counter_ns number speechSequence
  | Gesture perf_counter_ns gesture =>
      let* _ := _add_gesture_marker perf_counter_ns gesture in ret tt
  end.

(** The bytes of a packet of [frameCount] frames of [nchannels] 16-bit
    samples at [address]. *)
Definition packet_bytes (memory : Z -> byte) (address frameCount nchannels : Z)
  : bytes :=
  List.map (fun k => memory (address + Z.of_nat k))
           (seq 0 (Z.to_nat (2 * (frameCount * nchannels)))).

(** The recorder with [storage] in the place of its storage. *)
Definition with_storage (storage : WaveStorage.t) (c : capture) : capture :=
  mk_capture (mk (_max_duration_sec (recorder c)) (Some storage)) (_format c).

(** An endpoint with two channels at 48000 Hz whose mix format is 32-bit
    float, and the memory of a packet. *)
Definition stereo_mix (offset : Z) : byte :=
  match offset with
  | 0 => xfe | 1 => xff
  | 2 => x02
  | 4 => x80 | 5 => xbb
  | 8 => x00 | 9 => xdc | 10 => x05
  | 12 => x08
  | 14 => x20
  | 16 => x16
  | _ => x00
  end.

Definition stereo_device : device :=
  {| getNVDAOutputDevice := Ok tt;
     Activate := Ok tt;
     GetMixFormat := Ok stereo_mix;
     Initialize := fun _ => Ok tt;
     GetService := Ok tt |}.

Definition counting_memory (address : Z) : byte := byte_of_Z address.

End SysAudioCaptureForms.

(** * Sequences and slices *)

Section Slices.
Context {A : Type}.
Implicit Types l v : list A.

Lemma len_nonneg l : 0 <= len l.
Proof. unfold len. lia. Qed.

Lemma len_nil : len (@nil A) = 0.
Proof. reflexivity. Qed.

Lemma len_app l1 l2 : len (l1 ++ l2) = len l1 + len l2.
Proof. unfold len. rewrite length_app. lia. Qed.

Lemma len_zero_nil l : len l = 0 -> l = [].
Proof. destruct l; [reflexivity | unfold len; simpl; lia]. Qed.

Lemma len_ztake k l : 0 <= k <= len l -> len (ztake k l) = k.
Proof. unfold len, ztake. intros H. rewrite length_firstn. lia. Qed.

Lemma len_ztake_le k l : len (ztake k l) <= len l.
Proof. unfold len, ztake. rewrite length_firstn. lia. Qed.

Lemma len_zdrop k l : 0 <= k <= len l -> len (zdrop k l) = len l - k.
Proof. unfold len, zdrop. intros H. rewrite length_skipn. lia. Qed.

Lemma ztake_zdrop k l : ztake k l ++ zdrop k l = l.
Proof. apply firstn_skipn. Qed.

Lemma ztake_le0 k l : k <= 0 -> ztake k l = [].
Proof. unfold ztake. intros H. replace (Z.to_nat k) with O by lia. reflexivity. Qed.

Lemma zdrop_le0 k l : k <= 0 -> zdrop k l = l.
Proof. unfold zdrop. intros H. replace (Z.to_nat k) with O by lia. reflexivity. Qed.

Lemma ztake_all k l : len l <= k -> ztake k l = l.
Proof. unfold ztake, len. intros H. apply firstn_all2. lia. Qed.

Lemma zdrop_all k l : len l <= k -> zdrop k l = [].
Proof. unfold zdrop, len. intros H. apply skipn_all2. lia. Qed.

Lemma ztake_app_l k l1 l2 : k <= len l1 -> ztake k (l1 ++ l2) = ztake k l1.
Proof.
  unfold ztake, len. intros H. rewrite firstn_app.
  replace (Z.to_nat k - length l1)%nat with O by lia.
  simpl. apply app_nil_r.
Qed.

Lemma ztake_app_r k l1 l2 :
  len l1 <= k -> ztake k (l1 ++ l2) = l1 ++ ztake (k - len l1) l2.
Proof.
  unfold ztake, len. intros H. rewrite firstn_app.
  rewrite firstn_all2 by lia. f_equal. f_equal. lia.
Qed.

Lemma zdrop_app_l k l1 l2 :
  k <= len l1 -> zdrop k (l1 ++ l2) = zdrop k l1 ++ l2.
Proof.
  unfold zdrop, len. intros H. rewrite skipn_app.
  replace (Z.to_nat k - length l1)%nat with O by lia. reflexivity.
Qed.

Lemma zdrop_app_r k l1 l2 :
  len l1 <= k -> zdrop k (l1 ++ l2) = zdrop (k - len l1) l2.
Proof.
  unfold zdrop, len. intros H. rewrite skipn_app.
  rewrite skipn_all2 by lia. simpl. f_equal. lia.
Qed.

Lemma zdrop_zdrop a c l : 0 <= a -> 0 <= c -> zdrop a (zdrop c l) = zdrop (a + c) l.
Proof.
  unfold zdrop. intros Ha Hc. rewrite skipn_skipn. f_equal. lia.
Qed.

Lemma len_ztake_gen k l : len (ztake k l) = Z.min (Z.max 0 k) (len l).
Proof. unfold len, ztake. rewrite length_firstn. lia. Qed.

Lemma len_zdrop_gen k l : len (zdrop k l) = len l - Z.min (Z.max 0 k) (len l).
Proof. unfold len, zdrop. rewrite length_skipn. lia. Qed.

(** Slices with bounds in range. *)

Lemma slice_to k l : 0 <= k <= len l -> slice l None (Some k) = ztake k l.
Proof.
  intros H. unfold slice, lower, upper, adjust, ztake.
  destruct (Z.ltb_spec k 0); [lia |].
  rewrite Z.min_l by lia. rewrite Z.sub_0_r. reflexivity.
Qed.

Lemma slice_from k l : 0 <= k <= len l -> slice l (Some k) None = zdrop k l.
Proof.
  intros H. unfold slice, lower, upper, adjust, zdrop.
  destruct (Z.ltb_spec k 0); [lia |].
  rewrite Z.min_l by lia. apply firstn_all2.
  rewrite length_skipn. unfold len in *. lia.
Qed.

Lemma slice_between a c l :
  0 <= a -> a <= c -> c <= len l ->
  slice l (Some a) (Some c) = ztake (c - a) (zdrop a l).
Proof.
  intros Ha Hac Hc. unfold slice, lower, upper, adjust, ztake, zdrop.
  destruct (Z.ltb_spec a 0); [lia |].
  destruct (Z.ltb_spec c 0); [lia |].
  rewrite !Z.min_l by lia. reflexivity.
Qed.

Lemma slice_to_neg k l :
  0 < k <= len l -> slice l None (Some (- k)) = ztake (len l - k) l.
Proof.
  intros H. unfold slice, lower, upper, adjust, ztake.
  destruct (Z.ltb_spec (- k) 0); [| lia].
  rewrite Z.max_r by lia. f_equal. lia.
Qed.

(** [l[-k:]] is the last [k] elements, except that [l[-0:]] is all of
    [l]. *)
Lemma slice_from_neg k l :
  0 < k -> slice l (Some (- k)) None = last_bytes k l.
Proof.
  intros H. unfold slice, lower, upper, adjust, last_bytes, zdrop.
  destruct (Z.ltb_spec (- k) 0); [| lia].
  pose proof (len_nonneg l) as Hl.
  destruct (Z.max_spec 0 (- k + len l)) as [[? ->] | [? ->]].
  - replace (- k + len l) with (len l - k) by lia.
    apply firstn_all2. rewrite length_skipn. unfold len in *. lia.
  - replace (Z.to_nat (len l - k)) with O by lia.
    rewrite Z.sub_0_r. change (skipn O l) with l.
    apply firstn_all2. unfold len. lia.
Qed.

Lemma slice_from_neg0 l : slice l (Some (- 0)) None = l.
Proof.
  unfold slice, lower, upper, adjust. simpl.
  rewrite Z.min_l by apply len_nonneg. simpl.
  apply firstn_all2. unfold len. lia.
Qed.

Lemma slice_assign_all l v : slice_assign l None None v = v.
Proof.
  unfold slice_assign, lower, upper. simpl.
  rewrite Z.max_r by apply len_nonneg.
  rewrite skipn_all2 by (unfold len; lia). apply app_nil_r.
Qed.

Lemma slice_assign_to k l v :
  0 <= k <= len l -> slice_assign l None (Some k) v = v ++ zdrop k l.
Proof.
  intros H. unfold slice_assign, lower, upper, adjust, zdrop.
  destruct (Z.ltb_spec k 0); [lia |].
  rewrite Z.min_l by lia. rewrite Z.max_r by lia. reflexivity.
Qed.

Lemma slice_assign_between a c l v :
  0 <= a -> a <= c -> c <= len l ->
  slice_assign l (Some a) (Some c) v = ztake a l ++ v ++ zdrop c l.
Proof.
  intros Ha Hac Hc. unfold slice_assign, lower, upper, adjust, ztake, zdrop.
  destruct (Z.ltb_spec a 0); [lia |].
  destruct (Z.ltb_spec c 0); [lia |].
  rewrite !Z.min_l by lia. rewrite Z.max_r by lia. reflexivity.
Qed.

Lemma last_bytes_all k l : len l <= k -> last_bytes k l = l.
Proof. intros H. unfold last_bytes. apply zdrop_le0. lia. Qed.

Lemma len_last_bytes k l : 0 <= k <= len l -> len (last_bytes k l) = k.
Proof. intros H. unfold last_bytes. rewrite len_zdrop; lia. Qed.

Lemma last_bytes_0 l : last_bytes 0 l = [].
Proof. unfold last_bytes. apply zdrop_all. lia. Qed.

(** Appending [v] to a stream and keeping its last [k] elements. *)
Lemma last_bytes_app_long k l v :
  0 <= k <= len v -> last_bytes k (l ++ v) = last_bytes k v.
Proof.
  intros H. unfold last_bytes. pose proof (len_nonneg l).
  rewrite len_app, zdrop_app_r by lia. f_equal. lia.
Qed.

Lemma last_bytes_app_short k l v :
  len v <= k <= len l + len v ->
  last_bytes k (l ++ v) = last_bytes (k - len v) l ++ v.
Proof.
  intros H. unfold last_bytes.
  rewrite len_app, zdrop_app_l by lia. f_equal. f_equal. lia.
Qed.

End Slices.

(** * The wave storage *)

Module WaveStorageFacts.
Import WaveStorage WaveStorageForms.

#[local] Arguments MISALIGNED : simpl never.
#[local] Arguments NS_PER_SEC : simpl never.

Lemma write_aligned data ts s :
  _framesize s <> 0 -> len data mod _framesize s = 0 ->
  write data ts s = finish (len data) ts (store data s).
Proof.
  intros HF Hal. unfold write, finish, store, bind, lift, get, ret, modify, modulo, floordiv.
  destruct (Z.eqb_spec (_framesize s) 0) as [? | _]; [contradiction |].
  rewrite Hal. cbn [negb Z.eqb].
  destruct (_maxsize s) as [maxsize |].
  - destruct (maxsize <=? len data);
      [| destruct (0 <? maxsize - len (_buffer s));
         [destruct (len data <=? maxsize - len (_buffer s))
         | destruct (_writeidx s + len data <=? maxsize)]];
      cbn; destruct (Z.eqb_spec (_framesize s) 0); try contradiction;
      destruct ts; cbn; try reflexivity;
      destruct (_framerate s =? 0); reflexivity.
  - cbn. destruct (Z.eqb_spec (_framesize s) 0); try contradiction.
    destruct ts; cbn; try reflexivity.
    destruct (_framerate s =? 0); reflexivity.
Qed.

Lemma remove_old_markers_eq s :
  _remove_old_markers s =
  (Ok tt,
   match _maxframes s with
   | Some maxframes =>
       set_markers
         (List.filter (fun m => _nsampleswritten s - maxframes <=? fst m)
                      (_markers s)) s
   | None => s
   end).
Proof.
  unfold _remove_old_markers, bind, get, put, ret.
  destruct (_maxframes s); reflexivity.
Qed.

Lemma addmarker_eq text s :
  addmarker text s =
  (Ok tt, pruned (set_markers (_markers s ++ [(_nsampleswritten s, text)]) s)).
Proof.
  unfold addmarker, pruned, bind, modify. cbn [fst snd].
  rewrite remove_old_markers_eq. reflexivity.
Qed.

Lemma pruned_fields s :
  _framesize (pruned s) = _framesize s /\
  _framerate (pruned s) = _framerate s /\
  _maxframes (pruned s) = _maxframes s /\
  _maxsize (pruned s) = _maxsize s /\
  _buffer (pruned s) = _buffer s /\
  _writeidx (pruned s) = _writeidx s /\
  _nsampleswritten (pruned s) = _nsampleswritten s /\
  _perf_counter_ns (pruned s) = _perf_counter_ns s.
Proof.
  unfold pruned. rewrite remove_old_markers_eq. cbn [snd].
  destruct (_maxframes s) eqn:E; cbn; rewrite ?E; repeat split; reflexivity.
Qed.

Lemma write_misaligned data ts s :
  _framesize s <> 0 -> len data mod _framesize s <> 0 ->
  write data ts s =
  let kept := slice data None (Some (- (len data mod _framesize s))) in
  finish (len kept) ts (store kept (snd (addmarker MISALIGNED s))).
Proof.
  intros HF Hal. unfold write, bind, lift, get, ret, modulo.
  destruct (Z.eqb_spec (_framesize s) 0) as [? | _]; [contradiction |].
  destruct (Z.eqb_spec (len data mod _framesize s) 0) as [? | _];
    [contradiction |].
  cbn [negb]. rewrite addmarker_eq. cbn [fst snd].
  match goal with |- context [pruned ?x] =>
    destruct (pruned_fields x) as (HF1 & HR1 & _);
    cbn [_framesize _framerate set_markers] in HF1, HR1;
    set (s1 := pruned x) in *
  end.
  set (kept := slice data None _).
  unfold finish, store, modify, floordiv.
  destruct (_maxsize s1) as [maxsize |].
  - destruct (maxsize <=? len kept);
      [| destruct (0 <? maxsize - len (_buffer s1));
         [destruct (len kept <=? maxsize - len (_buffer s1))
         | destruct (_writeidx s1 + len kept <=? maxsize)]];
      cbn; rewrite ?HF1, ?HR1;
      destruct (Z.eqb_spec (_framesize s) 0); try contradiction;
      destruct ts; cbn; rewrite ?HF1, ?HR1; try reflexivity;
      destruct (_framerate s =? 0); reflexivity.
  - cbn. rewrite ?HF1, ?HR1.
    destruct (Z.eqb_spec (_framesize s) 0); try contradiction.
    destruct ts; cbn; rewrite ?HF1, ?HR1; try reflexivity.
    destruct (_framerate s =? 0); reflexivity.
Qed.

Ltac lens :=
  rewrite ?len_app, ?len_ztake_gen, ?len_zdrop_gen in *; lia.

(** The five cases of the buffer update. *)

Lemma store_unbounded data s :
  _maxsize s = None -> store data s = set_buffer (_buffer s ++ data) s.
Proof. intros E. unfold store. rewrite E. reflexivity. Qed.

Lemma store_replace data s M :
  _maxsize s = Some M -> M <= len data ->
  store data s
  = set_writeidx 0 (set_buffer (slice data (Some (- M)) None) s).
Proof.
  intros E H. unfold store. rewrite E.
  destruct (Z.leb_spec M (len data)); [| lia].
  rewrite slice_assign_all. reflexivity.
Qed.

Lemma store_grow data s M :
  _maxsize s = Some M -> len data < M ->
  len (_buffer s) + len data <= M -> len (_buffer s) < M ->
  store data s = set_buffer (_buffer s ++ data) s.
Proof.
  intros E H1 H2 H3. unfold store. rewrite E.
  destruct (Z.leb_spec M (len data)); [lia |].
  destruct (Z.ltb_spec 0 (M - len (_buffer s))); [| lia].
  destruct (Z.leb_spec (len data) (M - len (_buffer s))); [| lia].
  reflexivity.
Qed.

Lemma store_grow_wrap data s M :
  _maxsize s = Some M -> len data < M ->
  M < len (_buffer s) + len data -> len (_buffer s) < M ->
  let space := M - len (_buffer s) in
  store data s
  = set_writeidx (len data - space)
      (set_buffer
         (zdrop space data
          ++ zdrop (len data - space) (_buffer s ++ ztake space data)) s).
Proof.
  intros E H1 H2 H3 space. unfold store. rewrite E.
  pose proof (len_nonneg (_buffer s)).
  destruct (Z.leb_spec M (len data)); [lia |].
  destruct (Z.ltb_spec 0 (M - len (_buffer s))); [| lia].
  destruct (Z.leb_spec (len data) (M - len (_buffer s))); [lia |].
  fold space. rewrite slice_to, slice_from by (subst space; lia).
  rewrite slice_assign_to by (subst space; lens).
  reflexivity.
Qed.

Lemma store_overwrite data s M :
  _maxsize s = Some M -> len data < M -> len (_buffer s) = M ->
  0 <= _writeidx s -> _writeidx s + len data <= M ->
  store data s
  = set_writeidx (_writeidx s + len data)
      (set_buffer
         (ztake (_writeidx s) (_buffer s) ++ data
          ++ zdrop (_writeidx s + len data) (_buffer s)) s).
Proof.
  intros E H1 H2 H3 H4. unfold store. rewrite E.
  pose proof (len_nonneg data).
  destruct (Z.leb_spec M (len data)); [lia |].
  destruct (Z.ltb_spec 0 (M - len (_buffer s))); [lia |].
  destruct (Z.leb_spec (_writeidx s + len data) M); [| lia].
  rewrite slice_assign_between by lia. reflexivity.
Qed.

Lemma store_overwrite_wrap data s M :
  _maxsize s = Some M -> len data < M -> len (_buffer s) = M ->
  0 <= _writeidx s <= M -> M < _writeidx s + len data ->
  let space := M - _writeidx s in
  store data s
  = set_writeidx (len data - space)
      (set_buffer
         (zdrop space data
          ++ zdrop (len data - space)
                   (ztake (_writeidx s) (_buffer s) ++ ztake space data)) s).
Proof.
  intros E H1 H2 H3 H4 space. unfold store. rewrite E.
  pose proof (len_nonneg data).
  destruct (Z.leb_spec M (len data)); [lia |].
  destruct (Z.ltb_spec 0 (M - len (_buffer s))); [lia |].
  destruct (Z.leb_spec (_writeidx s + len data) M); [lia |].
  fold space. rewrite slice_to, slice_from by (subst space; lia).
  rewrite slice_assign_between by lia.
  rewrite (zdrop_all M) by lia. rewrite app_nil_r.
  rewrite slice_assign_to by (subst space; lens).
  reflexivity.
Qed.

Lemma ring_bounded s M input :
  _maxsize s = Some M ->
  (len (_buffer s) < M /\ _buffer s = input /\ _writeidx s = 0) \/
  (0 < M /\ len (_buffer s) = M /\ 0 <= _writeidx s <= M /\
   M <= len input /\
   zdrop (_writeidx s) (_buffer s) ++ ztake (_writeidx s) (_buffer s)
   = last_bytes M input) \/
  (M = 0 /\ _writeidx s = 0) ->
  ring s input.
Proof. intros E H. unfold ring. rewrite E. exact H. Qed.

Lemma store_ring s input data :
  ring s input -> ring (store data s) (input ++ data).
Proof.
  intros Hring.
  pose proof (len_nonneg data) as Hd.
  pose proof (len_nonneg input) as Hi.
  pose proof (len_nonneg (_buffer s)) as Hb.
  unfold ring in Hring.
  destruct (_maxsize s) as [M |] eqn:EM.
  2:{ rewrite store_unbounded by assumption. unfold ring. cbn. rewrite EM.
      rewrite Hring. reflexivity. }
  destruct (Z.le_gt_cases M (len data)) as [HMd | HMd].
  - (* the whole buffer is replaced *)
    rewrite (store_replace _ _ M) by assumption.
    apply (ring_bounded _ M); [exact EM |]. cbn.
    assert (HM : 0 <= M) by (destruct Hring as [? | [? | ?]]; lia).
    destruct (Z.eq_dec M 0) as [-> | HM0].
    + right. right. split; reflexivity.
    + right. left. rewrite slice_from_neg by lia.
      rewrite len_last_bytes by lia.
      repeat split; try lia.
      * rewrite len_app. lia.
      * rewrite zdrop_le0, ztake_le0, app_nil_r by lia.
        symmetry. apply last_bytes_app_long. lia.
  - destruct Hring as [(Hlt & Hbuf & Hw) | [(HM & Hlen & Hw & Hin & Hord) | (-> & _)]];
      [| | lia].
    + (* still growing *)
      destruct (Z.le_gt_cases (len (_buffer s) + len data) M) as [Hfit | Hfit].
      * rewrite (store_grow _ _ M) by assumption.
        apply (ring_bounded _ M); [exact EM |]. cbn. rewrite Hbuf in *.
        destruct (Z.eq_dec (len input + len data) M) as [Hfull | Hnot].
        -- right. left. rewrite len_app, Hw.
           repeat split; try lia.
           rewrite zdrop_le0, ztake_le0, app_nil_r by lia.
           symmetry. apply last_bytes_all. rewrite len_app. lia.
        -- left. rewrite len_app. repeat split; [lia | assumption].
      * rewrite (store_grow_wrap _ _ M) by (assumption || lia).
        apply (ring_bounded _ M); [exact EM |]. cbn. rewrite Hbuf in *.
        set (space := M - len input) in *.
        right. left.
        assert (Hlen1 : len (input ++ ztake space data) = M)
          by (subst space; lens).
        set (grown := input ++ ztake space data) in *.
        set (rest := zdrop space data).
        assert (Hrest : len rest = len data - space)
          by (subst rest space; lens).
        assert (Hsplit : input ++ data = grown ++ rest).
        { subst grown rest. rewrite <- app_assoc, ztake_zdrop. reflexivity. }
        repeat split; try lens.
        rewrite (zdrop_app_r (len data - space) rest) by lia.
        rewrite (ztake_app_l (len data - space) rest) by lia.
        rewrite (ztake_all _ rest) by lia.
        rewrite Hrest, Z.sub_diag, zdrop_le0 by lia.
        unfold last_bytes. rewrite Hsplit.
        rewrite len_app, zdrop_app_l by lia.
        f_equal. f_equal. lia.
    + (* full: the oldest bytes are overwritten *)
      set (w := _writeidx s) in *. set (buf := _buffer s) in *.
      assert (Hlast : last_bytes M (input ++ data)
                      = zdrop (len data) (zdrop w buf ++ ztake w buf) ++ data).
      { rewrite last_bytes_app_short by lia. f_equal.
        rewrite Hord. unfold last_bytes.
        rewrite zdrop_zdrop by lia. f_equal. lia. }
      assert (Hw1 : len (ztake w buf) = w) by lens.
      assert (Hw2 : len (zdrop w buf) = M - w) by lens.
      destruct (Z.le_gt_cases (w + len data) M) as [Hfit | Hfit].
      * rewrite (store_overwrite _ _ M) by (assumption || lia).
        apply (ring_bounded _ M); [exact EM |]. cbn. fold w buf.
        right. left.
        assert (Hlen' : len (ztake w buf ++ data ++ zdrop (w + len data) buf) = M)
          by lens.
        repeat split; try lia.
        { rewrite len_app. lia. }
        rewrite Hlast.
        rewrite (zdrop_app_l (len data)) by lia.
        rewrite zdrop_zdrop by lia.
        rewrite (zdrop_app_r (w + len data) (ztake w buf)) by lia.
        rewrite (zdrop_app_r _ data) by lia.
        rewrite (ztake_app_r (w + len data) (ztake w buf)) by lia.
        rewrite (ztake_app_l _ data) by lia.
        rewrite (ztake_all _ data) by lia.
        rewrite Hw1. replace (w + len data - w - len data) with 0 by lia.
        rewrite zdrop_le0 by lia.
        rewrite <- !app_assoc. f_equal. f_equal. lia.
      * rewrite (store_overwrite_wrap _ _ M) by (assumption || lia).
        apply (ring_bounded _ M); [exact EM |]. cbn. fold w buf.
        set (space := M - w) in *.
        right. left.
        set (rest := zdrop space data).
        assert (Hrest : len rest = len data - space)
          by (subst rest space; lens).
        assert (Hhead : len (ztake space data) = space)
          by (subst space; lens).
        repeat split; try lia.
        { rewrite len_app, len_zdrop_gen, len_app. lia. }
        { rewrite len_app. lia. }
        rewrite (zdrop_app_r (len data - space) rest) by lia.
        rewrite (ztake_app_l (len data - space) rest) by lia.
        rewrite (ztake_all _ rest) by lia.
        rewrite Hrest, Z.sub_diag, zdrop_le0 by lia.
        rewrite Hlast.
        rewrite (zdrop_app_r (len data)) by lia.
        rewrite Hw2. fold space.
        rewrite (zdrop_app_l (len data - space) (ztake w buf))
          by (subst space; lia).
        rewrite <- app_assoc. f_equal.
        subst rest. rewrite ztake_zdrop. reflexivity.
Qed.

Lemma ring_ext s s' input :
  _maxsize s' = _maxsize s -> _buffer s' = _buffer s ->
  _writeidx s' = _writeidx s -> ring s input -> ring s' input.
Proof. unfold ring. intros -> -> ->. exact id. Qed.

Lemma store_fields data s :
  _framesize (store data s) = _framesize s /\
  _framerate (store data s) = _framerate s /\
  _maxframes (store data s) = _maxframes s /\
  _maxsize (store data s) = _maxsize s /\
  _nsampleswritten (store data s) = _nsampleswritten s /\
  _perf_counter_ns (store data s) = _perf_counter_ns s /\
  _markers (store data s) = _markers s.
Proof.
  unfold store. destruct (_maxsize s) eqn:E; [| cbn; rewrite E; tauto].
  repeat match goal with |- context [if ?c then _ else _] => destruct c end;
    cbn; rewrite E; tauto.
Qed.

Lemma finish_fields size ts s :
  _framesize (snd (finish size ts s)) = _framesize s /\
  _framerate (snd (finish size ts s)) = _framerate s /\
  _maxframes (snd (finish size ts s)) = _maxframes s /\
  _maxsize (snd (finish size ts s)) = _maxsize s /\
  _buffer (snd (finish size ts s)) = _buffer s /\
  _writeidx (snd (finish size ts s)) = _writeidx s /\
  _nsampleswritten (snd (finish size ts s))
  = _nsampleswritten s + size / _framesize s /\
  _markers (snd (finish size ts s)) = _markers s.
Proof.
  unfold finish. destruct ts; [destruct (_framerate s =? 0) |]; cbn; tauto.
Qed.

Lemma len_frames_of F data :
  0 < F -> len (frames_of F data) = F * (len data / F).
Proof.
  intros HF. unfold frames_of. pose proof (len_nonneg data).
  apply len_ztake. split.
  - apply Z.mul_nonneg_nonneg; [lia | apply Z.div_pos; lia].
  - apply Z.mul_div_le. lia.
Qed.

Lemma frames_of_aligned F data :
  0 < F -> len data mod F = 0 -> frames_of F data = data.
Proof.
  intros HF Hal. unfold frames_of. apply ztake_all.
  pose proof (Z.div_mod (len data) F). lia.
Qed.

Lemma marked_fields data s :
  _framesize (marked data s) = _framesize s /\
  _framerate (marked data s) = _framerate s /\
  _maxframes (marked data s) = _maxframes s /\
  _maxsize (marked data s) = _maxsize s /\
  _buffer (marked data s) = _buffer s /\
  _writeidx (marked data s) = _writeidx s /\
  _nsampleswritten (marked data s) = _nsampleswritten s /\
  _perf_counter_ns (marked data s) = _perf_counter_ns s.
Proof.
  unfold marked. destruct (_ =? 0); [tauto |].
  rewrite addmarker_eq. cbn [snd].
  match goal with |- context [pruned ?x] => apply (pruned_fields x) end.
Qed.

(** Every write, aligned or not. *)
Lemma write_eq data ts s :
  0 < _framesize s ->
  write data ts s =
  let kept := frames_of (_framesize s) data in
  finish (len kept) ts (store kept (marked data s)).
Proof.
  intros HF. cbv zeta. unfold marked.
  pose proof (len_nonneg data) as Hd.
  destruct (Z.eqb_spec (len data mod _framesize s) 0) as [Hal | Hal].
  - rewrite frames_of_aligned by assumption.
    apply write_aligned; [lia | assumption].
  - rewrite write_misaligned by (assumption || lia). cbv zeta.
    pose proof (Z.mod_pos_bound (len data) (_framesize s) HF) as Hr.
    pose proof (Z.div_mod (len data) (_framesize s)) as Hdm.
    pose proof (Z.mod_le (len data) (_framesize s)) as Hle.
    rewrite slice_to_neg by lia.
    unfold frames_of.
    replace (len data - len data mod _framesize s)
      with (_framesize s * (len data / _framesize s)) by lia.
    reflexivity.
Qed.

Lemma init_holds nchannels sampwidth framerate maxframes :
  0 < sampwidth * nchannels ->
  match maxframes with Some C => 0 <= C | None => True end ->
  holds (__init__ nchannels sampwidth framerate maxframes) [].
Proof.
  intros HF HC. unfold holds, ring. cbn.
  destruct maxframes as [C |]; cbn.
  - repeat split; try lia.
    destruct (Z.eq_dec C 0) as [-> | ?].
    + right. right. split; reflexivity.
    + left. repeat split. change (len (@nil byte)) with 0.
      apply Z.mul_pos_pos; lia.
  - repeat split; lia.
Qed.

Lemma write_holds data ts s input :
  holds s input ->
  holds (snd (write data ts s)) (input ++ frames_of (_framesize s) data).
Proof.
  intros (Hring & HF & Hn & Hcap).
  rewrite write_eq by assumption. cbv zeta.
  set (kept := frames_of (_framesize s) data).
  destruct (marked_fields data s) as (mF & mR & mC & mM & mB & mW & mN & _).
  destruct (store_fields kept (marked data s)) as (sF & sR & sC & sM & sN & _).
  destruct (finish_fields (len kept) ts (store kept (marked data s)))
    as (fF & fR & fC & fM & fB & fW & fN & _).
  unfold holds. rewrite fF, fC, fM, fN, sF, sC, sM, sN, mF, mC, mM, mN.
  repeat split; try assumption.
  - eapply ring_ext; [exact fM | exact fB | exact fW |].
    apply store_ring.
    eapply ring_ext; [exact mM | exact mB | exact mW | exact Hring].
  - subst kept. rewrite len_app, len_frames_of by assumption.
    rewrite (Z.mul_comm (_framesize s)), Z.div_mul by lia. lia.
Qed.

Lemma getbytes_eq s :
  getbytes s =
  (Ok (match _maxsize s with
       | None => _buffer s
       | Some maxsize =>
           if len (_buffer s) <? maxsize then _buffer s
           else slice (_buffer s) (Some (_writeidx s)) (Some maxsize)
                ++ slice (_buffer s) None (Some (_writeidx s))
       end), s).
Proof.
  unfold getbytes, bind, get, ret.
  destruct (_maxsize s); [destruct (_ <? _) |]; reflexivity.
Qed.

(** [getbytes] returns the retained end of the stream. *)
Lemma getbytes_ring s input :
  ring s input ->
  getbytes s =
  (Ok (match _maxsize s with
       | None => input
       | Some M => last_bytes M input
       end), s).
Proof.
  intros Hring. rewrite getbytes_eq. f_equal. f_equal.
  unfold ring in Hring.
  pose proof (len_nonneg (_buffer s)) as Hb.
  destruct (_maxsize s) as [M |]; [| assumption].
  destruct Hring as [(Hlt & Hbuf & Hw) | [(HM & Hlen & Hw & Hin & Hord) | (-> & Hw)]].
  - destruct (Z.ltb_spec (len (_buffer s)) M); [| lia].
    rewrite <- Hbuf. symmetry. apply last_bytes_all. lia.
  - destruct (Z.ltb_spec (len (_buffer s)) M); [lia |].
    rewrite slice_between, slice_to by lia.
    rewrite <- Hord. f_equal. apply ztake_all. rewrite len_zdrop; lia.
  - destruct (Z.ltb_spec (len (_buffer s)) 0); [lia |].
    rewrite Hw. rewrite slice_between, slice_to by lia.
    rewrite last_bytes_0. rewrite !ztake_le0 by lia. reflexivity.
Qed.

Lemma write_fields data ts s :
  0 < _framesize s ->
  _framesize (snd (write data ts s)) = _framesize s /\
  _framerate (snd (write data ts s)) = _framerate s /\
  _maxframes (snd (write data ts s)) = _maxframes s /\
  _maxsize (snd (write data ts s)) = _maxsize s /\
  _nsampleswritten (snd (write data ts s))
  = _nsampleswritten s + len data / _framesize s /\
  _markers (snd (write data ts s)) = _markers (marked data s).
Proof.
  intros HF. rewrite write_eq by assumption. cbv zeta.
  set (kept := frames_of (_framesize s) data).
  destruct (marked_fields data s) as (mF & mR & mC & mM & _ & _ & mN & _).
  destruct (store_fields kept (marked data s))
    as (sF & sR & sC & sM & sN & _ & sK).
  destruct (finish_fields (len kept) ts (store kept (marked data s)))
    as (fF & fR & fC & fM & _ & _ & fN & fK).
  rewrite fF, fR, fC, fM, fN, fK, sF, sR, sC, sM, sN, sK, mF, mR, mC, mM, mN.
  repeat split. f_equal. subst kept.
  rewrite len_frames_of by assumption.
  rewrite Z.mul_comm. apply Z.div_mul. lia.
Qed.

Lemma write_ok data ts s :
  0 < _framesize s -> _framerate s <> 0 ->
  write data ts s = (Ok tt, snd (write data ts s)).
Proof.
  intros HF HR. rewrite write_eq by assumption. cbv zeta.
  set (kept := frames_of _ _). set (s1 := store _ _).
  assert (HR1 : _framerate s1 = _framerate s).
  { subst s1. destruct (store_fields kept (marked data s)) as (_ & -> & _).
    apply marked_fields. }
  unfold finish. destruct ts; [| reflexivity].
  rewrite HR1. destruct (Z.eqb_spec (_framerate s) 0); [contradiction |].
  reflexivity.
Qed.

(** C2: wrap correctness.  Two frame-aligned writes into a new bounded
    storage of capacity [C] frames whose sizes together exceed the
    capacity leave [getbytes] equal to the last [C] frames of the two
    inputs concatenated, in order; and in general [getbytes] returns the
    buffer as it is before the ring is full and
    [ring[writeCursor:] + ring[:writeCursor]] once it is. *)
Theorem C2_wrap_correctness nchannels sampwidth framerate C d1 d2 ts1 ts2 :
  let F := sampwidth * nchannels in
  let s0 := __init__ nchannels sampwidth framerate (Some C) in
  0 < F -> 0 <= C -> framerate <> 0 ->
  len d1 mod F = 0 -> len d2 mod F = 0 ->
  C * F < len d1 + len d2 ->
  fst ((let* _ := write d1 ts1 in
        let* _ := write d2 ts2 in
        getbytes) s0)
  = Ok (last_bytes (C * F) (d1 ++ d2))
  /\ len (last_bytes (C * F) (d1 ++ d2)) = C * F
  /\ (forall s M, _maxsize s = Some M -> len (_buffer s) < M ->
      getbytes s = (Ok (_buffer s), s))
  /\ (forall s M, _maxsize s = Some M -> len (_buffer s) = M ->
      0 <= _writeidx s <= M ->
      getbytes s
      = (Ok (zdrop (_writeidx s) (_buffer s) ++ ztake (_writeidx s) (_buffer s)),
         s)).
Proof.
  intros F s0 HF HC HR Hal1 Hal2 Hsize.
  assert (H0 : holds s0 []) by (apply init_holds; assumption).
  pose proof (write_holds d1 ts1 s0 [] H0) as H1.
  change (_framesize s0) with F in H1.
  rewrite frames_of_aligned in H1 by assumption.
  destruct (write_fields d1 ts1 s0 HF) as (HF1 & HR1 & _ & HM1 & _).
  change (_framesize s0) with F in HF1.
  change (_framerate s0) with framerate in HR1.
  change (_maxsize s0) with (Some (C * F)) in HM1.
  set (s1 := snd (write d1 ts1 s0)) in *.
  pose proof (write_holds d2 ts2 s1 _ H1) as H2.
  rewrite HF1, frames_of_aligned in H2 by assumption.
  cbn [app] in H2.
  assert (HF1' : 0 < _framesize s1) by (rewrite HF1; exact HF).
  destruct (write_fields d2 ts2 s1 HF1') as (_ & _ & _ & HM2 & _).
  rewrite HM1 in HM2.
  repeat split.
  - unfold bind.
    rewrite (write_ok d1 ts1 s0) by assumption. fold s1.
    rewrite (write_ok d2 ts2 s1) by (rewrite ?HF1, ?HR1; assumption).
    destruct H2 as (Hring & _).
    rewrite (getbytes_ring _ _ Hring), HM2. reflexivity.
  - apply len_last_bytes. rewrite len_app.
    split; [apply Z.mul_nonneg_nonneg |]; lia.
  - intros s M EM Hlt. rewrite getbytes_eq, EM.
    destruct (Z.ltb_spec (len (_buffer s)) M); [reflexivity | lia].
  - intros s M EM Hlen Hw. rewrite getbytes_eq, EM.
    destruct (Z.ltb_spec (len (_buffer s)) M); [lia |].
    rewrite slice_between, slice_to by lia.
    rewrite (ztake_all (M - _writeidx s)) by (rewrite len_zdrop; lia).
    reflexivity.
Qed.

Lemma C2_wrap_correctness_witness :
  let d1 := List.map byte_of_Z [1; 2; 3] in
  let d2 := List.map byte_of_Z [4; 5; 6] in
  fst ((let* _ := write d1 None in
        let* _ := write d2 (Some 7) in
        getbytes) (__init__ 1 1 48000 (Some 4)))
  = Ok (List.map byte_of_Z [3; 4; 5; 6]).
Proof.
  intros d1 d2.
  apply (C2_wrap_correctness 1 1 48000 4 d1 d2 None (Some 7));
    [reflexivity | discriminate | discriminate | reflexivity | reflexivity
    | reflexivity].
Defined.

Lemma writes_holds calls : forall s input,
  holds s input -> exists input', holds (snd (writes calls s)) input'.
Proof.
  induction calls as [| [data ts] calls IH]; intros s input H.
  - exists input. exact H.
  - unfold writes. cbn [for_each fst snd]. unfold bind.
    pose proof (write_holds data ts s input H) as H1.
    destruct (write data ts s) as [[[] | e] s1]; cbn [snd] in *.
    + apply (IH _ _ H1).
    + eexists. exact H1.
Qed.

Lemma writes_fields calls : forall s,
  0 < _framesize s ->
  _framesize (snd (writes calls s)) = _framesize s /\
  _maxframes (snd (writes calls s)) = _maxframes s.
Proof.
  induction calls as [| [data ts] calls IH]; intros s HF.
  - split; reflexivity.
  - unfold writes. cbn [for_each fst snd]. unfold bind.
    destruct (write_fields data ts s HF) as (HF1 & _ & HC1 & _).
    destruct (write data ts s) as [[[] | e] s1]; cbn [snd] in *.
    + destruct (IH s1) as [E1 E2]; [lia |]. unfold writes in E1, E2.
      rewrite E1, E2. split; assumption.
    + split; assumption.
Qed.

Lemma ring_capacity_nonneg s M input :
  ring s input -> _maxsize s = Some M -> 0 <= M.
Proof.
  unfold ring. intros H E. rewrite E in H.
  pose proof (len_nonneg (_buffer s)).
  destruct H as [? | [? | ?]]; lia.
Qed.

Lemma holds_getbytes_length s input :
  holds s input ->
  exists out,
    getbytes s = (Ok out, s) /\
    len out
    = _framesize s * match _maxframes s with
                     | None => _nsampleswritten s
                     | Some C => Z.min (_nsampleswritten s) C
                     end.
Proof.
  intros (Hring & HF & Hn & Hcap).
  eexists. split; [apply (getbytes_ring _ _ Hring) |].
  pose proof (ring_capacity_nonneg s) as HM.
  destruct (_maxframes s) as [C |], (_maxsize s) as [M |];
    try contradiction.
  - subst M. specialize (HM _ _ Hring eq_refl).
    destruct (Z.le_gt_cases (len input) (C * _framesize s)) as [Hle | Hgt].
    + rewrite last_bytes_all by assumption.
      rewrite Z.min_l by nia. lia.
    + rewrite len_last_bytes by nia.
      rewrite Z.min_r by nia. lia.
  - lia.
Qed.

(** C10: after any sequence of [write] calls on a new storage, the
    length of [getbytes()] is [frameSize * totalFramesWritten] when
    unbounded and [frameSize * min(totalFramesWritten, capacityFrames)]
    when bounded; and [getbytes] leaves every storage as it was. *)
Theorem C10_length_counter nchannels sampwidth framerate maxframes calls :
  let s := snd (writes calls (__init__ nchannels sampwidth framerate maxframes)) in
  0 < sampwidth * nchannels ->
  match maxframes with Some C => 0 <= C | None => True end ->
  (exists out,
     fst (getbytes s) = Ok out /\
     len out
     = sampwidth * nchannels
       * match maxframes with
         | None => _nsampleswritten s
         | Some C => Z.min (_nsampleswritten s) C
         end)
  /\ (forall s', snd (getbytes s') = s').
Proof.
  intros s HF HC. split.
  - destruct (writes_holds calls _ [] (init_holds _ _ framerate _ HF HC))
      as (input & H).
    fold s in H.
    destruct (holds_getbytes_length s input H) as (out & Hget & Hlen).
    exists out. rewrite Hget. split; [reflexivity |].
    assert (Hfix : _framesize s = sampwidth * nchannels
                   /\ _maxframes s = maxframes).
    { apply (writes_fields calls (__init__ _ _ _ _)). exact HF. }
    destruct Hfix as [E1 E2]. rewrite <- E1, <- E2. exact Hlen.
  - intros s'. rewrite getbytes_eq. reflexivity.
Qed.

Lemma C10_length_counter_witness :
  let calls := [(List.map byte_of_Z [1; 2; 3; 4; 5], None);
                (List.map byte_of_Z [6; 7; 8; 9; 10; 11; 12], Some 40)] in
  let s := snd (writes calls (__init__ 2 1 48000 (Some 4))) in
  0 < 1 * 2 /\
  exists out,
    fst (getbytes s) = Ok out /\
    len out = 1 * 2 * Z.min (_nsampleswritten s) 4.
Proof.
  intros calls s. split; [reflexivity |].
  apply (C10_length_counter 2 1 48000 (Some 4) calls);
    [reflexivity | discriminate].
Defined.

(** C7 as stated fails: a full ring of capacity 4 with its cursor at 2
    takes an aligned write of 2 bytes, which ends exactly at the capacity
    boundary; the cursor is then 4, the capacity itself, and neither
    [(2 + 2) mod 4 = 0] nor below the capacity. *)
Lemma C7_cursor_counterexample :
  let s := full_ring_at_2 in
  let data := List.map byte_of_Z [7; 8] in
  let s' := snd (write data None s) in
  (_maxsize s = Some 4 /\ len (_buffer s) = 4 /\ _writeidx s = 2
   /\ len data mod _framesize s = 0 /\ len data < 4)
  /\ _writeidx s' = 4
  /\ ~ (_writeidx s' = (_writeidx s + len data) mod 4 /\ _writeidx s' < 4).
Proof.
  cbv zeta. split; [repeat split |]. split; [reflexivity |].
  intros [Hmod _]. vm_compute in Hmod. discriminate Hmod.
Qed.

(** C7, amended: on a full ring, an aligned write shorter than the
    capacity overwrites from the cursor, wrapping to offset 0 when it
    crosses the end, and leaves the cursor at [cursor + s] when that is at
    most the capacity and at [cursor + s - capacity] otherwise: a value in
    [0 .. capacity], congruent to [cursor + s], equal to
    [(cursor + s) mod capacity] unless the write ends exactly at the
    capacity, where it is the capacity. *)
Theorem C7_full_ring_overwrite s M data ts :
  let w := _writeidx s in
  let size := len data in
  let s' := snd (write data ts s) in
  _maxsize s = Some M -> 0 < _framesize s ->
  size mod _framesize s = 0 ->
  len (_buffer s) = M -> 0 <= w <= M -> size < M ->
  _buffer s'
  = (if w + size <=? M
     then ztake w (_buffer s) ++ data ++ zdrop (w + size) (_buffer s)
     else zdrop (M - w) data
          ++ zdrop (w + size - M) (ztake w (_buffer s))
          ++ ztake (M - w) data)
  /\ len (_buffer s') = M
  /\ _writeidx s' = (if w + size <=? M then w + size else w + size - M)
  /\ 0 <= _writeidx s' <= M
  /\ _writeidx s' mod M = (w + size) mod M
  /\ (w + size <> M -> _writeidx s' = (w + size) mod M)
  /\ (w + size = M -> _writeidx s' = M).
Proof.
  intros w size s' EM HF Hal Hlen Hw Hsize.
  pose proof (len_nonneg data) as Hd. fold size in Hd.
  assert (Hs' : _buffer s' = _buffer (store data s)
                /\ _writeidx s' = _writeidx (store data s)).
  { subst s'. rewrite write_aligned by (assumption || lia).
    destruct (finish_fields (len data) ts (store data s))
      as (_ & _ & _ & _ & -> & -> & _).
    split; reflexivity. }
  destruct Hs' as [-> ->].
  assert (Hw1 : len (ztake w (_buffer s)) = w) by (apply len_ztake; lia).
  destruct (Z.leb_spec (w + size) M) as [Hfit | Hwrap].
  - rewrite (store_overwrite _ _ M) by (assumption || lia).
    cbn [_buffer _writeidx set_buffer set_writeidx]. fold w size.
    repeat split; try lia.
    + rewrite !len_app, len_zdrop_gen, Hw1. fold size. lia.
    + intros Hne. symmetry. apply Z.mod_small. lia.
  - rewrite (store_overwrite_wrap _ _ M) by (assumption || lia).
    cbn [_buffer _writeidx set_buffer set_writeidx]. fold w size.
    assert (Hhead : len (ztake (M - w) data) = M - w)
      by (apply len_ztake; fold size; lia).
    replace (size - (M - w)) with (w + size - M) by lia.
    rewrite (zdrop_app_l (w + size - M)) by lia.
    repeat split; try lia.
    + rewrite !len_app, !len_zdrop_gen, Hw1, Hhead. fold size. lia.
    + replace (w + size) with (w + size - M + 1 * M) at 2 by lia.
      rewrite Z.mod_add by lia. reflexivity.
    + intros _. replace (w + size) with (w + size - M + 1 * M) at 2 by lia.
      rewrite Z.mod_add by lia. symmetry. apply Z.mod_small. lia.
Qed.

Lemma C7_full_ring_overwrite_witness :
  let s' := snd (write (List.map byte_of_Z [7; 8; 9]) None full_ring_at_2) in
  _buffer s' = List.map byte_of_Z [9; 6; 7; 8] /\ _writeidx s' = 1.
Proof.
  intros s'.
  destruct (C7_full_ring_overwrite full_ring_at_2 4
              (List.map byte_of_Z [7; 8; 9]) None)
    as (Hbuf & _ & Hidx & _);
    [reflexivity | reflexivity | reflexivity | reflexivity
    | split; discriminate | reflexivity |].
  split; [exact Hbuf | exact Hidx].
Defined.

Lemma pruned_markers s : _markers (pruned s) = retained s.
Proof.
  unfold pruned, retained. rewrite remove_old_markers_eq. cbn [snd].
  destruct (_maxframes s); reflexivity.
Qed.

(** C3: a write of [frameSize * N + r] bytes with [0 < r < frameSize]
    does not fail, acts on the buffer as the aligned write of its first
    [N] frames, adds [N] to the frame counter, and inserts one
    ["!WAVE MISALIGNED"] marker at the value the counter had before. *)
Theorem C3_misaligned_write s data ts N r :
  let n := _nsampleswritten s in
  let F := _framesize s in
  let s' := snd (write data ts s) in
  0 < r < F -> 0 <= N -> len data = F * N + r ->
  _framerate s <> 0 ->
  match _maxframes s with Some C => 0 <= C | None => True end ->
  fst (write data ts s) = Ok tt
  /\ write data ts s
     = write (ztake (F * N) data) ts (snd (addmarker MISALIGNED s))
  /\ (forall input, holds s input -> holds s' (input ++ ztake (F * N) data))
  /\ _nsampleswritten s' = n + N
  /\ _markers s' = retained s ++ [(n, MISALIGNED)].
Proof.
  intros n F s' Hr HN Hlen HR HC.
  assert (HF : 0 < F) by lia.
  assert (Hmod : len data mod F = r).
  { rewrite Hlen, Z.add_comm, Z.mul_comm, Z.mod_add by lia.
    apply Z.mod_small. lia. }
  assert (Hdiv : len data / F = N).
  { rewrite Hlen, Z.add_comm, Z.mul_comm, Z.div_add by lia.
    rewrite Z.div_small by lia. reflexivity. }
  assert (Hkept : frames_of F data = ztake (F * N) data).
  { unfold frames_of. rewrite Hdiv. reflexivity. }
  assert (Hmarked : marked data s = snd (addmarker MISALIGNED s)).
  { unfold marked. fold F. rewrite Hmod.
    destruct (Z.eqb_spec r 0); [lia | reflexivity]. }
  destruct (write_fields data ts s HF) as (_ & _ & _ & _ & HN' & HK').
  fold s' F n in HN', HK'.
  split; [| split; [| split; [| split]]].
  - rewrite write_ok by assumption. reflexivity.
  - rewrite (write_eq data ts s) by assumption. cbv zeta. fold F.
    rewrite Hkept, Hmarked.
    set (s1 := snd (addmarker MISALIGNED s)).
    assert (HF1 : _framesize s1 = F).
    { subst s1. rewrite addmarker_eq. cbn [snd].
      match goal with |- context [pruned ?x] =>
        destruct (pruned_fields x) as (-> & _) end.
      reflexivity. }
    assert (Hlen1 : len (ztake (F * N) data) = F * N)
      by (apply len_ztake; nia).
    rewrite write_aligned.
    + reflexivity.
    + rewrite HF1. lia.
    + rewrite HF1, Hlen1, Z.mul_comm. apply Z.mod_mul. lia.
  - intros input H. subst s'. rewrite <- Hkept. apply write_holds. exact H.
  - rewrite HN', Hdiv. reflexivity.
  - rewrite HK', Hmarked, addmarker_eq. cbn [snd].
    rewrite pruned_markers. unfold retained.
    cbn [_maxframes _nsampleswritten _markers set_markers]. fold n.
    destruct (_maxframes s) as [C |]; [| reflexivity].
    rewrite List.filter_app. cbn [List.filter fst].
    destruct (Z.leb_spec (n - C) n); [reflexivity | lia].
Qed.

Lemma C3_misaligned_write_witness :
  let s := snd (write (List.map byte_of_Z [1; 2; 3; 4]) None
                      (__init__ 2 1 48000 (Some 4))) in
  let s' := snd (write (List.map byte_of_Z [5; 6; 7; 8; 9]) (Some 0) s) in
  _nsampleswritten s' = 2 + 2 /\ _markers s' = [(2, MISALIGNED)].
Proof.
  intros s s'.
  destruct (C3_misaligned_write s (List.map byte_of_Z [5; 6; 7; 8; 9])
              (Some 0) 2 1)
    as (_ & _ & _ & Hn & Hm);
    [split; reflexivity | discriminate | reflexivity | discriminate
    | discriminate |].
  split; [exact Hn | exact Hm].
Defined.

(** Pruning, in the words of the specification: the state keeps its
    markers from the retained window on. *)
Lemma pruned_retained s : pruned s = set_markers (retained s) s.
Proof.
  unfold pruned, retained. rewrite remove_old_markers_eq. cbn [snd].
  destruct (_maxframes s); [reflexivity | destruct s; reflexivity].
Qed.

Lemma addmarker_retained text s :
  addmarker text s
  = (Ok tt,
     set_markers
       (retained (set_markers (_markers s ++ [(_nsampleswritten s, text)]) s))
       s).
Proof. rewrite addmarker_eq, pruned_retained. reflexivity. Qed.

Lemma addmarker_at_time_retained timestamp text s :
  addmarker_at_time timestamp text s
  = (Ok tt,
     set_markers
       (retained
          (set_markers
             (_markers s
              ++ [(match _perf_counter_ns s with
                   | None => _nsampleswritten s
                   | Some anchor =>
                       _nsampleswritten s
                       + (timestamp - anchor) * _framerate s / NS_PER_SEC
                   end, text)]) s))
       s).
Proof.
  unfold addmarker_at_time, bind, get.
  destruct (_perf_counter_ns s) as [anchor |].
  - unfold lift, floordiv, modify.
    change (NS_PER_SEC =? 0) with false. cbv iota. cbn [fst snd].
    rewrite remove_old_markers_eq. unfold retained.
    cbn [set_markers _markers _maxframes _nsampleswritten].
    destruct (_maxframes s); reflexivity.
  - apply addmarker_retained.
Qed.

(** C5: without an anchor [addmarker_at_time] is [addmarker]; with an
    anchor it appends a marker at
    [totalFramesWritten + (timestamp - anchor) * frameRate // 10^9]
    (floor division, so the offset may be negative) and prunes: of the
    markers with the new one at their end it keeps those from the
    retained window on, all of them when the storage is unbounded, and
    changes nothing else.  At 48000 frames per second a request 10 ms
    after the anchor lands 480 frames after the write position.  A
    timestamped write sets the anchor to the timestamp plus the duration
    of the frames it wrote. *)
Theorem C5_time_anchored_marker s timestamp text data start :
  let n := _nsampleswritten s in
  let F := _framesize s in
  let placed p :=
    set_markers (retained (set_markers (_markers s ++ [(p, text)]) s)) s in
  0 < F -> _framerate s <> 0 ->
  (_perf_counter_ns s = None ->
   addmarker_at_time timestamp text s = addmarker text s
   /\ addmarker_at_time timestamp text s = (Ok tt, placed n))
  /\ (forall anchor, _perf_counter_ns s = Some anchor ->
      addmarker_at_time timestamp text s
      = (Ok tt,
         placed (n + (timestamp - anchor) * _framerate s / NS_PER_SEC)))
  /\ (forall anchor, _perf_counter_ns s = Some anchor ->
      _framerate s = 48000 -> timestamp = anchor + 10 * 1000000 ->
      addmarker_at_time timestamp text s = (Ok tt, placed (n + 480)))
  /\ (forall p C, _maxframes s = Some C ->
      _markers (placed p)
      = List.filter (fun m => n - C <=? fst m) (_markers s ++ [(p, text)]))
  /\ (forall p, _maxframes s = None ->
      _markers (placed p) = _markers s ++ [(p, text)])
  /\ _perf_counter_ns (snd (write data (Some start) s))
     = Some (start + len data / F * NS_PER_SEC / _framerate s).
Proof.
  intros n F placed HF HR.
  assert (Hanchored : forall anchor, _perf_counter_ns s = Some anchor ->
    addmarker_at_time timestamp text s
    = (Ok tt, placed (n + (timestamp - anchor) * _framerate s / NS_PER_SEC))).
  { intros anchor Ha. rewrite addmarker_at_time_retained, Ha. reflexivity. }
  split; [| split; [| split; [| split; [| split]]]].
  - intros Ha. split.
    + unfold addmarker_at_time, bind, get. rewrite Ha. reflexivity.
    + rewrite addmarker_at_time_retained, Ha. reflexivity.
  - exact Hanchored.
  - intros anchor Ha Hrate Ht. rewrite (Hanchored anchor Ha).
    rewrite Hrate, Ht.
    replace (anchor + 10 * 1000000 - anchor) with 10000000 by lia.
    reflexivity.
  - intros p C HC. subst placed. cbv beta. unfold retained.
    cbn [set_markers _markers _maxframes _nsampleswritten].
    rewrite HC. reflexivity.
  - intros p HC. subst placed. cbv beta. unfold retained.
    cbn [set_markers _markers _maxframes _nsampleswritten].
    rewrite HC. reflexivity.
  - rewrite write_eq by assumption. cbv zeta. fold F.
    set (kept := frames_of F data). set (s1 := store kept (marked data s)).
    assert (Hs1 : _framesize s1 = F /\ _framerate s1 = _framerate s).
    { subst s1.
      destruct (store_fields kept (marked data s)) as (-> & -> & _).
      destruct (marked_fields data s) as (-> & -> & _).
      split; reflexivity. }
    destruct Hs1 as [HF1 HR1].
    unfold finish. rewrite HF1, HR1.
    destruct (Z.eqb_spec (_framerate s) 0); [contradiction |].
    cbn [snd _perf_counter_ns set_perf_counter_ns].
    subst kept. rewrite len_frames_of by assumption.
    rewrite (Z.mul_comm F), Z.div_mul by lia. reflexivity.
Qed.

Lemma C5_time_anchored_marker_witness :
  let s := snd (write (List.map byte_of_Z [1; 2; 3; 4]) (Some 5000)
                      (__init__ 1 2 48000 (Some 96000))) in
  _perf_counter_ns s = Some (5000 + 2 * NS_PER_SEC / 48000)
  /\ _markers (snd (addmarker_at_time (5000 + 41666 + 10 * 1000000)
                                      (lit "Sync") s))
     = [(2 + 480, lit "Sync")].
Proof.
  intros s.
  destruct (C5_time_anchored_marker
              (__init__ 1 2 48000 (Some 96000)) 0 (lit "")
              (List.map byte_of_Z [1; 2; 3; 4]) 5000)
    as (_ & _ & _ & _ & _ & Hanchor); [reflexivity | discriminate |].
  destruct (C5_time_anchored_marker s (5000 + 41666 + 10 * 1000000)
              (lit "Sync") [] 0)
    as (_ & _ & Hmark & _); [reflexivity | discriminate |].
  split; [exact Hanchor |].
  rewrite (Hmark 46666); reflexivity.
Defined.

Lemma enumerate_seq {A} (l : list A) : forall k,
  enumerate l (Z.of_nat k) = combine (List.map Z.of_nat (seq k (length l))) l.
Proof.
  induction l as [| x l IH]; intros k; [reflexivity |].
  cbn [enumerate length seq List.map combine]. f_equal.
  rewrite <- IH. f_equal. lia.
Qed.

Lemma enumerate_numbered {A} (l : list A) : enumerate l 1 = numbered l.
Proof. apply (enumerate_seq l 1). Qed.

Lemma pack_spec fields :
  pack fields
  = if forallb field_fits fields
    then Ok (List.concat (List.map field_bytes fields))
    else Raise StructError.
Proof.
  induction fields as [| f fields IH]; [reflexivity |].
  cbn [pack forallb List.map List.concat]. rewrite IH.
  destruct f as [v | x]; cbn [field_fits field_bytes].
  - unfold pack_I. fold (u32 v).
    destruct (u32 v); [| reflexivity].
    destruct (forallb field_fits fields); reflexivity.
  - destruct (forallb field_fits fields); reflexivity.
Qed.

Lemma cue_loop_spec firstframe items : forall cue_points label_chunks,
  (forallb (marker_fits firstframe) items = true ->
   cue_loop firstframe items cue_points label_chunks
   = Ok (cue_points ++ List.map (cue_point firstframe) items,
         label_chunks ++ List.map labl items))
  /\ (forallb (marker_fits firstframe) items = false ->
      exists e,
        cue_loop firstframe items cue_points label_chunks = Raise e).
Proof.
  induction items as [| [id [pos text]] items IH]; intros cps lcs.
  - split; [intros _ | discriminate]. cbn. rewrite !app_nil_r. reflexivity.
  - cbn [forallb cue_loop List.map].
    unfold marker_fits at 1 3. cbn [fst snd].
    assert (Hpad : forall encoded : bytes,
              (if negb (len (encoded ++ [x00]) mod 2 =? 0)
               then (encoded ++ [x00]) ++ [x00] else encoded ++ [x00])
              = pad_even (encoded ++ [x00])).
    { intros encoded. unfold pad_even. destruct (_ =? 0); reflexivity. }
    assert (Hlabel : forall encoded, encode_utf8 text = Ok encoded ->
              label_text text = pad_even (encoded ++ [x00])).
    { intros encoded E. unfold label_text, utf8. rewrite E. reflexivity. }
    rewrite pack_spec.
    cbn [forallb field_fits List.map field_bytes List.concat].
    change (u32 0) with true. rewrite !andb_true_r, !app_nil_r.
    destruct (u32 id) eqn:Eid, (u32 pos), (u32 (pos - firstframe));
      cbn [andb]; try (split; [discriminate | eexists; reflexivity]).
    cbv beta iota.
    destruct (encode_utf8 text) as [encoded | e] eqn:Eenc;
      [| split; [discriminate | eexists; reflexivity]].
    cbv beta iota. rewrite Hpad, pack_spec, (Hlabel encoded eq_refl).
    cbn [forallb field_fits List.map field_bytes List.concat].
    rewrite Eid, !andb_true_r, !app_nil_r.
    destruct (u32 (4 + len (pad_even (encoded ++ [x00]))));
      cbn [andb]; [| split; [discriminate | eexists; reflexivity]].
    match goal with |- context [cue_loop _ _ ?a ?c] =>
      destruct (IH a c) as [IHok IHerr] end.
    split.
    + intros Hfits. rewrite (IHok Hfits).
      unfold cue_point at 2, labl at 2. cbn [fst snd].
      rewrite (Hlabel encoded eq_refl).
      rewrite <- !app_assoc. reflexivity.
    + intros Hfits. exact (IHerr Hfits).
Qed.

Lemma len_map {A B} (f : A -> B) (l : list A) : len (List.map f l) = len l.
Proof. unfold len. rewrite length_map. reflexivity. Qed.

Lemma len_numbered {A} (l : list A) : len (numbered l) = len l.
Proof.
  unfold len, numbered.
  rewrite length_combine, length_map, length_seq. lia.
Qed.

Lemma remove_old_markers_pruned s : _remove_old_markers s = (Ok tt, pruned s).
Proof. unfold pruned. rewrite remove_old_markers_eq. reflexivity. Qed.

Lemma getwavecuedata_spec s :
  snd (getwavecuedata s) = pruned s
  /\ (cue_fits (first_retained s) (retained s) = true ->
      fst (getwavecuedata s)
      = Ok (cue_chunk (first_retained s) (retained s)
            ++ list_chunk (retained s)))
  /\ (cue_fits (first_retained s) (retained s) = false ->
      exists e, fst (getwavecuedata s) = Raise e).
Proof.
  unfold getwavecuedata, bind, get, lift, ret.
  rewrite remove_old_markers_pruned.
  destruct (pruned_fields s) as (_ & _ & HC & _ & _ & _ & HN & _).
  rewrite HC, HN, pruned_markers, enumerate_numbered.
  fold (first_retained s).
  set (ff := first_retained s). set (kept := retained s).
  unfold cue_fits.
  destruct (cue_loop_spec ff (numbered kept) [] []) as [Hok Herr].
  destruct (forallb (marker_fits ff) (numbered kept)).
  2:{ destruct (Herr eq_refl) as [e ->]. cbn [andb fst snd].
      split; [reflexivity |]. split; [discriminate |].
      intros _. exists e. reflexivity. }
  rewrite (Hok eq_refl). cbn [andb app].
  rewrite !pack_spec.
  cbn [forallb field_fits List.map field_bytes List.concat].
  rewrite !andb_true_r, !app_nil_r, len_map, len_numbered.
  fold (u32 (len kept)).
  set (cue_data := List.concat (List.map (cue_point ff) (numbered kept))).
  set (label_data := List.concat (List.map labl (numbered kept))).
  destruct (u32 (4 + len cue_data)), (u32 (len kept)); cbn [andb fst snd];
    try (split; [reflexivity |]; split;
         [discriminate | intros _; eexists; reflexivity]).
  rewrite ?pack_spec.
  cbn [forallb field_fits List.map field_bytes List.concat].
  rewrite ?andb_true_r, ?app_nil_r.
  destruct (u32 (4 + len label_data)); cbn [andb fst snd];
    try (split; [reflexivity |]; split;
         [discriminate | intros _; eexists; reflexivity]).
  split; [reflexivity |]. split; [| discriminate].
  intros _. reflexivity.
Qed.





Lemma sorted_snoc (l : list Z) x :
  StronglySorted Z.le l -> Forall (fun y => y <= x) l ->
  StronglySorted Z.le (l ++ [x]).
Proof.
  induction 1 as [| y l Hs IH Hy]; intros Hx; cbn.
  - repeat constructor.
  - inversion Hx; subst. constructor; [apply IH; assumption |].
    apply Forall_app. split; [assumption | repeat constructor; assumption].
Qed.

Lemma sorted_last (l : list Z) d :
  StronglySorted Z.le l -> Forall (fun y => y <= List.last l d) l.
Proof.
  induction 1 as [| y l Hs IH Hy]; [constructor |].
  destruct l as [| z l]; [repeat constructor; cbn; lia |].
  change (List.last (y :: z :: l) d) with (List.last (z :: l) d).
  constructor; [| exact IH].
  inversion Hy; subst. inversion IH; subst. lia.
Qed.

Lemma Forall_positions_filter (P : Z -> Prop) f (ms : list (Z * str)) :
  Forall P (List.map fst ms) -> Forall P (List.map fst (List.filter f ms)).
Proof.
  induction ms as [| m ms IH]; intros H; [constructor |].
  inversion H; subst. cbn. destruct (f m); [constructor |]; auto.
Qed.

Lemma sorted_positions_filter f (ms : list (Z * str)) :
  StronglySorted Z.le (List.map fst ms) ->
  StronglySorted Z.le (List.map fst (List.filter f ms)).
Proof.
  induction ms as [| m ms IH]; intros H; [constructor |].
  inversion H; subst. cbn. destruct (f m); [| auto].
  constructor; [auto |]. apply Forall_positions_filter. assumption.
Qed.

Lemma timeline_ok_markers s s' :
  _markers s' = _markers s -> timeline_ok s -> timeline_ok s'.
Proof. unfold timeline_ok, positions. intros ->. exact id. Qed.

Lemma retained_timeline_ok s ms :
  timeline_ok (set_markers ms s) ->
  timeline_ok (set_markers (retained (set_markers ms s)) s).
Proof.
  unfold timeline_ok, positions, retained.
  cbn [set_markers _markers _maxframes _nsampleswritten].
  intros [Hall Hsorted]. destruct (_maxframes s); [| split; assumption].
  split; [apply Forall_positions_filter | apply sorted_positions_filter];
    assumption.
Qed.

Lemma append_timeline_ok s p text :
  timeline_ok s -> 0 <= p < 2 ^ 64 ->
  Forall (fun q => q <= p) (positions s) ->
  timeline_ok (set_markers (_markers s ++ [(p, text)]) s).
Proof.
  unfold timeline_ok, positions. cbn [set_markers _markers].
  intros [Hall Hsorted] Hp Hbelow.
  rewrite List.map_app. cbn [List.map fst]. split.
  - apply Forall_app. split; [assumption | repeat constructor; lia].
  - apply sorted_snoc; assumption.
Qed.

Lemma addmarker_timeline_ok text s :
  timeline_ok s -> 0 <= _nsampleswritten s < 2 ^ 64 ->
  Forall (fun q => q <= _nsampleswritten s) (positions s) ->
  timeline_ok (snd (addmarker text s)).
Proof.
  intros H Hn Hbelow. rewrite addmarker_retained. cbn [snd].
  apply retained_timeline_ok, append_timeline_ok; assumption.
Qed.

Lemma write_markers data ts s :
  _markers (snd (write data ts s))
  = if (_framesize s =? 0) || (len data mod _framesize s =? 0)
    then _markers s
    else _markers (snd (addmarker MISALIGNED s)).
Proof.
  destruct (Z.eqb_spec (_framesize s) 0) as [HF0 | HF0]; cbn [orb].
  - unfold write, bind, get, lift, modulo. rewrite HF0. reflexivity.
  - destruct (Z.eqb_spec (len data mod _framesize s) 0) as [Hal | Hal].
    + rewrite write_aligned by assumption.
      destruct (finish_fields (len data) ts (store data s))
        as (_ & _ & _ & _ & _ & _ & _ & ->).
      apply store_fields.
    + rewrite write_misaligned by assumption. cbv zeta.
      set (kept := slice _ _ _). set (s1 := snd (addmarker MISALIGNED s)).
      destruct (finish_fields (len kept) ts (store kept s1))
        as (_ & _ & _ & _ & _ & _ & _ & ->).
      apply store_fields.
Qed.

(** C6 as stated fails: four 16-bit mono frames at 48 kHz are written
    with the time stamp 10^9 ns, so the anchor is 10^9 + 83333 ns, and a
    marker is added at the write position, frame 4.  A marker requested
    at 10^9 + 20833 ns, 62.5 microseconds before the anchor, has the
    sample offset -3 and is appended at position 4 - 3 = 1, after the
    marker at 4: both positions are unsigned, but they are no longer
    non-decreasing in insertion order. *)
Lemma C6_timeline_counterexample :
  timeline_ok marked_at_4
  /\ positions marked_at_4 = [4]
  /\ positions (snd (run (AddMarkerAtTime 1000020833 (lit "kb:a"))
                         marked_at_4))
     = [4; 1]
  /\ ~ timeline_ok (snd (run (AddMarkerAtTime 1000020833 (lit "kb:a"))
                             marked_at_4)).
Proof.
  assert (E1 : positions marked_at_4 = [4]) by (vm_compute; reflexivity).
  assert (E2 : positions (snd (run (AddMarkerAtTime 1000020833 (lit "kb:a"))
                                   marked_at_4)) = [4; 1])
    by (vm_compute; reflexivity).
  split; [| split; [exact E1 | split; [exact E2 |]]].
  - unfold timeline_ok. rewrite E1. split; repeat constructor; try lia.
  - unfold timeline_ok. rewrite E2. intros [_ Hsorted].
    inversion Hsorted as [| ? ? _ Hle]; subst.
    inversion Hle as [| ? ? H41 _]; subst.
    apply H41. reflexivity.
Qed.

(** C6, amended: marker positions that are unsigned 64-bit values and
    non-decreasing in insertion order stay so under pruning,
    [getwavecuedata] and every [write] that is frame-aligned (or refused
    for a frame size of 0), which add no marker: they leave the
    positions as they are or drop those below the retained window; and
    under [addmarker], a misaligned [write] and [addmarker_at_time]
    whenever the position they append (the write position, respectively
    [totalFramesWritten + sampleOffset]) is an unsigned 64-bit value
    that is not below any marker already there.  [addmarker_at_time]
    appends the position it computes as it is, with any offset, and
    then prunes: it neither clamps nor reorders, so with a negative
    offset the new marker may precede earlier markers in position. *)
Theorem C6_timeline_preserved s o :
  (timeline_ok s -> in_order s o -> timeline_ok (snd (run o s)))
  /\ (forall timestamp text offset,
      offset = match _perf_counter_ns s with
               | None => 0
               | Some anchor =>
                   (timestamp - anchor) * _framerate s / NS_PER_SEC
               end ->
      _markers (snd (addmarker_at_time timestamp text s))
      = retained (set_markers
                    (_markers s ++ [(_nsampleswritten s + offset, text)]) s))
  /\ (appended s o = None ->
      positions (snd (run o s)) = List.map fst (retained s)
      \/ positions (snd (run o s)) = positions s).
Proof.
  split; [| split].
  - intros H Hin. unfold in_order in Hin.
    destruct o as [text | timestamp text | data ts | |];
      cbn [run appended] in *.
    + destruct Hin as [Hp Hbelow]. apply addmarker_timeline_ok; assumption.
    + destruct Hin as [Hp Hbelow].
      rewrite addmarker_at_time_retained. cbn [snd].
      apply retained_timeline_ok, append_timeline_ok; assumption.
    + pose proof (write_markers data ts s) as EK.
      destruct ((_framesize s =? 0) || (len data mod _framesize s =? 0)).
      * apply (timeline_ok_markers s); assumption.
      * destruct Hin as [Hp Hbelow].
        apply (timeline_ok_markers (snd (addmarker MISALIGNED s)));
          [exact EK |].
        apply addmarker_timeline_ok; assumption.
    + rewrite remove_old_markers_pruned, pruned_retained. cbn [snd].
      apply (retained_timeline_ok s (_markers s)).
      apply (timeline_ok_markers s); [reflexivity | exact H].
    + unfold bind.
      destruct (getwavecuedata_spec s) as (Hstate & _).
      destruct (getwavecuedata s) as [[out | e] s1]; cbn [snd] in *;
        subst s1; rewrite pruned_retained;
        apply (retained_timeline_ok s (_markers s));
        (apply (timeline_ok_markers s); [reflexivity | exact H]).
  - intros timestamp text offset ->.
    rewrite addmarker_at_time_retained. cbn [snd set_markers _markers].
    destruct (_perf_counter_ns s); [reflexivity |].
    rewrite Z.add_0_r. reflexivity.
  - intros Hnone.
    destruct o as [text | timestamp text | data ts | |];
      cbn [run appended] in *; try discriminate Hnone.
    + right. unfold positions. rewrite write_markers.
      destruct ((_framesize s =? 0) || (len data mod _framesize s =? 0));
        [reflexivity | discriminate Hnone].
    + left. rewrite remove_old_markers_pruned. cbn [snd].
      unfold positions. rewrite pruned_markers. reflexivity.
    + left. unfold bind, ret.
      destruct (getwavecuedata_spec s) as (Hstate & _).
      destruct (getwavecuedata s) as [[out | e] s1]; cbn [snd] in *;
        subst s1; unfold positions; rewrite pruned_markers; reflexivity.
Qed.

Lemma C6_timeline_preserved_witness :
  timeline_ok marked_at_4
  /\ in_order marked_at_4 (AddMarkerAtTime 1010083333 (lit "kb:a"))
  /\ timeline_ok (snd (run (AddMarkerAtTime 1010083333 (lit "kb:a"))
                           marked_at_4))
  /\ positions (snd (run (AddMarkerAtTime 1010083333 (lit "kb:a"))
                         marked_at_4))
     = [4; 4 + 480].
Proof.
  assert (E1 : positions marked_at_4 = [4]) by (vm_compute; reflexivity).
  assert (H : timeline_ok marked_at_4).
  { unfold timeline_ok. rewrite E1. split; repeat constructor; try lia. }
  assert (Hin : in_order marked_at_4 (AddMarkerAtTime 1010083333 (lit "kb:a"))).
  { unfold in_order.
    replace (appended marked_at_4 (AddMarkerAtTime 1010083333 (lit "kb:a")))
      with (Some 484) by (vm_compute; reflexivity).
    rewrite E1. split; [lia |]. repeat constructor. lia. }
  split; [exact H |]. split; [exact Hin |]. split.
  - destruct (C6_timeline_preserved marked_at_4
                (AddMarkerAtTime 1010083333 (lit "kb:a"))) as [Hkeep _].
    apply Hkeep; assumption.
  - vm_compute. reflexivity.
Defined.

(** * Further properties of the wave storage *)

Lemma writes_stream calls : forall s input,
  holds s input -> _framerate s <> 0 ->
  writes calls s = (Ok tt, snd (writes calls s))
  /\ holds (snd (writes calls s)) (input ++ stream_of (_framesize s) calls).
Proof.
  induction calls as [| [data ts] calls IH]; intros s input H HR.
  - unfold stream_of. cbn. rewrite app_nil_r. split; [reflexivity | exact H].
  - pose proof H as (_ & HF & _).
    pose proof (write_holds data ts s input H) as H1.
    destruct (write_fields data ts s HF) as (HF1 & HR1 & _).
    unfold writes, stream_of.
    cbn [for_each fst snd List.map List.concat]. unfold bind.
    rewrite (write_ok data ts s HF HR).
    destruct (IH (snd (write data ts s)) _ H1) as [E1 E2];
      [rewrite HR1; exact HR |].
    unfold writes, stream_of in E1, E2. rewrite HF1 in E2.
    split; [exact E1 |]. rewrite app_assoc. exact E2.
Qed.

(** X1: after any sequence of [write] calls on a new storage with a
    positive frame size and a non-zero frame rate, every call succeeds
    and [getbytes] returns the whole frames of all the calls
    concatenated in order: all of them when the storage is unbounded,
    the last [C] frames' worth of bytes when its capacity is [C]
    frames. *)
Theorem X1_stream_retained nchannels sampwidth framerate maxframes calls :
  let F := sampwidth * nchannels in
  let s0 := __init__ nchannels sampwidth framerate maxframes in
  0 < F ->
  match maxframes with Some C => 0 <= C | None => True end ->
  framerate <> 0 ->
  (let* _ := writes calls in getbytes) s0
  = (Ok (match maxframes with
         | Some C => last_bytes (C * F) (stream_of F calls)
         | None => stream_of F calls
         end),
     snd (writes calls s0)).
Proof.
  intros F s0 HF HC HR.
  destruct (writes_stream calls s0 [] (init_holds _ _ framerate _ HF HC) HR)
    as [Eok Hh].
  change (_framesize s0) with F in Hh. cbn [app] in Hh.
  unfold bind. rewrite Eok.
  destruct Hh as (Hring & _ & _ & Hcap).
  rewrite (getbytes_ring _ _ Hring).
  destruct (writes_fields calls s0 HF) as [_ EC].
  change (_maxframes s0) with maxframes in EC. rewrite EC in Hcap.
  destruct maxframes as [C |], (_maxsize (snd (writes calls s0))) as [M |];
    try contradiction.
  - rewrite Hcap.
    destruct (writes_fields calls s0 HF) as [EF _].
    rewrite EF. reflexivity.
  - reflexivity.
Qed.

Lemma X1_stream_retained_witness :
  let calls := [(List.map byte_of_Z [1; 2; 3], None);
                (List.map byte_of_Z [4; 5; 6; 7], Some 9);
                (List.map byte_of_Z [8; 9; 10], None)] in
  fst ((let* _ := writes calls in getbytes) (__init__ 1 2 48000 (Some 2)))
  = Ok (List.map byte_of_Z [6; 7; 8; 9]).
Proof.
  intros calls.
  rewrite (X1_stream_retained 1 2 48000 (Some 2) calls);
    [reflexivity | reflexivity | discriminate | discriminate].
Defined.

Lemma pruned_eq s :
  pruned s
  = match _maxframes s with
    | Some C =>
        set_markers
          (List.filter (fun m => _nsampleswritten s - C <=? fst m) (_markers s)) s
    | None => s
    end.
Proof. unfold pruned. rewrite remove_old_markers_eq. reflexivity. Qed.

Lemma filter_idem {A} (f : A -> bool) (l : list A) :
  List.filter f (List.filter f l) = List.filter f l.
Proof.
  induction l as [| x l IH]; [reflexivity |].
  cbn. destruct (f x) eqn:E; cbn; rewrite ?E, IH; reflexivity.
Qed.

Lemma pruned_in_window s : in_window (pruned s).
Proof.
  rewrite pruned_eq. unfold in_window.
  destruct (_maxframes s) as [C |] eqn:EC; cbn; rewrite ?EC; [| exact Logic.I].
  apply List.Forall_forall. intros m Hm.
  apply List.filter_In in Hm. destruct Hm as [_ Hm]. lia.
Qed.

Lemma pruned_idem s : pruned (pruned s) = pruned s.
Proof.
  rewrite (pruned_eq (pruned s)).
  rewrite (pruned_eq s).
  destruct (_maxframes s) as [C |] eqn:EC; cbn; rewrite EC; [| reflexivity].
  unfold set_markers. cbn. rewrite filter_idem. reflexivity.
Qed.

Lemma addmarker_at_time_eq timestamp text s :
  addmarker_at_time timestamp text s
  = (Ok tt,
     pruned (set_markers
               (_markers s
                ++ [(match _perf_counter_ns s with
                     | None => _nsampleswritten s
                     | Some anchor =>
                         _nsampleswritten s
                         + (timestamp - anchor) * _framerate s / NS_PER_SEC
                     end, text)]) s)).
Proof.
  unfold addmarker_at_time, bind, get.
  destruct (_perf_counter_ns s) as [anchor |].
  - unfold lift, floordiv, modify.
    change (NS_PER_SEC =? 0) with false. cbv iota.
    rewrite remove_old_markers_pruned. reflexivity.
  - apply addmarker_eq.
Qed.

(** X2: pruning keeps the markers inside the retained window.  After
    [_remove_old_markers], [addmarker], [addmarker_at_time] or
    [getwavecuedata] on a bounded storage no marker lies before frame
    [_nsampleswritten - _maxframes]; [addmarker] and [addmarker_at_time]
    never raise; pruning twice is pruning once; and an unbounded storage
    is never pruned. *)
Theorem X2_markers_in_window s timestamp text :
  in_window (pruned s)
  /\ (fst (addmarker text s) = Ok tt /\ in_window (snd (addmarker text s)))
  /\ (fst (addmarker_at_time timestamp text s) = Ok tt
      /\ in_window (snd (addmarker_at_time timestamp text s)))
  /\ in_window (snd (getwavecuedata s))
  /\ pruned (pruned s) = pruned s
  /\ (_maxframes s = None -> pruned s = s).
Proof.
  split; [apply pruned_in_window |].
  split; [rewrite addmarker_eq; split; [reflexivity | apply pruned_in_window] |].
  split; [rewrite addmarker_at_time_eq; split;
          [reflexivity | apply pruned_in_window] |].
  split; [destruct (getwavecuedata_spec s) as [-> _]; apply pruned_in_window |].
  split; [apply pruned_idem |].
  intros EC. rewrite pruned_eq, EC. reflexivity.
Qed.

Lemma same_audio s s' :
  _maxsize s' = _maxsize s -> _buffer s' = _buffer s ->
  _writeidx s' = _writeidx s -> fst (getbytes s') = fst (getbytes s).
Proof.
  intros EM EB EW. rewrite !getbytes_eq. cbn [fst].
  rewrite EM, EB, EW. reflexivity.
Qed.

Lemma pruned_set_markers_fields ms s :
  _maxsize (pruned (set_markers ms s)) = _maxsize s /\
  _buffer (pruned (set_markers ms s)) = _buffer s /\
  _writeidx (pruned (set_markers ms s)) = _writeidx s /\
  _nsampleswritten (pruned (set_markers ms s)) = _nsampleswritten s /\
  _perf_counter_ns (pruned (set_markers ms s)) = _perf_counter_ns s.
Proof.
  destruct (pruned_fields (set_markers ms s))
    as (_ & _ & _ & -> & -> & -> & -> & ->).
  repeat split.
Qed.

Lemma marker_op_audio o s :
  marker_op o = true ->
  _maxsize (snd (run o s)) = _maxsize s /\
  _buffer (snd (run o s)) = _buffer s /\
  _writeidx (snd (run o s)) = _writeidx s /\
  _nsampleswritten (snd (run o s)) = _nsampleswritten s /\
  _perf_counter_ns (snd (run o s)) = _perf_counter_ns s.
Proof.
  intros Hop. destruct o as [text | timestamp text | data ts | |];
    try discriminate Hop; cbn [run].
  - rewrite addmarker_eq. apply pruned_set_markers_fields.
  - rewrite addmarker_at_time_eq. apply pruned_set_markers_fields.
  - rewrite remove_old_markers_pruned. cbn [snd].
    destruct (pruned_fields s) as (_ & _ & _ & -> & -> & -> & -> & ->).
    repeat split.
  - unfold bind, ret. destruct (getwavecuedata_spec s) as [E _].
    destruct (getwavecuedata s) as [[out | e] s1]; cbn [snd] in *; subst s1;
      destruct (pruned_fields s) as (_ & _ & _ & -> & -> & -> & -> & ->);
      repeat split.
Qed.

(** X3: markers and audio are kept apart.  An operation that only
    concerns markers ([addmarker], [addmarker_at_time], pruning,
    [getwavecuedata]) changes neither what [getbytes] returns nor the
    frame counter nor the time anchor; and a frame-aligned [write]
    leaves the marker list as it is, so it neither adds nor prunes a
    marker. *)
Theorem X3_markers_apart_from_audio o s data ts :
  (marker_op o = true ->
   fst (getbytes (snd (run o s))) = fst (getbytes s)
   /\ _nsampleswritten (snd (run o s)) = _nsampleswritten s
   /\ _perf_counter_ns (snd (run o s)) = _perf_counter_ns s)
  /\ (0 < _framesize s -> len data mod _framesize s = 0 ->
      _markers (snd (write data ts s)) = _markers s).
Proof.
  split.
  - intros Hop.
    destruct (marker_op_audio o s Hop) as (EM & EB & EW & EN & EA).
    split; [apply same_audio; assumption | split; assumption].
  - intros HF Hal.
    destruct (write_fields data ts s HF) as (_ & _ & _ & _ & _ & ->).
    unfold marked. rewrite Hal. reflexivity.
Qed.

Lemma X3_markers_apart_from_audio_witness :
  let s := two_markers in
  (fst (getbytes (snd (run (AddMarkerAtTime 5 (lit "kb:a")) s)))
   = fst (getbytes s))
  /\ _markers (snd (write (List.map byte_of_Z [8; 9]) (Some 3) s)) = _markers s.
Proof.
  intros s.
  destruct (X3_markers_apart_from_audio
              (AddMarkerAtTime 5 (lit "kb:a")) s
              (List.map byte_of_Z [8; 9]) (Some 3)) as [H1 H2].
  split.
  - apply H1. reflexivity.
  - apply H2; reflexivity.
Defined.

Lemma set_fields_eta s :
  set_nsampleswritten (_nsampleswritten s) (set_buffer (_buffer s) s) = s.
Proof. destruct s. reflexivity. Qed.

Lemma store_nil s :
  match _maxsize s with
  | Some M => 0 < M /\ _writeidx s <= M
  | None => True
  end ->
  store [] s = s.
Proof.
  intros Hcap. unfold store. change (len (@nil byte)) with 0.
  pose proof (len_nonneg (_buffer s)) as Hb.
  destruct (_maxsize s) as [M |].
  - destruct Hcap as [HM Hw].
    destruct (Z.leb_spec M 0); [lia |].
    destruct (Z.ltb_spec 0 (M - len (_buffer s))).
    + destruct (Z.leb_spec 0 (M - len (_buffer s))); [| lia].
      rewrite app_nil_r. destruct s; reflexivity.
    + destruct (Z.leb_spec (_writeidx s + 0) M); [| lia].
      rewrite Z.add_0_r.
      assert (E : slice_assign (_buffer s) (Some (_writeidx s))
                               (Some (_writeidx s)) [] = _buffer s).
      { unfold slice_assign. cbn [lower upper app].
        rewrite Z.max_id. apply firstn_skipn. }
      rewrite E. destruct s; reflexivity.
  - rewrite app_nil_r. destruct s; reflexivity.
Qed.

(** X4: an empty write stores nothing.  On a storage with a non-zero
    frame size (and, when bounded, a positive capacity and its cursor
    within it) [write] of empty data leaves the buffer, the cursor, the
    frame counter and the markers as they are; the only change is that a
    given timestamp becomes the time anchor, which needs a non-zero
    frame rate. *)
Theorem X4_empty_write s ts :
  _framesize s <> 0 ->
  match _maxsize s with
  | Some M => 0 < M /\ _writeidx s <= M
  | None => True
  end ->
  match ts with Some _ => _framerate s <> 0 | None => True end ->
  write [] ts s
  = (Ok tt,
     match ts with
     | Some p => set_perf_counter_ns (Some p) s
     | None => s
     end).
Proof.
  intros HF Hcap HR.
  rewrite write_aligned by (assumption || reflexivity).
  rewrite store_nil by assumption.
  unfold finish. change (len (@nil byte)) with 0.
  rewrite Z.div_0_l by assumption. rewrite Z.add_0_r.
  destruct ts as [p |].
  - destruct (Z.eqb_spec (_framerate s) 0); [contradiction |].
    rewrite Z.mul_0_l, Z.div_0_l, Z.add_0_r by assumption.
    destruct s; reflexivity.
  - destruct s; reflexivity.
Qed.

Lemma X4_empty_write_witness :
  write [] (Some 12) full_ring_at_2
  = (Ok tt, set_perf_counter_ns (Some 12) full_ring_at_2).
Proof.
  apply (X4_empty_write full_ring_at_2 (Some 12));
    [discriminate | split; [reflexivity | discriminate] | discriminate].
Defined.

(** X5: the two divisions of [write].  With a frame size of zero every
    [write] raises [ZeroDivisionError] and leaves the storage as it was.
    With a positive frame size and a frame rate of zero a timestamped
    [write] raises [ZeroDivisionError] only at its end: the data has
    been stored and counted as by the same write without a timestamp,
    and the anchor is not moved. *)
Theorem X5_zero_divisors s data ts p :
  (_framesize s = 0 -> write data ts s = (Raise ZeroDivisionError, s))
  /\ (0 < _framesize s -> _framerate s = 0 ->
      write data (Some p) s
      = (Raise ZeroDivisionError, snd (write data None s))
      /\ fst (write data None s) = Ok tt
      /\ _perf_counter_ns (snd (write data None s)) = _perf_counter_ns s).
Proof.
  split.
  - intros HF. unfold write, bind, get, lift, modulo.
    rewrite HF. reflexivity.
  - intros HF HR. rewrite !write_eq by assumption. cbv zeta.
    set (kept := frames_of _ _). set (s1 := store _ _).
    assert (HR1 : _framerate s1 = 0).
    { subst s1. destruct (store_fields kept (marked data s)) as (_ & -> & _).
      destruct (marked_fields data s) as (_ & -> & _). exact HR. }
    assert (HA1 : _perf_counter_ns s1 = _perf_counter_ns s).
    { subst s1.
      destruct (store_fields kept (marked data s))
        as (_ & _ & _ & _ & _ & -> & _).
      apply marked_fields. }
    unfold finish. rewrite HR1. cbn [Z.eqb fst snd].
    repeat split. exact HA1.
Qed.

Lemma X5_zero_divisors_witness :
  write (List.map byte_of_Z [1; 2]) None (__init__ 0 2 48000 (Some 4))
  = (Raise ZeroDivisionError, __init__ 0 2 48000 (Some 4))
  /\ fst (write (List.map byte_of_Z [1; 2; 3]) (Some 7) (__init__ 1 2 0 None))
     = Raise ZeroDivisionError
  /\ _buffer (snd (write (List.map byte_of_Z [1; 2; 3]) (Some 7)
                         (__init__ 1 2 0 None)))
     = List.map byte_of_Z [1; 2].
Proof.
  split.
  - destruct (X5_zero_divisors (__init__ 0 2 48000 (Some 4))
                               (List.map byte_of_Z [1; 2]) None 0) as [H _].
    apply H. reflexivity.
  - destruct (X5_zero_divisors (__init__ 1 2 0 None)
                               (List.map byte_of_Z [1; 2; 3]) None 7)
      as [_ H].
    destruct H as (E & _ & _); [reflexivity | reflexivity |].
    rewrite E. split; reflexivity.
Defined.

Lemma len_le_bytes width : forall v, len (le_bytes width v) = Z.of_nat width.
Proof.
  unfold len. induction width as [| w IH]; intros v; [reflexivity |].
  cbn [le_bytes length]. rewrite Nat2Z.inj_succ. specialize (IH (v / 256)). lia.
Qed.

Lemma len_cue_point ff item : len (cue_point ff item) = 24.
Proof.
  unfold cue_point. rewrite !len_app, !len_le_bytes. reflexivity.
Qed.

Lemma len_labl item : len (labl item) = 12 + len (label_text (snd (snd item))).
Proof.
  unfold labl. rewrite !len_app, !len_le_bytes.
  change (len (b "labl")) with 4. lia.
Qed.

Lemma len_pad_even content : len (pad_even content) mod 2 = 0.
Proof.
  unfold pad_even.
  destruct (Z.eqb_spec (len content mod 2) 0) as [E | E]; [exact E |].
  rewrite len_app. change (len [x00]) with 1.
  Z.to_euclidean_division_equations. lia.
Qed.

Lemma len_cue_data ff (items : list (Z * (Z * str))) :
  len (List.concat (List.map (cue_point ff) items)) = 24 * len items.
Proof.
  induction items as [| item items IH]; [reflexivity |].
  cbn [List.map List.concat]. rewrite len_app, len_cue_point, IH.
  unfold len. cbn [length]. lia.
Qed.

Lemma len_label_data (ms : list (Z * str)) : forall ids,
  length ids = length ms ->
  len (List.concat (List.map labl (combine ids ms))) = labels_size ms.
Proof.
  induction ms as [| m ms IH]; intros [| id ids] Hlen; try discriminate Hlen.
  - reflexivity.
  - cbn [combine List.map List.concat labels_size fold_right].
    rewrite len_app, len_labl. cbn [snd].
    rewrite IH by (cbn in Hlen; congruence).
    unfold labels_size. lia.
Qed.

Lemma labels_size_even ms : labels_size ms mod 2 = 0.
Proof.
  induction ms as [| m ms IH]; [reflexivity |].
  unfold labels_size in *. cbn [fold_right].
  pose proof (len_pad_even (utf8 (snd m) ++ [x00])) as Hp.
  fold (label_text (snd m)) in Hp.
  Z.to_euclidean_division_equations. lia.
Qed.

Lemma len_cue_chunk ff ms : len (cue_chunk ff ms) = 12 + 24 * len ms.
Proof.
  unfold cue_chunk. cbv zeta.
  rewrite !len_app, !len_le_bytes, len_cue_data, len_numbered.
  change (len (b "cue ")) with 4. lia.
Qed.

Lemma len_list_chunk ms : len (list_chunk ms) = 12 + labels_size ms.
Proof.
  unfold list_chunk. cbv zeta.
  rewrite !len_app, !len_le_bytes.
  unfold numbered. rewrite len_label_data
    by (rewrite length_map, length_seq; reflexivity).
  change (len (b "LIST")) with 4. change (len (b "adtl")) with 4. lia.
Qed.

Lemma getwavecuedata_ok s out :
  fst (getwavecuedata s) = Ok out ->
  out = cue_chunk (first_retained s) (retained s) ++ list_chunk (retained s).
Proof.
  intros Hout. destruct (getwavecuedata_spec s) as (_ & Hok & Herr).
  destruct (cue_fits (first_retained s) (retained s)).
  - rewrite (Hok eq_refl) in Hout. congruence.
  - destruct (Herr eq_refl) as [e He]. congruence.
Qed.

(** X6: the size of the cue data.  Whenever [getwavecuedata] returns,
    its result is the [cue] chunk of [12 + 24 k] bytes for the [k]
    retained markers, followed by the [LIST] chunk of 12 bytes plus, for
    each marker, 12 bytes and its padded label; and the whole has an
    even length, so appending it keeps the file word-aligned. *)
Theorem X6_cue_data_size s out :
  fst (getwavecuedata s) = Ok out ->
  len out = (12 + 24 * len (retained s)) + (12 + labels_size (retained s))
  /\ len out mod 2 = 0
  /\ ztake 4 out = b "cue "
  /\ ztake 4 (zdrop (12 + 24 * len (retained s)) out) = b "LIST".
Proof.
  intros Hout. apply getwavecuedata_ok in Hout. subst out.
  set (ff := first_retained s). set (kept := retained s).
  pose proof (len_cue_chunk ff kept) as Hc.
  pose proof (len_list_chunk kept) as Hl.
  pose proof (labels_size_even kept) as He.
  pose proof (len_nonneg kept) as Hk.
  split; [rewrite len_app; lia |].
  split; [rewrite len_app, Hc, Hl; Z.to_euclidean_division_equations; lia |].
  split.
  - rewrite ztake_app_l by lia. reflexivity.
  - rewrite zdrop_app_r by lia.
    rewrite Hc, Z.sub_diag. reflexivity.
Qed.

Lemma X6_cue_data_size_witness :
  let out := cue_chunk 3 [(3, lit "bc")] ++ list_chunk [(3, lit "bc")] in
  fst (getwavecuedata two_markers) = Ok out
  /\ len out = (12 + 24 * 1) + (12 + (12 + 4 + 0))
  /\ len out mod 2 = 0.
Proof.
  intros out.
  assert (H : fst (getwavecuedata two_markers) = Ok out) by reflexivity.
  split; [exact H |].
  destruct (X6_cue_data_size two_markers out H) as (H1 & H2 & _).
  split; [exact H1 | exact H2].
Defined.

Lemma In_numbered {A} (l : list A) x : forall ids : list Z,
  length ids = length l -> In x l -> exists id, In (id, x) (combine ids l).
Proof.
  induction l as [| y l IH]; intros [| id ids] Hlen Hin;
    try discriminate Hlen; try contradiction.
  destruct Hin as [-> | Hin].
  - exists id. left. reflexivity.
  - destruct (IH ids) as [id' H]; [cbn in Hlen; congruence | exact Hin |].
    exists id'. right. exact H.
Qed.

(** X7: a marker that does not fit.  If a marker that pruning keeps has
    a position that is negative or at least [2^32], [getwavecuedata]
    raises and returns no cue data; the markers have been pruned all the
    same. *)
Theorem X7_unrepresentable_marker s m :
  In m (retained s) ->
  fst m < 0 \/ 2 ^ 32 <= fst m ->
  exists e, getwavecuedata s = (Raise e, pruned s).
Proof.
  intros Hin Hbad.
  destruct (getwavecuedata_spec s) as (Hst & _ & Herr).
  assert (Hfits : cue_fits (first_retained s) (retained s) = false).
  { unfold cue_fits.
    destruct (forallb (marker_fits (first_retained s)) (numbered (retained s)))
      eqn:Hall; [| reflexivity].
    exfalso.
    destruct (In_numbered (retained s) m
                (List.map Z.of_nat (seq 1 (length (retained s)))))
      as [id Hid]; [rewrite length_map, length_seq; reflexivity | exact Hin |].
    rewrite forallb_forall in Hall. specialize (Hall _ Hid).
    unfold marker_fits, u32 in Hall. cbn [fst snd] in Hall.
    rewrite !andb_true_iff in Hall.
    destruct Hall as [[[[_ [H1 H2]] _] _] _].
    apply Z.leb_le in H1. apply Z.ltb_lt in H2. lia. }
  destruct (Herr Hfits) as [e He]. exists e.
  destruct (getwavecuedata s) as [r s1]. cbn [fst snd] in *. congruence.
Qed.

Lemma X7_unrepresentable_marker_witness :
  let s := snd (addmarker_at_time 999979166 (lit "kb:a")
             (snd (write (List.map byte_of_Z [1; 2; 3; 4]) (Some 1000000000)
                         (__init__ 1 2 48000 (Some 2880000))))) in
  _markers s = [(-1, lit "kb:a")]
  /\ exists e, getwavecuedata s = (Raise e, pruned s).
Proof.
  intros s. split; [reflexivity |].
  apply (X7_unrepresentable_marker s (-1, lit "kb:a"));
    [left; reflexivity | left; reflexivity].
Defined.

Lemma read_file_set file content env :
  read_file file (files (set_file file content env)) = Some content.
Proof.
  unfold set_file. cbn [files read_file].
  destruct (decide (file = file)); [reflexivity | contradiction].
Qed.

Lemma read_file_other file other content env :
  other <> file ->
  read_file other (files (set_file file content env))
  = read_file other (files env).
Proof.
  intros Hne. unfold set_file. cbn [files read_file].
  destruct (decide (file = other)); [congruence | reflexivity].
Qed.

(** [savetofile] up to the call of [getwavecuedata]: the file has been
    truncated and holds what the [wave] module left. *)
Lemma savetofile_eq file s env frames closed written :
  writable env file = true ->
  fst (getbytes s) = Ok frames ->
  wave_module env (_nchannels s) (_sampwidth s) (_framerate s) frames
  = (closed, written) ->
  let env1 := set_file file written (set_file file [] env) in
  savetofile file (s, env)
  = match closed with
    | Raise e => (Raise e, (s, env1))
    | Ok _ =>
        match fst (getwavecuedata s) with
        | Raise e => (Raise e, (pruned s, env1))
        | Ok cuedata =>
            let content := written ++ cuedata in
            let env2 := set_file file content env1 in
            match pack [I (len content - 8)] with
            | Raise e => (Raise e, (pruned s, env2))
            | Ok patch =>
                (Ok tt,
                 (pruned s,
                  set_file file (slice_assign content (Some 4) (Some 8) patch)
                           env2))
            end
        end
    end.
Proof.
  intros Hw Hget Hwave. cbv zeta.
  rewrite getbytes_eq in Hget. cbn [fst] in Hget.
  unfold savetofile, bind, on_os, on_storage, get, modify, raise, lift.
  cbn [fst snd]. rewrite Hw. cbn [negb fst snd].
  rewrite getbytes_eq. cbn [fst snd].
  injection Hget as Hget. rewrite Hget.
  cbn [writable wave_module set_file].
  rewrite Hwave. cbn [fst snd].
  destruct closed as [[] | e]; [| reflexivity].
  destruct (getwavecuedata_spec s) as [Hst _].
  destruct (getwavecuedata s) as [[cuedata | e] s1]; cbn [fst snd] in *;
    subst s1; [| reflexivity].
  destruct (pack [I (len (written ++ cuedata) - 8)]); reflexivity.
Qed.

(** X8: the saved file.  When the path can be opened, the [wave] module
    closes without an error having left [written] (at least 8 bytes),
    the cue data can be built and the file size fits the 32-bit field,
    [savetofile] succeeds and the file holds [written] followed by the
    cue data, with exactly bytes 4 to 8 replaced by the little-endian
    file size minus 8; no other file and no log line is touched, and the
    storage is left pruned. *)
Theorem X8_saved_file s env file frames written cuedata :
  writable env file = true ->
  fst (getbytes s) = Ok frames ->
  wave_module env (_nchannels s) (_sampwidth s) (_framerate s) frames
  = (Ok tt, written) ->
  fst (getwavecuedata s) = Ok cuedata ->
  8 <= len written ->
  len written + len cuedata - 8 < 2 ^ 32 ->
  exists env',
    savetofile file (s, env) = (Ok tt, (pruned s, env'))
    /\ read_file file (files env')
       = Some (ztake 4 written
               ++ le_bytes 4 (len written + len cuedata - 8)
               ++ zdrop 8 written ++ cuedata)
    /\ (forall other, other <> file ->
        read_file other (files env') = read_file other (files env))
    /\ log env' = log env.
Proof.
  intros Hw Hget Hwave Hcue Hlen Hfit.
  rewrite (savetofile_eq file s env frames (Ok tt) written Hw Hget Hwave).
  cbv zeta. rewrite Hcue.
  pose proof (len_nonneg cuedata) as Hc.
  rewrite pack_spec. cbn [forallb field_fits andb].
  rewrite len_app. unfold u32.
  destruct (Z.leb_spec 0 (len written + len cuedata - 8)); [| lia].
  destruct (Z.ltb_spec (len written + len cuedata - 8) (2 ^ 32)); [| lia].
  cbn [andb List.map field_bytes List.concat]. rewrite app_nil_r.
  eexists. split; [reflexivity |].
  split; [| split].
  - rewrite read_file_set. f_equal.
    rewrite slice_assign_between by (rewrite ?len_app; lia).
    rewrite ztake_app_l by lia. rewrite zdrop_app_l by lia.
    reflexivity.
  - intros other Hne. rewrite !read_file_other by assumption. reflexivity.
  - reflexivity.
Qed.

Lemma X8_saved_file_witness :
  let written := snd (SysAudioForms.canonical_wave 1 1 48000
                        (List.map byte_of_Z [4; 5; 6; 7])) in
  let cuedata := cue_chunk 3 [(3, lit "bc")] ++ list_chunk [(3, lit "bc")] in
  exists env',
    savetofile (lit "a.wav") (two_markers, SysAudioForms.plain_os)
    = (Ok tt, (pruned two_markers, env'))
    /\ read_file (lit "a.wav") (files env')
       = Some (b "RIFF" ++ le_bytes 4 (48 + 64 - 8)
               ++ zdrop 8 written ++ cuedata).
Proof.
  intros written cuedata.
  destruct (X8_saved_file two_markers SysAudioForms.plain_os (lit "a.wav")
              (List.map byte_of_Z [4; 5; 6; 7]) written cuedata)
    as (env' & H1 & H2 & _);
    [reflexivity | reflexivity | reflexivity | reflexivity
    | discriminate | reflexivity |].
  exists env'. split; [exact H1 | exact H2].
Defined.

(** X9: what a failed save leaves behind.  Once the path has been
    opened, the file is truncated and rewritten, and an error after that
    leaves it incomplete: if the [wave] module raises, the file holds
    what that module left and the storage is unchanged; if the cue data
    cannot be built, the file holds the [wave] module's output without
    any cue data; if the file size does not fit the 32-bit field, the
    file holds the cue data too but its size field is not patched.  In
    the last two cases the markers have been pruned. *)
Theorem X9_failed_save s env file frames closed written :
  writable env file = true ->
  fst (getbytes s) = Ok frames ->
  wave_module env (_nchannels s) (_sampwidth s) (_framerate s) frames
  = (closed, written) ->
  (forall e, closed = Raise e ->
   exists env',
     savetofile file (s, env) = (Raise e, (s, env'))
     /\ read_file file (files env') = Some written)
  /\ (forall e, closed = Ok tt -> fst (getwavecuedata s) = Raise e ->
      exists env',
        savetofile file (s, env) = (Raise e, (pruned s, env'))
        /\ read_file file (files env') = Some written)
  /\ (forall cuedata, closed = Ok tt -> fst (getwavecuedata s) = Ok cuedata ->
      2 ^ 32 <= len written + len cuedata - 8 ->
      exists env',
        savetofile file (s, env) = (Raise StructError, (pruned s, env'))
        /\ read_file file (files env') = Some (written ++ cuedata)).
Proof.
  intros Hw Hget Hwave.
  rewrite (savetofile_eq file s env frames closed written Hw Hget Hwave).
  cbv zeta. split; [| split].
  - intros e ->. eexists. split; [reflexivity | apply read_file_set].
  - intros e -> ->. eexists. split; [reflexivity | apply read_file_set].
  - intros cuedata -> -> Hbig.
    rewrite pack_spec. cbn [forallb field_fits andb].
    rewrite len_app. unfold u32.
    destruct (Z.ltb_spec (len written + len cuedata - 8) (2 ^ 32)); [lia |].
    rewrite andb_false_r. cbn [andb].
    eexists. split; [reflexivity | apply read_file_set].
Qed.

Lemma X9_failed_save_witness :
  let s := snd (addmarker_at_time 999979166 (lit "kb:a")
             (snd (write (List.map byte_of_Z [1; 2; 3; 4]) (Some 1000000000)
                         (__init__ 1 2 48000 (Some 2880000))))) in
  let written := snd (SysAudioForms.canonical_wave 1 2 48000
                        (List.map byte_of_Z [1; 2; 3; 4])) in
  exists env',
    savetofile (lit "a.wav") (s, SysAudioForms.plain_os)
    = (Raise StructError, (pruned s, env'))
    /\ read_file (lit "a.wav") (files env') = Some written.
Proof.
  intros s written.
  destruct (X9_failed_save s SysAudioForms.plain_os (lit "a.wav")
              (List.map byte_of_Z [1; 2; 3; 4]) (Ok tt) written)
    as (_ & H & _); [reflexivity | reflexivity | reflexivity |].
  apply (H StructError); reflexivity.
Defined.

(** X10: the sample offset of a cue point addresses the retained audio.
    For a storage that holds the stream [input], a position [p] at or
    after the first retained frame is, counted from that frame, the
    place in the bytes of [getbytes] where the stream continues from
    frame [p]: the offset written to the cue point leads to the same
    audio in the saved data as the position does in the whole stream. *)
Theorem X10_offset_in_retained_audio s input p :
  holds s input ->
  first_retained s <= p ->
  exists out,
    fst (getbytes s) = Ok out
    /\ zdrop ((p - first_retained s) * _framesize s) out
       = zdrop (p * _framesize s) input.
Proof.
  intros (Hring & HF & Hn & Hcap) Hp.
  rewrite (getbytes_ring _ _ Hring). cbn [fst].
  eexists. split; [reflexivity |].
  pose proof (ring_capacity_nonneg s) as HM.
  unfold first_retained in *.
  destruct (_maxframes s) as [C |], (_maxsize s) as [M |];
    try contradiction.
  - subst M. specialize (HM _ _ Hring eq_refl).
    destruct (Z.le_gt_cases C (_nsampleswritten s)) as [Hfull | Hgrow].
    + rewrite Z.max_l in * by lia.
      unfold last_bytes. rewrite zdrop_zdrop by nia.
      f_equal. lia.
    + rewrite Z.max_r in * by lia.
      rewrite last_bytes_all by nia. rewrite Z.sub_0_r. reflexivity.
  - rewrite Z.sub_0_r. reflexivity.
Qed.

Lemma X10_offset_in_retained_audio_witness :
  let input := List.map byte_of_Z [1; 2; 3; 4; 5; 6] in
  holds full_ring_at_2 input
  /\ exists out,
       fst (getbytes full_ring_at_2) = Ok out
       /\ zdrop ((5 - 2) * 1) out = zdrop (5 * 1) input.
Proof.
  intros input.
  assert (H : holds full_ring_at_2 input).
  { unfold holds, ring. cbn.
    split; [right; left; repeat split; discriminate |].
    repeat split. }
  split; [exact H |].
  apply (X10_offset_in_retained_audio full_ring_at_2 input 5 H).
  discriminate.
Defined.

Lemma write_anchor data start s :
  0 < _framesize s -> _framerate s <> 0 ->
  _perf_counter_ns (snd (write data (Some start) s))
  = Some (start + len data / _framesize s * NS_PER_SEC / _framerate s).
Proof.
  intros HF HR. rewrite write_eq by assumption. cbv zeta.
  set (kept := frames_of _ _). set (s1 := store _ _).
  assert (HR1 : _framerate s1 = _framerate s).
  { subst s1. destruct (store_fields kept (marked data s)) as (_ & -> & _).
    apply marked_fields. }
  assert (HF1 : _framesize s1 = _framesize s).
  { subst s1. destruct (store_fields kept (marked data s)) as (-> & _).
    apply marked_fields. }
  unfold finish. rewrite HR1, HF1.
  destruct (Z.eqb_spec (_framerate s) 0); [contradiction |].
  cbn [snd set_perf_counter_ns _perf_counter_ns].
  subst kept. rewrite len_frames_of by assumption.
  rewrite (Z.mul_comm (_framesize s)), Z.div_mul by lia. reflexivity.
Qed.

Lemma write_zero_framesize data ts s :
  _framesize s = 0 -> write data ts s = (Raise ZeroDivisionError, s).
Proof.
  intros HF. unfold write, bind, get, lift, modulo. rewrite HF. reflexivity.
Qed.

(** No [write] changes the frame size or the frame rate. *)
Lemma write_geometry data ts s :
  _framesize (snd (write data ts s)) = _framesize s
  /\ _framerate (snd (write data ts s)) = _framerate s.
Proof.
  destruct (Z.eq_dec (_framesize s) 0) as [E0 | NE].
  - rewrite write_zero_framesize by assumption. split; reflexivity.
  - destruct (Z.eq_dec (len data mod _framesize s) 0) as [Hal | Hal].
    + rewrite write_aligned by assumption.
      destruct (finish_fields (len data) ts (store data s)) as (-> & -> & _).
      destruct (store_fields data s) as (-> & -> & _). split; reflexivity.
    + rewrite write_misaligned by assumption. cbv zeta.
      set (kept := slice _ _ _). set (s1 := snd (addmarker MISALIGNED s)).
      destruct (finish_fields (len kept) ts (store kept s1)) as (-> & -> & _).
      destruct (store_fields kept s1) as (-> & -> & _).
      subst s1. rewrite addmarker_eq. cbn [snd].
      destruct (pruned_fields
                  (set_markers (_markers s ++ [(_nsampleswritten s, MISALIGNED)])
                               s)) as (-> & -> & _).
      split; reflexivity.
Qed.

Lemma addmarker_at_time_geometry timestamp text s :
  _framesize (snd (addmarker_at_time timestamp text s)) = _framesize s
  /\ _framerate (snd (addmarker_at_time timestamp text s)) = _framerate s.
Proof.
  rewrite addmarker_at_time_eq. cbn [snd].
  set (ms := _markers s ++ _).
  destruct (pruned_fields (set_markers ms s)) as (-> & -> & _).
  split; reflexivity.
Qed.

Lemma floor_back k r :
  0 < r <= NS_PER_SEC -> - (k * NS_PER_SEC / r) * r / NS_PER_SEC = - k.
Proof.
  intros Hr. symmetry.
  pose proof (Z.div_mod (k * NS_PER_SEC) r) as Hdm.
  pose proof (Z.mod_pos_bound (k * NS_PER_SEC) r) as Hm.
  apply (Z.div_unique _ _ _ ((k * NS_PER_SEC) mod r)); lia.
Qed.

Lemma marker_at_write_start s data start text :
  let s' := snd (write data (Some start) s) in
  0 < _framesize s -> 0 < _framerate s <= NS_PER_SEC ->
  addmarker_at_time start text s'
  = (Ok tt,
     pruned (set_markers (_markers s' ++ [(_nsampleswritten s, text)]) s')).
Proof.
  intros s' HF HR.
  destruct (write_fields data (Some start) s HF)
    as (_ & HR' & _ & _ & HN' & _).
  fold s' in HR', HN'.
  pose proof (write_anchor data start s HF ltac:(lia)) as HA'.
  fold s' in HA'.
  rewrite addmarker_at_time_eq, HA', HR', HN'.
  replace (start - (start + len data / _framesize s * NS_PER_SEC
                            / _framerate s))
    with (- (len data / _framesize s * NS_PER_SEC / _framerate s)) by lia.
  rewrite floor_back by assumption.
  replace (_nsampleswritten s + len data / _framesize s
           + - (len data / _framesize s))
    with (_nsampleswritten s) by lia.
  reflexivity.
Qed.

(** X11: time stamps map back to frames.  After a [write] stamped with
    the time [start] of its first frame (frame rate positive and at most
    one frame per nanosecond), a marker stamped [start] lands exactly on
    the frame at which that write began, and a marker stamped with the
    new anchor lands on the write position; and, for a non-negative
    frame rate, a later stamp never gives an earlier position. *)
Theorem X11_stamps_to_frames s data start text :
  let s' := snd (write data (Some start) s) in
  (0 < _framesize s -> 0 < _framerate s <= NS_PER_SEC ->
   addmarker_at_time start text s'
   = (Ok tt,
      pruned (set_markers (_markers s' ++ [(_nsampleswritten s, text)]) s'))
   /\ (forall anchor, _perf_counter_ns s' = Some anchor ->
       addmarker_at_time anchor text s'
       = (Ok tt,
          pruned (set_markers (_markers s' ++ [(_nsampleswritten s', text)])
                              s'))))
  /\ (forall anchor t1 t2, _perf_counter_ns s = Some anchor ->
      0 <= _framerate s -> t1 <= t2 ->
      _nsampleswritten s + (t1 - anchor) * _framerate s / NS_PER_SEC
      <= _nsampleswritten s + (t2 - anchor) * _framerate s / NS_PER_SEC).
Proof.
  intros s'. split.
  - intros HF HR. split.
    + apply marker_at_write_start; assumption.
    + intros anchor EA. rewrite addmarker_at_time_eq, EA.
      rewrite Z.sub_diag, Z.mul_0_l.
      change (0 / NS_PER_SEC) with 0. rewrite Z.add_0_r. reflexivity.
  - intros anchor t1 t2 _ HR Ht.
    apply Z.add_le_mono_l. apply Z.div_le_mono; [reflexivity |].
    apply Z.mul_le_mono_nonneg_r; lia.
Qed.

Lemma X11_stamps_to_frames_witness :
  let s := snd (write (List.map byte_of_Z [1; 2; 3; 4]) (Some 5000)
                      (__init__ 1 2 44100 (Some 96000))) in
  let s' := snd (write (List.map byte_of_Z [5; 6; 7; 8; 9; 10]) (Some 60000) s) in
  _markers (snd (addmarker_at_time 60000 (lit "kb:a") s')) = [(2, lit "kb:a")].
Proof.
  intros s s'.
  destruct (X11_stamps_to_frames s (List.map byte_of_Z [5; 6; 7; 8; 9; 10])
              60000 (lit "kb:a")) as [H _].
  destruct H as [H _]; [reflexivity | split; [reflexivity | discriminate] |].
  fold s' in H. rewrite H. reflexivity.
Defined.

Lemma addmarker_markers text s :
  match _maxframes s with Some C => 0 <= C | None => True end ->
  _markers (snd (addmarker text s))
  = retained s ++ [(_nsampleswritten s, text)].
Proof.
  intros HC. rewrite addmarker_eq. cbn [snd]. rewrite pruned_markers.
  unfold retained. cbn [set_markers _maxframes _nsampleswritten _markers].
  destruct (_maxframes s) as [C |]; [| reflexivity].
  rewrite List.filter_app. cbn [List.filter fst].
  destruct (Z.leb_spec (_nsampleswritten s - C) (_nsampleswritten s));
    [reflexivity | lia].
Qed.

End WaveStorageFacts.

(** * The stream tracker *)

Module NvdaAudioFacts.
Import NvdaAudio NvdaAudioForms.

(** ** Sub-blocks *)


Lemma chunk_concat count maxblocksize : forall d,
  0 < maxblocksize -> len d <= Z.of_nat count * maxblocksize ->
  List.concat (chunk count maxblocksize d) = d.
Proof.
  induction count as [| c IH]; intros d Hmb Hlen.
  - cbn. symmetry. apply len_zero_nil. pose proof (len_nonneg d). lia.
  - cbn [chunk List.concat]. rewrite IH.
    + apply ztake_zdrop.
    + exact Hmb.
    + rewrite len_zdrop_gen. pose proof (len_nonneg d). lia.
Qed.

Lemma slice_block (d : bytes) i maxblocksize :
  0 <= i -> 0 < maxblocksize ->
  slice d (Some i) (Some (i + maxblocksize))
  = ztake maxblocksize (zdrop i d).
Proof.
  intros Hi Hmb. pose proof (len_nonneg d) as Hd.
  unfold slice, lower, upper, adjust, ztake, zdrop.
  destruct (Z.ltb_spec i 0); [lia |].
  destruct (Z.ltb_spec (i + maxblocksize) 0); [lia |].
  destruct (Z.le_gt_cases i (len d)) as [Hin | Hout].
  - rewrite (Z.min_l i) by lia.
    destruct (Z.le_gt_cases (i + maxblocksize) (len d)).
    + rewrite Z.min_l by lia. f_equal. lia.
    + rewrite Z.min_r by lia.
      rewrite !firstn_all2; [reflexivity | |];
        rewrite length_skipn; unfold len in *; lia.
  - rewrite !Z.min_r by lia. rewrite Z.sub_diag.
    rewrite skipn_all2 by (unfold len in *; lia).
    rewrite (skipn_all2 (n := Z.to_nat i)) by (unfold len in *; lia).
    rewrite !firstn_nil. reflexivity.
Qed.

Lemma blocks_from count maxblocksize d : forall k,
  0 < maxblocksize ->
  List.map (fun i => slice d (Some i) (Some (i + maxblocksize)))
           (List.map (fun j => 0 + Z.of_nat j * maxblocksize) (seq k count))
  = chunk count maxblocksize (zdrop (Z.of_nat k * maxblocksize) d).
Proof.
  induction count as [| c IH]; intros k Hmb; [reflexivity |].
  cbn [seq List.map chunk]. f_equal.
  - rewrite Z.add_0_l. apply slice_block; nia.
  - rewrite IH by exact Hmb. f_equal.
    rewrite zdrop_zdrop by nia. f_equal. lia.
Qed.

Lemma range_blocks (d : bytes) size maxblocksize :
  0 < maxblocksize ->
  exists starts,
    range 0 size maxblocksize = Ok starts /\
    List.map (fun i => slice d (Some i) (Some (i + maxblocksize))) starts
    = sub_blocks maxblocksize size d.
Proof.
  intros Hmb. unfold range.
  destruct (Z.eqb_spec maxblocksize 0); [lia |].
  destruct (Z.ltb_spec 0 maxblocksize); [| lia].
  eexists. split; [reflexivity |].
  rewrite Z.sub_0_r. rewrite (blocks_from _ _ d 0 Hmb).
  unfold sub_blocks. reflexivity.
Qed.

(** ** The byte view *)

Lemma from_address_eq address size g :
  exists a, from_address address size g = (Ok a, g) /\ len a = Z.max 0 size.
Proof.
  unfold from_address, bind, get, ret. eexists. split; [reflexivity |].
  unfold len. rewrite length_map, length_seq. lia.
Qed.

Lemma array_type_ok itemsize n length :
  array_type itemsize n = Ok length -> length = n /\ 0 <= n < 2 ^ 63.
Proof.
  unfold array_type.
  destruct (Z.ltb_spec n (- 2 ^ 63)), (Z.leb_spec (2 ^ 63) n); cbn [orb];
    try discriminate.
  destruct (Z.ltb_spec n 0); [discriminate |].
  destruct (_ <? n); [discriminate |].
  intros E. injection E as <-. lia.
Qed.

Lemma array_type_fits itemsize n :
  0 <= n -> n <= (2 ^ 63 - 1) / itemsize -> n < 2 ^ 63 ->
  array_type itemsize n = Ok n.
Proof.
  intros Hn Hfit Hmax. unfold array_type.
  destruct (Z.ltb_spec n (- 2 ^ 63)); [lia |].
  destruct (Z.leb_spec (2 ^ 63) n); [lia |]. cbn [orb].
  destruct (Z.ltb_spec n 0); [lia |].
  destruct (Z.ltb_spec ((2 ^ 63 - 1) / itemsize) n); [lia | reflexivity].
Qed.

Lemma array_type_bytes n :
  0 <= n < 2 ^ 63 -> array_type 1 n = Ok n.
Proof.
  intros Hn. unfold array_type.
  destruct (Z.ltb_spec n (- 2 ^ 63)); [lia |].
  destruct (Z.leb_spec (2 ^ 63) n); [lia |]. cbn [orb].
  destruct (Z.ltb_spec n 0); [lia |].
  rewrite Z.div_1_r.
  destruct (Z.ltb_spec (2 ^ 63 - 1) n); [lia | reflexivity].
Qed.

Lemma byte_view_state data size g : snd (byte_view data size g) = g.
Proof.
  unfold byte_view.
  destruct size as [n |].
  - unfold bind at 1. unfold lift.
    destruct (array_type 1 n) as [length | e]; [| reflexivity].
    destruct data as [| value raw | address | buf]; unfold bind, ret, raise;
      cbn [fst snd]; try reflexivity.
    + destruct (value =? 0); [reflexivity |].
      destruct (from_address_eq value length g) as (a & -> & _). reflexivity.
    + destruct (address =? 0); [reflexivity |].
      destruct (from_address_eq address length g) as (a & -> & _). reflexivity.
  - destruct data; reflexivity.
Qed.

Lemma len_slice_to {A} (l : list A) n :
  0 <= n -> len (slice l None (Some n)) <= n.
Proof.
  intros Hn. unfold slice, lower, upper, adjust.
  destruct (Z.ltb_spec n 0); [lia |].
  unfold len. rewrite length_firstn. lia.
Qed.

(** The view is never longer than the size the loop runs over. *)
Lemma byte_view_len data size g d :
  fst (byte_view data size g) = Ok (Some d) ->
  len d <= match size with Some n => n | None => len d end.
Proof.
  destruct size as [n |]; [| lia].
  unfold byte_view. unfold bind at 1. unfold lift.
  destruct (array_type 1 n) as [length | e] eqn:Harr; [| discriminate].
  apply array_type_ok in Harr. destruct Harr as [-> Hn].
  destruct data as [| value raw | address | buf]; unfold bind, ret, raise;
    cbn [fst snd].
  - discriminate.
  - destruct (value =? 0); [discriminate |].
    destruct (from_address_eq value n g) as (a & -> & _).
    intros Hd. cbn in Hd. injection Hd as <-. apply len_slice_to. lia.
  - destruct (address =? 0); [discriminate |].
    destruct (from_address_eq address n g) as (a & -> & _).
    intros Hd. cbn in Hd. injection Hd as <-. apply len_slice_to. lia.
  - intros Hd. cbn in Hd. injection Hd as <-. apply len_slice_to. lia.
Qed.

Lemma write_untimed_ok block s :
  0 < WaveStorage._framesize s ->
  WaveStorage.write block None s
  = (Ok tt, snd (WaveStorage.write block None s)).
Proof.
  intros HF. rewrite WaveStorageFacts.write_eq by assumption. reflexivity.
Qed.

Lemma append_block_ok h block g :
  tracked h g ->
  on_waveStorage h (WaveStorage.write block None) g
  = (Ok tt, append_block h block g)
  /\ tracked h (append_block h block g)
  /\ calls (append_block h block g) = calls g.
Proof.
  intros (info & Hinfo & HF).
  unfold append_block, on_waveStorage. rewrite Hinfo.
  rewrite (write_untimed_ok block _ HF). cbn [fst snd].
  split; [reflexivity |]. split; [| reflexivity].
  eexists. cbn [_players set_players]. split.
  - apply lookup_insert_eq.
  - cbn [waveStorage].
    destruct (WaveStorageFacts.write_fields block None _ HF) as (HF' & _).
    rewrite HF'. exact HF.
Qed.

Lemma refresh_ok h g :
  tracked h g ->
  (let* now := time_perf_counter in set_lastActive h now) g
  = (Ok tt, refresh h g)
  /\ tracked h (refresh h g)
  /\ calls (refresh h g) = calls g.
Proof.
  intros (info & Hinfo & HF).
  unfold refresh, bind, time_perf_counter, set_lastActive, modify.
  cbn [fst snd _players]. rewrite Hinfo.
  split; [reflexivity |]. split; [| reflexivity].
  eexists. cbn [_players set_players]. split.
  - apply lookup_insert_eq.
  - exact HF.
Qed.

Lemma emit_tracked h e g : tracked h g -> tracked h (emit e g).
Proof. exact id. Qed.

Lemma loop_body_step self onDone block g :
  tracked (handle self) g ->
  loop_body self onDone block g = (Ok tt, block_step self onDone g block)
  /\ tracked (handle self) (block_step self onDone g block)
  /\ calls (block_step self onDone g block)
     = calls g ++ block_calls self onDone block.
Proof.
  intros Hg.
  unfold loop_body, block_step, with_lock, _original_feed.
  unfold bind at 1. unfold modify at 1. cbv zeta.
  set (forwarded :=
         emit (original_feed self (data_Buffer block) (Some (len block)) onDone)
              g).
  set (locked := emit (lock_acquire (handle self)) forwarded).
  assert (Hlocked : tracked (handle self) locked)
    by (apply emit_tracked, emit_tracked, Hg).
  destruct (append_block_ok (handle self) block locked Hlocked)
    as (Happend & Htr1 & Hc1).
  destruct (refresh_ok (handle self) _ Htr1) as (Hrefresh & Htr2 & Hc2).
  unfold bind at 1. rewrite Happend, Hrefresh.
  split; [reflexivity |]. split.
  - apply emit_tracked. exact Htr2.
  - cbn [calls emit]. rewrite Hc2, Hc1. subst locked forwarded.
    cbn [calls emit]. rewrite <- !app_assoc. reflexivity.
Qed.

Lemma loop_blocks self onDone blocks : forall g,
  tracked (handle self) g ->
  for_each blocks (loop_body self onDone) g
  = (Ok tt, fold_left (block_step self onDone) blocks g)
  /\ tracked (handle self) (fold_left (block_step self onDone) blocks g)
  /\ calls (fold_left (block_step self onDone) blocks g)
     = calls g ++ flat_map (block_calls self onDone) blocks.
Proof.
  induction blocks as [| block blocks IH]; intros g Hg.
  - cbn. rewrite app_nil_r. auto.
  - destruct (loop_body_step self onDone block g Hg) as (Hstep & Htr & Hcalls).
    destruct (IH _ Htr) as (Hrest & Htr' & Hcalls').
    cbn [for_each fold_left flat_map]. unfold bind.
    rewrite Hstep, Hrest. split; [reflexivity |]. split; [exact Htr' |].
    rewrite Hcalls', Hcalls, <- app_assoc. reflexivity.
Qed.

Lemma for_each_map {S A B} (f : A -> B) (body : B -> M S unit) l :
  for_each l (fun x => body (f x)) = for_each (List.map f l) body.
Proof.
  induction l as [| x l IH]; [reflexivity |].
  cbn [for_each List.map]. rewrite IH. reflexivity.
Qed.


Lemma entry_for_eq self g :
  (match _players g !! handle self with
   | Some _ => ret tt
   | None =>
       let* player := new_PlayerInfo self in
       modify (fun g => set_players (<[handle self := player]> (_players g)) g)
   end) g = (Ok tt, entry_for self g)
  /\ calls (entry_for self g) = calls g.
Proof.
  unfold entry_for. destruct (_players g !! handle self); [split; reflexivity |].
  unfold new_PlayerInfo, bind, get, modify, time_perf_counter, ret.
  cbn [fst snd]. split; reflexivity.
Qed.






(** ** The sweep *)

(** With a clock that does not run backwards the test of the sweep,
    [lastActivePerfCounter - now > _max_duration_sec], is never true. *)
Lemma sweep_test_false (last now : Q) (limit : Z) :
  (last <= now)%Q -> 0 <= limit -> gt (last - now) (inject_Z limit) = false.
Proof.
  intros Hle Hlimit. unfold gt. apply negb_false_iff, Qle_bool_iff.
  assert (Hl : (0 <= inject_Z limit)%Q).
  { change 0%Q with (inject_Z 0). rewrite <- Zle_Qle. exact Hlimit. }
  lra.
Qed.

(** So the sweep removes no entry that was last active at or before the
    reading it takes. *)
Lemma sweep_removes_nothing g :
  0 <= _max_duration_sec g ->
  (forall h info, _players g !! h = Some info ->
     (lastActivePerfCounter info <= perf_counter g (clock_reads g))%Q) ->
  _players (snd (sweep g)) = _players g.
Proof.
  intros Hlimit Hpast.
  unfold sweep, bind, time_perf_counter, get. cbn [fst snd].
  set (g1 := mk _ _ _ _ _ _ _).
  change (_players g) with (_players g1).
  assert (Hall : Forall (fun kv : positive * _PlayerInfo =>
                   (lastActivePerfCounter (snd kv)
                    <= perf_counter g (clock_reads g))%Q)
                 (map_to_list (_players g1))).
  { apply List.Forall_forall. intros [h info] Hin.
    apply (Hpast h info). apply elem_of_map_to_list.
    apply list_elem_of_In. exact Hin. }
  change (_max_duration_sec g1) with (_max_duration_sec g).
  revert Hall. generalize (map_to_list (_players g1)). intros l.
  generalize g1. clear g1.
  induction l as [| kv l IH]; intros g1 Hall; [reflexivity |].
  inversion Hall as [| ? ? Hkv Hl]; subst.
  cbn [for_each]. unfold bind.
  rewrite (sweep_test_false _ _ _ Hkv Hlimit). cbn [ret].
  apply IH. exact Hl.
Qed.

(** C1 fails on the code: stream A was last active at 3000 s; the feed
    from stream B sweeps at 8000 s with a retention of 80 s, and the
    entry of A is still tracked, unchanged. *)
Theorem C1_idle_entry_survives :
  exists info,
    _players after_A !! handle stream_A = Some info
    /\ lastActivePerfCounter info = inject_Z 3000
    /\ perf_counter after_B (clock_reads after_B - 1) = inject_Z 8000
    /\ (inject_Z (_max_duration_sec after_B)
        < inject_Z 8000 - lastActivePerfCounter info)%Q
    /\ _players after_B !! handle stream_A = Some info.
Proof.
  eexists. split; [vm_compute; reflexivity |].
  split; [reflexivity |]. split; [reflexivity |].
  split; [reflexivity | vm_compute; reflexivity].
Qed.

(** * Further properties of the stream tracker *)

(** The patched [feed], case by case. *)
Lemma player_feed_cases self data size onDone g :
  _player_feed self data size onDone g
  = match _purpose self with
    | SOUNDS => (Ok tt, emit (original_feed self data size onDone) g)
    | SPEECH =>
        match fst (byte_view data size g) with
        | Raise e => (Raise e, g)
        | Ok None => (Ok tt, emit (original_feed self data size onDone) g)
        | Ok (Some []) => (Ok tt, emit (original_feed self data size onDone) g)
        | Ok (Some d) =>
            let maxblocksize :=
              channels self * bitsPerSample self / 8 * samplesPerSec self / 5 in
            match range 0 (match size with Some n => n | None => len d end)
                        maxblocksize with
            | Raise e => (Raise e, entry_for self g)
            | Ok starts =>
                feed_blocks self onDone d maxblocksize starts (entry_for self g)
            end
        end
    end.
Proof.
  pose proof (byte_view_state data size g) as Hst.
  unfold _player_feed. destruct (_purpose self); [| reflexivity].
  unfold bind at 1.
  destruct (byte_view data size g) as [view g']. cbn [fst snd] in *. subst g'.
  destruct view as [[[| x d'] |] | e]; try reflexivity.
  cbv zeta.
  unfold bind at 1. unfold get at 1. cbv beta iota.
  destruct (entry_for_eq self g) as (Hentry & _).
  unfold bind at 1. rewrite Hentry.
  unfold bind at 1. unfold lift at 1.
  destruct (range 0 _ _) as [starts | e]; reflexivity.
Qed.

(** X12: audio that is not recorded passes through untouched.  For a
    stream whose purpose is not speech, and for a speech stream whose
    data normalises to [None] or to no bytes, the patched [feed] makes
    exactly one call, the original [feed] with the arguments it was
    given: no entry is created or changed, no lock is taken and the
    clock is not read.  The data normalises to [None] when it is [None]
    or a NULL [c_void_p] and the size, if given, is a valid array
    length (from 0 to [2^63 - 1]). *)
Theorem X12_feed_passes_through self data size onDone g :
  (_purpose self = SOUNDS
   \/ fst (byte_view data size g) = Ok None
   \/ fst (byte_view data size g) = Ok (Some []) ->
   _player_feed self data size onDone g
   = (Ok tt, emit (original_feed self data size onDone) g))
  /\ (forall n, size = Some n -> 0 <= n < 2 ^ 63 ->
      data = data_None \/ (exists raw, data = data_void_p 0 raw) ->
      fst (byte_view data size g) = Ok None)
  /\ (size = None -> data = data_None ->
      fst (byte_view data size g) = Ok None).
Proof.
  split; [| split].
  - intros Hcase. rewrite player_feed_cases.
    destruct (_purpose self); [| reflexivity].
    destruct Hcase as [Hp | [-> | ->]]; [discriminate Hp | reflexivity ..].
  - intros n -> Hn Hdata. unfold byte_view, bind, lift.
    rewrite (array_type_bytes n Hn).
    destruct Hdata as [-> | [raw ->]]; reflexivity.
  - intros -> ->. reflexivity.
Qed.

Lemma X12_feed_passes_through_witness :
  _player_feed stream_A (data_void_p 0 [x00; x00; x00; x00]) (Some 16) None
               after_A
  = (Ok tt,
     emit (original_feed stream_A (data_void_p 0 [x00; x00; x00; x00])
                         (Some 16) None) after_A).
Proof.
  destruct (X12_feed_passes_through stream_A
              (data_void_p 0 [x00; x00; x00; x00]) (Some 16) None after_A)
    as (Hpass & Hnone & _).
  apply Hpass. right. left.
  apply (Hnone 16); [reflexivity | split; [discriminate | reflexivity] |].
  right. eexists. reflexivity.
Defined.

(** X13: feeds that are not forwarded as given.  For a speech stream,
    when the size is not a valid array length ([OverflowError] outside
    the range of a [ssize_t], [ValueError] when negative), whatever the
    data, or when the data is a NULL pointer with a valid size, the
    patched [feed] raises before anything else happens, so the original
    [feed] is not called.  A ctypes pointer without a size is taken for
    the eight bytes of the pointer itself.  And when the sub-block size
    [frameSize * sampleRate / 5] is zero, non-empty data raises
    [ValueError] after the entry of the stream has been created but,
    again, without any call of the original [feed]. *)
Theorem X13_feed_not_forwarded self data size onDone g :
  _purpose self = SPEECH ->
  (forall e, fst (byte_view data size g) = Raise e ->
   _player_feed self data size onDone g = (Raise e, g))
  /\ (forall n, size = Some n -> n < - 2 ^ 63 \/ 2 ^ 63 <= n ->
      fst (byte_view data size g) = Raise OverflowError)
  /\ (forall n, size = Some n -> - 2 ^ 63 <= n < 0 ->
      fst (byte_view data size g)
      = Raise (ValueError ("Array length must be >= 0, not "
                           ++ NilZero.string_of_int (Z.to_int n))%string))
  /\ (forall n, size = Some n -> 0 <= n < 2 ^ 63 -> data = data_Pointer 0 ->
      fst (byte_view data size g) = Raise (ValueError "NULL pointer access"))
  /\ (forall address, size = None -> data = data_Pointer address ->
      fst (byte_view data size g) = Ok (Some (le_bytes 8 address)))
  /\ (forall d, fst (byte_view data size g) = Ok (Some d) -> d <> [] ->
      channels self * bitsPerSample self / 8 * samplesPerSec self / 5 = 0 ->
      _player_feed self data size onDone g
      = (Raise (ValueError "range() arg 3 must not be zero"), entry_for self g)
      /\ calls (entry_for self g) = calls g).
Proof.
  intros Hp. split; [| split; [| split; [| split; [| split]]]].
  - intros e He. rewrite player_feed_cases, Hp, He. reflexivity.
  - intros n -> Hn. unfold byte_view, bind, lift, array_type.
    destruct (Z.ltb_spec n (- 2 ^ 63)), (Z.leb_spec (2 ^ 63) n);
      cbn [orb]; try reflexivity.
    lia.
  - intros n -> Hn. unfold byte_view, bind, lift, array_type.
    destruct (Z.ltb_spec n (- 2 ^ 63)); [lia |].
    destruct (Z.leb_spec (2 ^ 63) n); [lia |]. cbn [orb].
    destruct (Z.ltb_spec n 0); [reflexivity | lia].
  - intros n -> Hn ->. unfold byte_view, bind, lift.
    rewrite (array_type_bytes n Hn). reflexivity.
  - intros address -> ->. reflexivity.
  - intros d Hd Hne Hmb. rewrite player_feed_cases, Hp, Hd.
    destruct d as [| x d']; [contradiction |].
    cbv zeta. rewrite Hmb. cbn [range Z.eqb].
    split; [reflexivity | apply entry_for_eq].
Qed.

Lemma X13_feed_not_forwarded_witness :
  _player_feed stream_A data_None (Some (2 ^ 63)) None started
  = (Raise OverflowError, started)
  /\ calls (snd (_player_feed (mk_player 3 1 8 4 SPEECH)
                   (data_Buffer (List.map byte_of_Z [1; 2])) None None started))
     = [].
Proof.
  split.
  - destruct (X13_feed_not_forwarded stream_A data_None (Some (2 ^ 63)) None
                started) as (H & Hover & _); [reflexivity |].
    apply H. apply (Hover (2 ^ 63)); [reflexivity | right; reflexivity].
  - destruct (X13_feed_not_forwarded (mk_player 3 1 8 4 SPEECH)
                (data_Buffer (List.map byte_of_Z [1; 2])) None None started)
      as (_ & _ & _ & _ & _ & H); [reflexivity |].
    destruct (H (List.map byte_of_Z [1; 2])) as [E Hc];
      [reflexivity | discriminate | reflexivity |].
    rewrite E. cbn [snd]. exact Hc.
Defined.

(** ** Entries are never evicted *)

Lemma for_each_inv {S A} (P : S -> Prop) (body : A -> M S unit) xs :
  (forall x s, P s -> P (snd (body x s))) ->
  forall s, P s -> P (snd (for_each xs body s)).
Proof.
  intros Hbody. induction xs as [| x xs IH]; intros s Hs; [exact Hs |].
  cbn [for_each]. unfold bind. specialize (Hbody x s Hs).
  destruct (body x s) as [[[] | e] s1]; cbn [snd] in *.
  - apply IH. exact Hbody.
  - exact Hbody.
Qed.

Lemma continues_refl g : fresh g -> continues g g.
Proof. intros Hf. repeat split; auto. Qed.

Lemma continues_update g0 g g' :
  continues g0 g ->
  perf_counter g' = perf_counter g ->
  _max_duration_sec g' = _max_duration_sec g ->
  (perf_counter g (clock_reads g) <= perf_counter g (clock_reads g'))%Q ->
  (forall h, is_Some (_players g !! h) -> is_Some (_players g' !! h)) ->
  (forall h info', _players g' !! h = Some info' ->
     (lastActivePerfCounter info' <= perf_counter g (clock_reads g'))%Q
     \/ exists info, _players g !! h = Some info
          /\ lastActivePerfCounter info' = lastActivePerfCounter info) ->
  continues g0 g'.
Proof.
  intros (Hpc & Hmax & Hkeep & Hfresh) Epc Emax Hclock Hdom Hlast.
  repeat split.
  - congruence.
  - congruence.
  - intros h Hh. apply Hdom, Hkeep, Hh.
  - intros h info' Hinfo'. rewrite Epc.
    destruct (Hlast h info' Hinfo') as [Hle | (info & Hinfo & Elast)];
      [exact Hle |].
    rewrite Elast. eapply Qle_trans; [apply (Hfresh h info Hinfo) | exact Hclock].
Qed.

Lemma continues_emit g0 e g : continues g0 g -> continues g0 (emit e g).
Proof.
  intros H. apply (continues_update g0 g); try reflexivity; try exact H.
  - apply Qle_refl.
  - auto.
  - intros h info' Hinfo'. right. exists info'. split; [exact Hinfo' | reflexivity].
Qed.

Lemma continues_storage g0 {A} h (c : M WaveStorage.t A) g :
  continues g0 g -> continues g0 (snd (on_waveStorage h c g)).
Proof.
  intros H. unfold on_waveStorage.
  destruct (_players g !! h) as [info |] eqn:Hinfo; [| exact H].
  destruct (c (waveStorage info)) as [r storage]. cbn [snd].
  apply (continues_update g0 g); try reflexivity; try exact H.
  - apply Qle_refl.
  - intros h' Hh'. cbn [_players set_players].
    apply lookup_insert_is_Some. destruct (decide (h = h')); auto.
  - intros h' info' Hinfo'. cbn [_players set_players] in Hinfo'.
    right. apply lookup_insert_Some in Hinfo'.
    destruct Hinfo' as [[<- <-] | [_ Hold]].
    + exists info. split; [exact Hinfo | reflexivity].
    + exists info'. split; [exact Hold | reflexivity].
Qed.

Lemma continues_clock g0 g :
  steady g0 -> continues g0 g ->
  (perf_counter g (clock_reads g) <= perf_counter g (S (clock_reads g)))%Q.
Proof.
  intros [_ Hmono] (Hpc & _). rewrite Hpc. apply Hmono. lia.
Qed.

Lemma continues_tick g0 g :
  steady g0 -> continues g0 g -> continues g0 (snd (time_perf_counter g)).
Proof.
  intros Hs H. unfold time_perf_counter. cbn [snd].
  apply (continues_update g0 g); try reflexivity; try exact H.
  - cbn [clock_reads]. apply (continues_clock g0 g Hs H).
  - auto.
  - intros h info' Hinfo'. right. exists info'. split; [exact Hinfo' | reflexivity].
Qed.

Lemma continues_refresh g0 h g :
  steady g0 -> continues g0 g -> continues g0 (refresh h g).
Proof.
  intros Hs H.
  unfold refresh, bind, time_perf_counter, set_lastActive, modify.
  cbn [fst snd _players].
  pose proof (continues_clock g0 g Hs H) as Hclock.
  destruct (_players g !! h) as [info |] eqn:Hinfo.
  - apply (continues_update g0 g); try reflexivity; try exact H.
    + exact Hclock.
    + intros h' Hh'. cbn [_players set_players].
      apply lookup_insert_is_Some. destruct (decide (h = h')); auto.
    + intros h' info' Hinfo'. cbn [_players set_players] in Hinfo'.
      apply lookup_insert_Some in Hinfo'.
      destruct Hinfo' as [[<- <-] | [_ Hold]].
      * left. exact Hclock.
      * right. exists info'. split; [exact Hold | reflexivity].
  - apply (continues_update g0 g); try reflexivity; try exact H.
    + exact Hclock.
    + auto.
    + intros h' info' Hinfo'. right. exists info'.
      split; [exact Hinfo' | reflexivity].
Qed.

Lemma continues_entry g0 self g :
  steady g0 -> continues g0 g -> continues g0 (entry_for self g).
Proof.
  intros Hs H. unfold entry_for.
  destruct (_players g !! handle self) eqn:Hinfo; [exact H |].
  unfold new_PlayerInfo, bind, get, modify, time_perf_counter, ret.
  cbn [fst snd].
  pose proof (continues_clock g0 g Hs H) as Hclock.
  apply (continues_update g0 g); try reflexivity; try exact H.
  - exact Hclock.
  - intros h' Hh'. cbn [_players set_players].
    apply lookup_insert_is_Some. destruct (decide (handle self = h')); auto.
  - intros h' info' Hinfo'. cbn [_players set_players] in Hinfo'.
    apply lookup_insert_Some in Hinfo'.
    destruct Hinfo' as [[<- <-] | [_ Hold]].
    + left. exact Hclock.
    + right. exists info'. split; [exact Hold | reflexivity].
Qed.

Lemma continues_loop_body g0 self onDone block g :
  steady g0 -> continues g0 g ->
  continues g0 (snd (loop_body self onDone block g)).
Proof.
  intros Hs H. unfold loop_body, with_lock, _original_feed.
  unfold bind at 1. unfold modify at 1. cbv zeta.
  set (locked := emit (lock_acquire (handle self)) (emit _ g)).
  assert (Hlocked : continues g0 locked)
    by (apply continues_emit, continues_emit, H).
  pose proof (continues_storage g0 (handle self)
                (WaveStorage.write block None) locked Hlocked) as Hstored.
  unfold bind at 1.
  destruct (on_waveStorage (handle self) (WaveStorage.write block None) locked)
    as [[[] | e] stored]; cbn [snd] in *.
  - pose proof (continues_refresh g0 (handle self) stored Hs Hstored) as Hr.
    unfold refresh in Hr.
    destruct ((let* now := time_perf_counter in set_lastActive (handle self) now)
                stored) as [r refreshed].
    cbn [snd] in *. apply continues_emit. exact Hr.
  - apply continues_emit. exact Hstored.
Qed.

Lemma sweep_loop now limit l : forall g,
  let r :=
    for_each l (fun kv : positive * _PlayerInfo =>
      if gt (lastActivePerfCounter (snd kv) - now) (inject_Z limit)
      then modify (fun g => set_players (delete (fst kv) (_players g)) g)
      else ret tt) g in
  fst r = Ok tt
  /\ perf_counter (snd r) = perf_counter g
  /\ _max_duration_sec (snd r) = _max_duration_sec g
  /\ clock_reads (snd r) = clock_reads g
  /\ _player_num (snd r) = _player_num g
  /\ (forall h info, _players (snd r) !! h = Some info ->
      _players g !! h = Some info).
Proof.
  induction l as [| kv l IH]; intros g; cbv zeta.
  - cbn. repeat split; auto.
  - cbn [for_each]. unfold bind.
    destruct (gt _ _); cbn [modify ret].
    + specialize (IH (set_players (delete (fst kv) (_players g)) g)).
      cbv zeta in IH. destruct IH as (E1 & E2 & E3 & E4 & E5 & E6).
      repeat split; try assumption.
      intros h info Hinfo. specialize (E6 h info Hinfo).
      cbn [_players set_players] in E6.
      apply lookup_delete_Some in E6. apply E6.
    + apply IH.
Qed.

Lemma sweep_fields g :
  fst (sweep g) = Ok tt
  /\ perf_counter (snd (sweep g)) = perf_counter g
  /\ _max_duration_sec (snd (sweep g)) = _max_duration_sec g
  /\ clock_reads (snd (sweep g)) = S (clock_reads g)
  /\ _player_num (snd (sweep g)) = _player_num g
  /\ (forall h info, _players (snd (sweep g)) !! h = Some info ->
      _players g !! h = Some info).
Proof.
  unfold sweep, bind, time_perf_counter, get. cbn [fst snd].
  set (g1 := mk _ _ _ _ _ _ _).
  apply (sweep_loop (perf_counter g (clock_reads g)) (_max_duration_sec g1)
                    (map_to_list (_players g1)) g1).
Qed.

Lemma continues_sweep g0 g :
  steady g0 -> continues g0 g -> continues g0 (snd (sweep g)).
Proof.
  intros Hs H.
  pose proof H as (Hpc & Hmax & _ & Hfresh).
  destruct (sweep_fields g) as (_ & Epc & Emax & Eclock & _ & _).
  assert (Hsame : _players (snd (sweep g)) = _players g).
  { apply sweep_removes_nothing; [| exact Hfresh].
    rewrite Hmax. apply Hs. }
  apply (continues_update g0 g); try assumption.
  - rewrite Eclock. apply (continues_clock g0 g Hs H).
  - intros h Hh. rewrite Hsame. exact Hh.
  - intros h info' Hinfo'. right. exists info'.
    rewrite <- Hsame. split; [exact Hinfo' | reflexivity].
Qed.

(** X15: no entry is ever evicted.  With a clock that never runs
    backwards and a retention that is not negative, a call of the
    patched [feed], whatever its arguments and its outcome, leaves every
    stream that had an entry with an entry; and the condition under
    which this holds (no entry was last active after the next clock
    reading) holds again afterwards, so it holds after any number of
    calls, however long a stream has been idle. *)
Theorem X15_no_entry_evicted self data size onDone g :
  steady g -> fresh g ->
  let g' := snd (_player_feed self data size onDone g) in
  (forall h, is_Some (_players g !! h) -> is_Some (_players g' !! h))
  /\ steady g' /\ fresh g'.
Proof.
  intros Hs Hf g'.
  assert (H : continues g g').
  { subst g'. rewrite player_feed_cases.
    pose proof (continues_refl g Hf) as H0.
    destruct (_purpose self); [| apply continues_emit; exact H0].
    destruct (fst (byte_view data size g)) as [[[| x d'] |] | e]; cbn [snd];
      try (apply continues_emit; exact H0); try exact H0.
    cbv zeta.
    set (mb := channels self * bitsPerSample self / 8 * samplesPerSec self / 5).
    pose proof (continues_entry g self g Hs H0) as H1.
    destruct (range 0 _ mb) as [starts | e]; [| exact H1].
    unfold feed_blocks, bind.
    pose proof (for_each_inv (continues g)
                  (fun i => loop_body self onDone
                              (slice (x :: d') (Some i) (Some (i + mb))))
                  starts
                  (fun i s => continues_loop_body g self onDone _ s Hs)
                  _ H1) as H2.
    destruct (for_each starts _ (entry_for self g)) as [[[] | e] g2];
      cbn [snd] in *; [| exact H2].
    apply continues_sweep; assumption. }
  destruct H as (Hpc & Hmax & Hkeep & Hfresh).
  split; [exact Hkeep |]. split; [| exact Hfresh].
  unfold steady. rewrite Hpc, Hmax. exact Hs.
Qed.

Lemma X15_no_entry_evicted_witness :
  steady started /\ fresh started
  /\ is_Some (_players after_B !! handle stream_A).
Proof.
  assert (Hs : steady started).
  { split; [discriminate |]. intros i j Hij.
    cbn [perf_counter started]. rewrite <- Zle_Qle. lia. }
  assert (Hf : fresh started).
  { intros h info Hinfo. cbn [_players started] in Hinfo.
    rewrite lookup_empty in Hinfo. discriminate Hinfo. }
  split; [exact Hs |]. split; [exact Hf |].
  destruct (X15_no_entry_evicted stream_A
              (data_Buffer (List.map byte_of_Z [1; 2; 3; 4; 5])) None None
              started Hs Hf) as (_ & HsA & HfA).
  destruct (X15_no_entry_evicted stream_B
              (data_Buffer (List.map byte_of_Z [6; 7; 8])) None None
              after_A HsA HfA) as (H & _).
  apply H. eexists. vm_compute. reflexivity.
Defined.

(** ** Aligned feeds *)

Lemma chunk_aligned count maxblocksize F : forall d : bytes,
  0 < maxblocksize -> (F | maxblocksize) -> (F | len d) ->
  Forall (fun block : bytes => (F | len block)) (chunk count maxblocksize d).
Proof.
  induction count as [| c IH]; intros d Hmb HFmb HFd; cbn [chunk];
    constructor.
  - rewrite len_ztake_gen.
    destruct (Z.le_gt_cases maxblocksize (len d)).
    + rewrite Z.max_r, Z.min_l by lia. exact HFmb.
    + rewrite Z.max_r, Z.min_r by lia. exact HFd.
  - apply IH; [exact Hmb | exact HFmb |].
    rewrite len_zdrop_gen.
    destruct (Z.le_gt_cases maxblocksize (len d)).
    + rewrite Z.max_r, Z.min_l by lia. apply Z.divide_sub_r; assumption.
    + rewrite Z.max_r, Z.min_r by lia. rewrite Z.sub_diag.
      apply Z.divide_0_r.
Qed.

Lemma sub_blocks_concat maxblocksize n (d : bytes) :
  0 < maxblocksize -> len d <= n ->
  List.concat (sub_blocks maxblocksize n d) = d.
Proof.
  intros Hmb Hlen. apply chunk_concat; [exact Hmb |].
  pose proof (len_nonneg d) as Hd0.
  assert (Hq : n <= (n + maxblocksize - 1) / maxblocksize * maxblocksize).
  { pose proof (Z.div_mod (n + maxblocksize - 1) maxblocksize).
    pose proof (Z.mod_pos_bound (n + maxblocksize - 1) maxblocksize Hmb).
    lia. }
  assert (0 <= (n + maxblocksize - 1) / maxblocksize)
    by (apply Z.div_pos; lia).
  rewrite Z2Nat.id by assumption. lia.
Qed.

(** The patched [feed] of non-empty speech data, once the stream has an
    entry whose storage can be written. *)
Lemma player_feed_blocks self data size onDone g d :
  let maxblocksize :=
    channels self * bitsPerSample self / 8 * samplesPerSec self / 5 in
  _purpose self = SPEECH ->
  fst (byte_view data size g) = Ok (Some d) -> d <> [] ->
  0 < maxblocksize ->
  tracked (handle self) (entry_for self g) ->
  _player_feed self data size onDone g
  = sweep (fold_left (block_step self onDone)
                     (sub_blocks maxblocksize
                        (match size with Some n => n | None => len d end) d)
                     (entry_for self g)).
Proof.
  intros mb Hp Hview Hd Hmb Htracked.
  rewrite player_feed_cases, Hp, Hview.
  destruct d as [| x d']; [contradiction |].
  cbv zeta. fold mb.
  set (n := match size with Some n => n | None => len (x :: d') end).
  destruct (range_blocks (x :: d') n mb Hmb) as (starts & Hrange & Hstarts).
  rewrite Hrange. unfold feed_blocks, bind.
  rewrite (for_each_map
             (fun i => slice (x :: d') (Some i) (Some (i + mb)))
             (loop_body self onDone)).
  rewrite Hstarts.
  destruct (loop_blocks self onDone (sub_blocks mb n (x :: d')) _ Htracked)
    as (Hloop & _).
  change (@for_each globals (list byte)) with (@for_each globals bytes).
  rewrite Hloop. reflexivity.
Qed.

Lemma block_step_aligned self onDone g block info input :
  _players g !! handle self = Some info ->
  WaveStorageForms.holds (waveStorage info) input ->
  (WaveStorage._framesize (waveStorage info) | len block) ->
  exists info',
    _players (block_step self onDone g block) !! handle self = Some info'
    /\ WaveStorageForms.holds (waveStorage info') (input ++ block)
    /\ WaveStorage._framesize (waveStorage info')
       = WaveStorage._framesize (waveStorage info)
    /\ WaveStorage._markers (waveStorage info')
       = WaveStorage._markers (waveStorage info)
    /\ fileName info' = fileName info.
Proof.
  intros Hinfo Hholds Hdiv.
  pose proof Hholds as (_ & HF & _).
  assert (Hal : len block mod WaveStorage._framesize (waveStorage info) = 0)
    by (apply Z.mod_divide; [lia | exact Hdiv]).
  pose proof (WaveStorageFacts.write_holds block None _ _ Hholds) as Hh.
  rewrite WaveStorageFacts.frames_of_aligned in Hh by assumption.
  destruct (WaveStorageFacts.write_fields block None _ HF)
    as (EF & _ & _ & _ & _ & EK).
  unfold WaveStorageForms.marked in EK. rewrite Hal in EK. cbn [Z.eqb] in EK.
  unfold block_step, append_block, refresh, on_waveStorage, bind,
    time_perf_counter, set_lastActive, modify.
  cbn [fst snd _players emit set_players]. rewrite Hinfo.
  destruct (WaveStorage.write block None (waveStorage info)) as [r st'].
  cbn [fst snd _players emit set_players] in *.
  rewrite lookup_insert_eq.
  cbn [fst snd _players emit set_players].
  eexists. split; [apply lookup_insert_eq |].
  cbn [waveStorage fileName].
  split; [exact Hh | split; [exact EF | split; [exact EK | reflexivity]]].
Qed.

Lemma blocks_aligned self onDone blocks : forall g info input,
  _players g !! handle self = Some info ->
  WaveStorageForms.holds (waveStorage info) input ->
  Forall (fun block : bytes =>
            (WaveStorage._framesize (waveStorage info) | len block)) blocks ->
  exists info',
    _players (fold_left (block_step self onDone) blocks g) !! handle self
    = Some info'
    /\ WaveStorageForms.holds (waveStorage info') (input ++ List.concat blocks)
    /\ WaveStorage._markers (waveStorage info')
       = WaveStorage._markers (waveStorage info)
    /\ fileName info' = fileName info.
Proof.
  induction blocks as [| block blocks IH]; intros g info input Hinfo Hh Hall.
  - exists info. cbn. rewrite app_nil_r. auto.
  - inversion Hall as [| ? ? Hblock Hrest]; subst.
    destruct (block_step_aligned self onDone g block info input Hinfo Hh Hblock)
      as (info1 & Hinfo1 & Hh1 & EF1 & EK1 & EN1).
    rewrite <- EF1 in Hrest.
    destruct (IH _ info1 _ Hinfo1 Hh1 Hrest) as (info' & Hinfo' & Hh' & EK' & EN').
    exists info'. cbn [fold_left List.concat].
    rewrite app_assoc.
    split; [exact Hinfo' | split; [exact Hh' | split; congruence]].
Qed.

(** X14: an aligned feed loses nothing.  When the frame size of the
    stream's storage divides both the sub-block size and the length of
    non-empty speech data, the patched [feed] appends exactly that data
    to what the storage of the stream holds, and adds no marker: the
    split into sub-blocks is not visible in the recording.  The sweep
    that follows either leaves this entry as it is or removes it. *)
Theorem X14_aligned_feed_lossless self data size onDone g d info input :
  let h := handle self in
  let maxblocksize :=
    channels self * bitsPerSample self / 8 * samplesPerSec self / 5 in
  let F := WaveStorage._framesize (waveStorage info) in
  let before_sweep :=
    fold_left (block_step self onDone)
              (sub_blocks maxblocksize
                 (match size with Some n => n | None => len d end) d)
              (entry_for self g) in
  let after := snd (_player_feed self data size onDone g) in
  _purpose self = SPEECH ->
  fst (byte_view data size g) = Ok (Some d) -> d <> [] ->
  0 < maxblocksize ->
  _players (entry_for self g) !! h = Some info ->
  WaveStorageForms.holds (waveStorage info) input ->
  (F | maxblocksize) -> (F | len d) ->
  _player_feed self data size onDone g = sweep before_sweep
  /\ fst (_player_feed self data size onDone g) = Ok tt
  /\ exists info',
       _players before_sweep !! h = Some info'
       /\ WaveStorageForms.holds (waveStorage info') (input ++ d)
       /\ WaveStorage._markers (waveStorage info')
          = WaveStorage._markers (waveStorage info)
       /\ fileName info' = fileName info
       /\ (_players after !! h = Some info' \/ _players after !! h = None).
Proof.
  intros h mb F before_sweep after Hp Hview Hd Hmb Hinfo Hh HFmb HFd.
  pose proof Hh as (_ & HF & _).
  assert (Htracked : tracked h (entry_for self g))
    by (exists info; split; assumption).
  pose proof (player_feed_blocks self data size onDone g d
                Hp Hview Hd Hmb Htracked) as Hfeed.
  fold mb in Hfeed. fold before_sweep in Hfeed.
  pose proof (byte_view_len data size g d Hview) as Hlen.
  destruct (blocks_aligned self onDone
              (sub_blocks mb (match size with Some n => n | None => len d end) d)
              (entry_for self g) info input Hinfo Hh)
    as (info' & Hinfo' & Hh' & EK & EN).
  { apply chunk_aligned; assumption. }
  rewrite sub_blocks_concat in Hh' by assumption.
  fold before_sweep in Hinfo'.
  destruct (sweep_fields before_sweep) as (Hok & _ & _ & _ & _ & Hsub).
  split; [exact Hfeed |]. split; [rewrite Hfeed; exact Hok |].
  exists info'.
  split; [exact Hinfo' | split; [exact Hh' | split; [exact EK |]]].
  split; [exact EN |].
  subst after. rewrite Hfeed.
  destruct (_players (snd (sweep before_sweep)) !! h) as [i |] eqn:Hi;
    [left | right; reflexivity].
  apply Hsub in Hi. subst h before_sweep. congruence.
Qed.

Lemma X14_aligned_feed_lossless_witness :
  exists info',
    _players after_A !! handle stream_A = Some info'
    /\ WaveStorageForms.holds (waveStorage info')
         ([] ++ List.map byte_of_Z [1; 2; 3; 4; 5])
    /\ WaveStorage._markers (waveStorage info') = [].
Proof.
  destruct (X14_aligned_feed_lossless stream_A
              (data_Buffer (List.map byte_of_Z [1; 2; 3; 4; 5])) None None
              started (List.map byte_of_Z [1; 2; 3; 4; 5])
              (mk_info (lit "WavePlayer 1.wav") (inject_Z 0)
                       (WaveStorage.__init__ 1 1 10 (Some 800))) [])
    as (_ & _ & info' & _ & Hh & EK & _ & Hafter);
    [reflexivity | reflexivity | discriminate | reflexivity
    | vm_compute; reflexivity
    | apply WaveStorageFacts.init_holds; [reflexivity | discriminate]
    | exists 2; reflexivity | exists 5; reflexivity |].
  exists info'. split; [| split; [exact Hh | exact EK]].
  destruct Hafter as [H | H]; [exact H |].
  vm_compute in H. discriminate H.
Defined.

(** ** Markers on the tracked streams *)

Lemma mark_entry_eq label info :
  WaveStorage.addmarker label (waveStorage info)
  = (Ok tt, waveStorage (mark_entry label info)).
Proof.
  unfold mark_entry. cbn [waveStorage].
  rewrite WaveStorageFacts.addmarker_eq. reflexivity.
Qed.

Lemma mark_one label h info g :
  _players g !! h = Some info ->
  on_waveStorage h (WaveStorage.addmarker label) g
  = (Ok tt, set_players (<[h := mark_entry label info]> (_players g)) g).
Proof.
  intros Hinfo. unfold on_waveStorage. rewrite Hinfo, mark_entry_eq.
  reflexivity.
Qed.

Lemma mark_all label (l : list (positive * _PlayerInfo)) : forall g,
  NoDup (l.*1) ->
  (forall k info, (k, info) ∈ l -> _players g !! k = Some info) ->
  exists m',
    for_each l (fun kv => on_waveStorage (fst kv) (WaveStorage.addmarker label)) g
    = (Ok tt, set_players m' g)
    /\ (forall j, j ∈ l.*1 -> m' !! j = mark_entry label <$> _players g !! j)
    /\ (forall j, j ∉ l.*1 -> m' !! j = _players g !! j).
Proof.
  induction l as [| [k info] l IH]; intros g Hnd Hl.
  - exists (_players g). split; [destruct g; reflexivity |].
    split; [| reflexivity].
    intros j Hj. cbn in Hj. apply elem_of_nil in Hj. contradiction.
  - cbn [fmap list_fmap fst] in Hnd. apply NoDup_cons in Hnd.
    destruct Hnd as [Hk Hnd].
    assert (Hinfo : _players g !! k = Some info)
      by (apply Hl; apply elem_of_cons; left; reflexivity).
    cbn [for_each fst]. unfold bind. rewrite (mark_one label k info g Hinfo).
    destruct (IH (set_players (<[k := mark_entry label info]> (_players g)) g)
                 Hnd) as (m' & Hrun & Hin & Hout).
    { intros k' info' Hin'. cbn [_players set_players].
      rewrite lookup_insert_ne.
      - apply Hl. apply elem_of_cons. right. exact Hin'.
      - intros ->. apply Hk.
        apply (list_elem_of_fmap_2 fst) in Hin'. exact Hin'. }
    exists m'. split; [exact Hrun |].
    cbn [_players set_players] in Hin, Hout. split.
    + intros j Hj. cbn [fmap list_fmap fst] in Hj.
      apply elem_of_cons in Hj.
      destruct (decide (j ∈ l.*1)) as [Hjl | Hjl].
      * rewrite (Hin j Hjl). rewrite lookup_insert_ne; [reflexivity |].
        intros ->. contradiction.
      * destruct Hj as [-> | Hj]; [| contradiction].
        rewrite (Hout k Hjl), lookup_insert_eq, Hinfo. reflexivity.
    + intros j Hj. cbn [fmap list_fmap fst] in Hj.
      apply not_elem_of_cons in Hj. destruct Hj as [Hjk Hjl].
      rewrite (Hout j Hjl). apply lookup_insert_ne. congruence.
Qed.

(** X16: a speech marker reaches every tracked stream.
    [_add_speech_marker] never raises and replaces the storage of every
    entry by that storage with the label [#number: text] added, where
    the text is the strings of the speech sequence joined and its
    commands contribute nothing; it adds and removes no entry, makes no
    call (it takes no lock) and does not read the clock.  In a storage
    with a capacity that is not negative the label is the last marker,
    at that stream's own write position.  With no entry, as after
    [reset], nothing changes. *)
Theorem X16_speech_marker_everywhere number speechSequence g :
  let label := speech_label number speechSequence in
  _add_speech_marker number speechSequence g
  = (Ok tt, set_players (mark_entry label <$> _players g) g)
  /\ (forall info,
      match WaveStorage._maxframes (waveStorage info) with
      | Some C => 0 <= C
      | None => True
      end ->
      WaveStorage._markers (waveStorage (mark_entry label info))
      = WaveStorageForms.retained (waveStorage info)
        ++ [(WaveStorage._nsampleswritten (waveStorage info), label)])
  /\ speech_label number (item_command :: speechSequence) = label
  /\ (forall text,
      speech_label number (speechSequence ++ [item_str text]) = label ++ text)
  /\ _add_speech_marker number speechSequence (snd (reset g))
     = (Ok tt, snd (reset g)).
Proof.
  intros label.
  assert (Hgen : forall g0,
            _add_speech_marker number speechSequence g0
            = (Ok tt, set_players (mark_entry label <$> _players g0) g0)).
  { intros g0. unfold _add_speech_marker, bind, get. fold label.
    destruct (mark_all label (map_to_list (_players g0)) g0)
      as (m' & Hrun & Hin & Hout).
    - apply NoDup_fst_map_to_list.
    - intros k info Hk. apply elem_of_map_to_list. exact Hk.
    - rewrite Hrun. f_equal. f_equal. apply map_eq. intros j.
      rewrite lookup_fmap.
      destruct (decide (j ∈ (map_to_list (_players g0)).*1)) as [Hjl | Hjl];
        [apply Hin; exact Hjl |].
      rewrite (Hout j Hjl).
      destruct (_players g0 !! j) as [info |] eqn:Hj; [| reflexivity].
      exfalso. apply Hjl.
      apply (list_elem_of_fmap_2' fst _ (j, info)); [| reflexivity].
      apply elem_of_map_to_list. exact Hj. }
  split; [apply Hgen |].
  split.
  { intros info HC. unfold mark_entry. cbn [waveStorage].
    apply WaveStorageFacts.addmarker_markers. exact HC. }
  split; [reflexivity |].
  split.
  { intros text. unfold label, speech_label.
    rewrite flat_map_app, concat_app. cbn [flat_map List.concat app].
    rewrite !app_nil_r, <- !app_assoc. reflexivity. }
  rewrite Hgen. unfold reset, modify. cbn [snd _players set_players].
  rewrite fmap_empty. reflexivity.
Qed.

(** X17: the markers of [sync] and [stop].  The patched [sync] and
    [stop] call the method they replace first, and an exception of that
    call ends them.  Otherwise, when the stream has no entry they do
    nothing more; when it has one they add the marker [Sync],
    respectively [Stop], to its storage between acquiring and releasing
    the lock of the entry, and change nothing else. *)
Theorem X17_sync_and_stop_markers original self g :
  let h := handle self in
  let g1 := snd (original self g) in
  let marked info label :=
    emit (lock_release h)
      (set_players (<[h := mark_entry label info]> (_players g1))
                   (emit (lock_acquire h) g1)) in
  (forall e, fst (original self g) = Raise e ->
   _player_sync original self g = (Raise e, g1)
   /\ _player_stop original self g = (Raise e, g1))
  /\ (fst (original self g) = Ok tt -> _players g1 !! h = None ->
      _player_sync original self g = (Ok tt, g1)
      /\ _player_stop original self g = (Ok tt, g1))
  /\ (forall info, fst (original self g) = Ok tt ->
      _players g1 !! h = Some info ->
      _player_sync original self g = (Ok tt, marked info (lit "Sync"))
      /\ _player_stop original self g = (Ok tt, marked info (lit "Stop"))).
Proof.
  intros h g1 marked. subst g1 marked. cbv beta.
  unfold _player_sync, _player_stop, bind, get, with_lock. fold h.
  destruct (original self g) as [[[] | e] g1]; cbn [fst snd].
  - split; [intros e He; discriminate He |].
    split.
    + intros _ Hnone. rewrite Hnone. split; reflexivity.
    + intros info _ Hinfo. rewrite Hinfo.
      assert (Hlocked : _players (emit (lock_acquire h) g1) !! h = Some info)
        by exact Hinfo.
      rewrite !(mark_one _ h info _ Hlocked). split; reflexivity.
  - split; [intros e' He'; injection He' as <-; split; reflexivity |].
    split; [intros He; discriminate He | intros info He; discriminate He].
Qed.

(** ** File names *)

Lemma lit_inj a c : lit a = lit c -> a = c.
Proof.
  unfold lit. intros H.
  rewrite <- (string_of_list_ascii_of_string a),
          <- (string_of_list_ascii_of_string c).
  f_equal. revert H.
  generalize (list_ascii_of_string a) (list_ascii_of_string c).
  intros l1. induction l1 as [| x l1 IH]; intros [| y l2] H;
    try discriminate H; [reflexivity |].
  cbn [List.map] in H. injection H as Hxy Hrest.
  f_equal; [| apply IH; exact Hrest].
  rewrite <- (ascii_N_embedding x), <- (ascii_N_embedding y), Hxy.
  reflexivity.
Qed.

Lemma str_of_int_inj a c : str_of_int a = str_of_int c -> a = c.
Proof.
  unfold str_of_int. intros H. apply lit_inj in H.
  apply DecimalZ.to_int_inj.
  assert (Hnz : forall z, Z.to_int z <> Decimal.Pos Decimal.Nil
                          /\ Z.to_int z <> Decimal.Neg Decimal.Nil).
  { intros [| p | p]; cbn; split; try discriminate;
      intros E; injection E as E;
      apply (DecimalPos.Unsigned.to_uint_nonnil p); exact E. }
  destruct (Hnz a) as [Ha1 Ha2]. destruct (Hnz c) as [Hc1 Hc2].
  pose proof (NilZero.isi _ Ha1 Ha2) as Ea.
  pose proof (NilZero.isi _ Hc1 Hc2) as Ec.
  rewrite H in Ea. congruence.
Qed.

Lemma file_name_inj a c : file_name a = file_name c -> a = c.
Proof.
  unfold file_name. intros H.
  apply app_inv_head in H. apply app_inv_tail in H.
  apply str_of_int_inj. exact H.
Qed.

Lemma renames_refl g : renames_nothing g g.
Proof. split; [reflexivity |]. intros h info' H. exists info'. auto. Qed.

Lemma renames_trans g1 g2 g3 :
  renames_nothing g1 g2 -> renames_nothing g2 g3 -> renames_nothing g1 g3.
Proof.
  intros [N12 H12] [N23 H23]. split; [congruence |].
  intros h info3 H3. destruct (H23 h info3 H3) as (info2 & H2 & E23).
  destruct (H12 h info2 H2) as (info1 & H1 & E12).
  exists info1. split; [exact H1 | congruence].
Qed.

Lemma renames_same g g' :
  _player_num g' = _player_num g -> _players g' = _players g ->
  renames_nothing g g'.
Proof.
  intros EN EP. split; [exact EN |].
  intros h info' H. exists info'. rewrite <- EP. auto.
Qed.

Lemma renames_emit e g : renames_nothing g (emit e g).
Proof. apply renames_same; reflexivity. Qed.

Lemma renames_storage {A} h (c : M WaveStorage.t A) g :
  renames_nothing g (snd (on_waveStorage h c g)).
Proof.
  unfold on_waveStorage.
  destruct (_players g !! h) as [info |] eqn:Hinfo; [| apply renames_refl].
  destruct (c (waveStorage info)) as [r storage]. cbn [snd].
  split; [reflexivity |].
  intros h' info' Hinfo'. cbn [_players set_players] in Hinfo'.
  apply lookup_insert_Some in Hinfo'.
  destruct Hinfo' as [[<- <-] | [_ Hold]].
  - exists info. split; [exact Hinfo | reflexivity].
  - exists info'. split; [exact Hold | reflexivity].
Qed.

Lemma renames_refresh h g : renames_nothing g (refresh h g).
Proof.
  unfold refresh, bind, time_perf_counter, set_lastActive, modify.
  cbn [fst snd _players].
  destruct (_players g !! h) as [info |] eqn:Hinfo.
  - split; [reflexivity |].
    intros h' info' Hinfo'. cbn [_players set_players] in Hinfo'.
    apply lookup_insert_Some in Hinfo'.
    destruct Hinfo' as [[<- <-] | [_ Hold]].
    + exists info. split; [exact Hinfo | reflexivity].
    + exists info'. split; [exact Hold | reflexivity].
  - split; [reflexivity |]. intros h' info' Hinfo'. exists info'. auto.
Qed.

Lemma renames_loop_body self onDone block g :
  renames_nothing g (snd (loop_body self onDone block g)).
Proof.
  unfold loop_body, with_lock, _original_feed.
  unfold bind at 1. unfold modify at 1. cbv zeta.
  set (locked := emit (lock_acquire (handle self)) (emit _ g)).
  assert (Hlocked : renames_nothing g locked)
    by (apply renames_same; reflexivity).
  pose proof (renames_storage (handle self)
                (WaveStorage.write block None) locked) as Hstored.
  unfold bind at 1.
  destruct (on_waveStorage (handle self) (WaveStorage.write block None) locked)
    as [[[] | e] stored]; cbn [snd] in *.
  - pose proof (renames_refresh (handle self) stored) as Hr.
    unfold refresh in Hr.
    destruct ((let* now := time_perf_counter in set_lastActive (handle self) now)
                stored) as [r refreshed].
    cbn [snd] in *.
    apply (renames_trans g locked); [exact Hlocked |].
    apply (renames_trans locked stored); [exact Hstored |].
    apply (renames_trans stored refreshed); [exact Hr | apply renames_emit].
  - apply (renames_trans g locked); [exact Hlocked |].
    apply (renames_trans locked stored); [exact Hstored | apply renames_emit].
Qed.

Lemma renames_sweep g : renames_nothing g (snd (sweep g)).
Proof.
  destruct (sweep_fields g) as (_ & _ & _ & _ & EN & Hsub).
  split; [exact EN |].
  intros h info' Hinfo'. exists info'. split; [apply Hsub; exact Hinfo' | reflexivity].
Qed.

Lemma renames_named g g' : named g -> renames_nothing g g' -> named g'.
Proof.
  intros [Hnames Hdistinct] [HN Hold]. split.
  - intros h info' Hinfo'. destruct (Hold h info' Hinfo') as (info & Hinfo & E).
    destruct (Hnames h info Hinfo) as (k & Hk & Ek).
    exists k. split; [lia | congruence].
  - intros h1 h2 i1 i2 H1 H2 E.
    destruct (Hold h1 i1 H1) as (j1 & Hj1 & E1).
    destruct (Hold h2 i2 H2) as (j2 & Hj2 & E2).
    apply (Hdistinct h1 h2 j1 j2 Hj1 Hj2). congruence.
Qed.

(** The entry that [_PlayerInfo.__init__] creates. *)
Lemma entry_for_new self g :
  _players g !! handle self = None ->
  exists info,
    fileName info = file_name (_player_num g)
    /\ _players (entry_for self g) = <[handle self := info]> (_players g)
    /\ _player_num (entry_for self g) = _player_num g + 1.
Proof.
  intros Hnone. unfold entry_for. rewrite Hnone.
  unfold new_PlayerInfo, bind, get, modify, time_perf_counter, ret.
  cbn [fst snd]. eexists. split; [| split; reflexivity]. reflexivity.
Qed.

Lemma named_entry self g : named g -> named (entry_for self g).
Proof.
  intros Hg. pose proof Hg as [Hnames Hdistinct].
  destruct (_players g !! handle self) as [info0 |] eqn:Hh.
  - unfold entry_for. rewrite Hh. exact Hg.
  - destruct (entry_for_new self g Hh) as (info & Ename & Eplayers & Enum).
    split.
    + intros h info' Hinfo'. rewrite Eplayers in Hinfo'. rewrite Enum.
      apply lookup_insert_Some in Hinfo'.
      destruct Hinfo' as [[<- <-] | [_ Hold]].
      * exists (_player_num g). split; [lia | exact Ename].
      * destruct (Hnames h info' Hold) as (k & Hk & Ek).
        exists k. split; [lia | exact Ek].
    + intros h1 h2 i1 i2 H1 H2 E. rewrite Eplayers in H1, H2.
      apply lookup_insert_Some in H1. apply lookup_insert_Some in H2.
      destruct H1 as [[<- <-] | [Hne1 Hold1]], H2 as [[<- <-] | [Hne2 Hold2]].
      * reflexivity.
      * exfalso. destruct (Hnames h2 i2 Hold2) as (k & Hk & Ek).
        rewrite Ename, Ek in E. apply file_name_inj in E. lia.
      * exfalso. destruct (Hnames h1 i1 Hold1) as (k & Hk & Ek).
        rewrite Ename, Ek in E. apply file_name_inj in E. lia.
      * apply (Hdistinct h1 h2 i1 i2 Hold1 Hold2 E).
Qed.

Lemma feed_renames self data size onDone g :
  renames_nothing (entry_for self g) (snd (_player_feed self data size onDone g))
  \/ snd (_player_feed self data size onDone g) = g
  \/ snd (_player_feed self data size onDone g)
     = emit (original_feed self data size onDone) g.
Proof.
  rewrite player_feed_cases.
  destruct (_purpose self); [| right; right; reflexivity].
  destruct (fst (byte_view data size g)) as [[[| x d'] |] | e]; cbn [snd];
    try (right; right; reflexivity); try (right; left; reflexivity).
  left. cbv zeta.
  set (mb := channels self * bitsPerSample self / 8 * samplesPerSec self / 5).
  destruct (range 0 _ mb) as [starts | e]; [| apply renames_refl].
  unfold feed_blocks, bind.
  pose proof (for_each_inv (renames_nothing (entry_for self g))
                (fun i => loop_body self onDone
                            (slice (x :: d') (Some i) (Some (i + mb))))
                starts
                (fun i s Hs =>
                   renames_trans _ _ _ Hs (renames_loop_body self onDone _ s))
                _ (renames_refl _)) as H2.
  destruct (for_each starts _ (entry_for self g)) as [[[] | e] g2];
    cbn [snd] in *; [| exact H2].
  apply (renames_trans _ g2); [exact H2 | apply renames_sweep].
Qed.

(** X18: distinct streams get distinct file names.  If every entry is
    named [WavePlayer k.wav] for a value [k] that the counter
    [_player_num] has passed and no two entries share a name, the same
    holds after a call of the patched [feed], whatever its arguments and
    outcome; an entry that was there keeps its name, and an entry
    created by the call is named after the counter at the call, which
    the call advances by one. *)
Theorem X18_file_names_distinct self data size onDone g :
  named g ->
  let g' := snd (_player_feed self data size onDone g) in
  named g'
  /\ (forall h info info',
      _players g !! h = Some info -> _players g' !! h = Some info' ->
      fileName info' = fileName info)
  /\ (forall h info',
      _players g !! h = None -> _players g' !! h = Some info' ->
      h = handle self
      /\ fileName info' = file_name (_player_num g)
      /\ _player_num g' = _player_num g + 1).
Proof.
  intros Hg g'.
  pose proof (named_entry self g Hg) as Hg1.
  destruct (feed_renames self data size onDone g) as [Hr | [E | E]];
    fold g' in Hr || fold g' in E.
  - split; [apply (renames_named _ _ Hg1 Hr) |].
    destruct Hr as [HN Hold]. split.
    + intros h info info' Hinfo Hinfo'.
      destruct (Hold h info' Hinfo') as (info1 & Hinfo1 & E1).
      rewrite E1. unfold entry_for in Hinfo1.
      destruct (_players g !! handle self) as [info0 |] eqn:Hh.
      * congruence.
      * destruct (entry_for_new self g Hh) as (new & _ & Eplayers & _).
        unfold entry_for in Eplayers. rewrite Hh in Eplayers.
        rewrite Eplayers in Hinfo1.
        apply lookup_insert_Some in Hinfo1.
        destruct Hinfo1 as [[<- _] | [_ Hold1]]; congruence.
    + intros h info' Hnone Hinfo'.
      destruct (Hold h info' Hinfo') as (info1 & Hinfo1 & E1).
      destruct (_players g !! handle self) as [info0 |] eqn:Hh.
      * unfold entry_for in Hinfo1. rewrite Hh in Hinfo1. congruence.
      * destruct (entry_for_new self g Hh) as (new & Ename & Eplayers & Enum).
        rewrite Eplayers in Hinfo1.
        apply lookup_insert_Some in Hinfo1.
        destruct Hinfo1 as [[<- <-] | [_ Hold1]]; [| congruence].
        split; [reflexivity |]. split; [congruence |].
        subst g'. congruence.
  - rewrite E. split; [exact Hg |].
    split; intros; congruence.
  - rewrite E. split; [exact Hg |].
    split; intros; cbn [_players emit] in *; congruence.
Qed.

Lemma X18_file_names_distinct_witness :
  named started
  /\ named after_A
  /\ exists info',
       _players after_A !! handle stream_A = Some info'
       /\ fileName info' = file_name 1.
Proof.
  assert (Hn : named started).
  { split.
    - intros h info Hinfo. cbn [_players started] in Hinfo.
      rewrite lookup_empty in Hinfo. discriminate Hinfo.
    - intros h1 h2 i1 i2 H1. cbn [_players started] in H1.
      rewrite lookup_empty in H1. discriminate H1. }
  destruct (X18_file_names_distinct stream_A
              (data_Buffer (List.map byte_of_Z [1; 2; 3; 4; 5])) None None
              started Hn) as (Hnamed & _ & Hnew).
  split; [exact Hn |]. split; [exact Hnamed |].
  assert (Hsome : is_Some (_players after_A !! handle stream_A))
    by (eexists; vm_compute; reflexivity).
  destruct Hsome as [info' Hinfo']. exists info'. split; [exact Hinfo' |].
  apply (Hnew (handle stream_A) info'); [apply lookup_empty | exact Hinfo'].
Defined.

End NvdaAudioFacts.

(** * The system-audio recorder *)

Module SysAudioFacts.
Import SysAudio SysAudioForms.

(** C9: without a storage [savetofile] raises [ValueError("No wave
    storage")] before touching any file, an exception that is not the
    [OSError] of a file that cannot be opened; with a storage it has the
    outcome, the storage and the files of the storage's own
    [savetofile]. *)
Theorem C9_save_without_data self file env :
  (_wavestorage self = None ->
   savetofile file (self, env)
   = (Raise (ValueError "No wave storage"), (self, env))
   /\ ValueError "No wave storage" <> OSError)
  /\ (forall storage, _wavestorage self = Some storage ->
      let own := WaveStorage.savetofile file (storage, env) in
      let saved := savetofile file (self, env) in
      fst saved = fst own
      /\ _wavestorage (fst (snd saved)) = Some (fst (snd own))
      /\ WaveStorage.files (snd (snd saved)) = WaveStorage.files (snd (snd own)))
  /\ (forall storage, WaveStorage.writable env file = false ->
      WaveStorage.savetofile file (storage, env) = (Raise OSError, (storage, env))).
Proof.
  split; [| split].
  - intros Hnone. unfold savetofile. rewrite Hnone.
    split; [reflexivity | discriminate].
  - intros storage Hsome. cbv zeta. unfold savetofile. rewrite Hsome.
    destruct (WaveStorage.savetofile file (storage, env))
      as [[[] | e] [storage' env']]; cbn; repeat split; reflexivity.
  - intros storage Hw.
    unfold WaveStorage.savetofile, WaveStorage.on_os, bind, get, raise.
    cbn [fst snd]. rewrite Hw. reflexivity.
Qed.

Lemma C9_save_without_data_witness :
  fst (savetofile (lit "SystemAudio.wav") (mk 60 None, plain_os))
  = Raise (ValueError "No wave storage")
  /\ fst (savetofile (lit "SystemAudio.wav")
                     (mk 60 (Some WaveStorageForms.two_markers), plain_os))
     = fst (WaveStorage.savetofile (lit "SystemAudio.wav")
                                   (WaveStorageForms.two_markers, plain_os)).
Proof.
  destruct (C9_save_without_data (mk 60 None) (lit "SystemAudio.wav") plain_os)
    as ((Hraise & _) & _ & _); [reflexivity |].
  destruct (C9_save_without_data (mk 60 (Some WaveStorageForms.two_markers))
              (lit "SystemAudio.wav") plain_os)
    as (_ & Hown & _).
  destruct (Hown WaveStorageForms.two_markers eq_refl) as (Hsame & _).
  split; [rewrite Hraise; reflexivity | exact Hsame].
Defined.

End SysAudioFacts.

(** * The capture of system audio *)

Module SysAudioCaptureFacts.
Import SysAudio SysAudioCapture SysAudioCaptureForms.

Lemma open_with_storage dev c storage :
  _wavestorage (recorder c) = Some storage -> snd (_openDevice dev c) = c.
Proof.
  intros Hst. unfold _openDevice, bind, lift, get, ret, get_format.
  destruct (getNVDAOutputDevice dev) as [[] | e]; [| reflexivity].
  destruct (Activate dev) as [[] | e]; [| reflexivity].
  rewrite Hst.
  destruct (_format c) as [fmt |]; [| reflexivity].
  destruct (Initialize dev fmt) as [[] | e]; [| reflexivity].
  destruct (GetService dev); reflexivity.
Qed.

Lemma open_new dev c pfmt :
  _wavestorage (recorder c) = None ->
  getNVDAOutputDevice dev = Ok tt -> Activate dev = Ok tt ->
  GetMixFormat dev = Ok pfmt ->
  let fmt := read_format pfmt in
  let fmt' :=
    mk_format (WORD WAVE_FORMAT_PCM) (nChannels fmt) (nSamplesPerSec fmt)
              (DWORD (WORD (nChannels fmt * WORD 16 / 8) * nSamplesPerSec fmt))
              (WORD (nChannels fmt * WORD 16 / 8)) (WORD 16) (WORD 0) in
  _openDevice dev c
  = (match Initialize dev fmt' with
     | Ok _ => GetService dev
     | Raise e => Raise e
     end,
     mk_capture
       (mk (_max_duration_sec (recorder c))
           (Some (WaveStorage.__init__
                    (nChannels fmt) 2 (nSamplesPerSec fmt)
                    (Some (nSamplesPerSec fmt * _max_duration_sec (recorder c))))))
       (Some fmt')).
Proof.
  intros Hst Hdev Hact Hmix fmt fmt'.
  unfold _openDevice, bind, lift, get, ret, put, get_format.
  rewrite Hdev, Hact, Hst, Hmix.
  cbn [_format nChannels nSamplesPerSec nAvgBytesPerSec nBlockAlign
       wBitsPerSample cbSize wFormatTag].
  fold fmt. fold fmt'.
  destruct (Initialize dev fmt') as [[] | e]; [| reflexivity].
  destruct (GetService dev); reflexivity.
Qed.

(** X19: opening the device.  [_openDevice] never touches a storage that
    is there: when the recorder has one, the call leaves the recorder as
    it is whatever the endpoint answers, so reopening after an
    interruption keeps the recording and its format.  When there is
    none and the endpoint gives its mix format, the format is made
    16-bit PCM with the channels and the sample rate of the mix format,
    and the storage is created for it, with two bytes per sample and a
    capacity of [_max_duration_sec] seconds, also when [Initialize]
    fails afterwards.  When the endpoint fails before that, nothing
    changes. *)
Theorem X19_open_device dev c :
  (forall storage, _wavestorage (recorder c) = Some storage ->
   snd (_openDevice dev c) = c)
  /\ (forall pfmt, _wavestorage (recorder c) = None ->
      getNVDAOutputDevice dev = Ok tt -> Activate dev = Ok tt ->
      GetMixFormat dev = Ok pfmt ->
      let fmt := read_format pfmt in
      exists fmt',
        snd (_openDevice dev c)
        = mk_capture
            (mk (_max_duration_sec (recorder c))
                (Some (WaveStorage.__init__
                         (nChannels fmt) 2 (nSamplesPerSec fmt)
                         (Some (nSamplesPerSec fmt
                                * _max_duration_sec (recorder c))))))
            (Some fmt')
        /\ nChannels fmt' = nChannels fmt
        /\ nSamplesPerSec fmt' = nSamplesPerSec fmt
        /\ wFormatTag fmt' = 1 /\ wBitsPerSample fmt' = 16 /\ cbSize fmt' = 0
        /\ nBlockAlign fmt' = (2 * nChannels fmt) mod 2 ^ 16
        /\ nAvgBytesPerSec fmt'
           = (nBlockAlign fmt' * nSamplesPerSec fmt) mod 2 ^ 32
        /\ fst (_openDevice dev c)
           = match Initialize dev fmt' with
             | Ok _ => GetService dev
             | Raise e => Raise e
             end)
  /\ (forall e, _wavestorage (recorder c) = None ->
      getNVDAOutputDevice dev = Raise e
      \/ (getNVDAOutputDevice dev = Ok tt /\ Activate dev = Raise e)
      \/ (getNVDAOutputDevice dev = Ok tt /\ Activate dev = Ok tt
          /\ GetMixFormat dev = Raise e) ->
      _openDevice dev c = (Raise e, c)).
Proof.
  split; [intros storage; apply open_with_storage |].
  split.
  - intros pfmt Hst Hdev Hact Hmix fmt.
    rewrite (open_new dev c pfmt Hst Hdev Hact Hmix). cbv zeta. fold fmt.
    eexists. split; [reflexivity |].
    cbn [nChannels nSamplesPerSec nAvgBytesPerSec nBlockAlign
         wBitsPerSample cbSize wFormatTag fst].
    repeat split.
    unfold WORD.
    replace (nChannels fmt * (16 mod 2 ^ 16) / 8) with (2 * nChannels fmt);
      [reflexivity |].
    change (16 mod 2 ^ 16) with 16.
    replace (nChannels fmt * 16) with (2 * nChannels fmt * 8) by lia.
    symmetry. apply Z.div_mul. discriminate.
  - intros e Hst Hfail.
    unfold _openDevice, bind, lift, get, ret, put, get_format.
    destruct Hfail as [-> | [[-> ->] | (-> & -> & Hmix)]]; try reflexivity.
    rewrite Hst, Hmix. reflexivity.
Qed.

Lemma len_packet_bytes memory address frameCount nchannels :
  0 <= frameCount * nchannels ->
  len (packet_bytes memory address frameCount nchannels)
  = frameCount * (2 * nchannels).
Proof.
  intros Hk. unfold packet_bytes, len.
  rewrite length_map, length_seq, Z2Nat.id by lia. lia.
Qed.

Lemma array_type_words n :
  0 <= n < 2 ^ 62 -> array_type 2 n = Ok n.
Proof.
  intros Hn. apply NvdaAudioFacts.array_type_fits; try lia.
  change ((2 ^ 63 - 1) / 2) with (2 ^ 62 - 1). lia.
Qed.

(** X20: a captured packet is whole frames.  An empty packet changes
    nothing.  When the storage was made for the format (frames of two
    bytes per channel), with at least one channel and a non-zero frame
    rate, a packet of [frameCount > 0] frames (fewer than [2^62]
    samples) behind a pointer that is not NULL is written as it is: the
    write succeeds, adds no marker, advances the frame counter by
    [frameCount], appends the bytes of the packet to what the storage
    holds, and sets the anchor to the time of the packet, [qpcPos] in
    units of 100 ns, plus its duration. *)
Theorem X20_packet_is_whole_frames memory address frameCount qpcPos c :
  capture_packet memory address 0 qpcPos c = (Ok tt, c)
  /\ (forall storage fmt,
      _wavestorage (recorder c) = Some storage ->
      _format c = Some fmt ->
      WaveStorage._framesize storage = 2 * nChannels fmt ->
      0 < nChannels fmt -> WaveStorage._framerate storage <> 0 ->
      0 < frameCount -> frameCount * nChannels fmt < 2 ^ 62 ->
      address <> 0 ->
      exists storage',
        capture_packet memory address frameCount qpcPos c
        = (Ok tt, with_storage storage' c)
        /\ WaveStorage._markers storage' = WaveStorage._markers storage
        /\ WaveStorage._nsampleswritten storage'
           = WaveStorage._nsampleswritten storage + frameCount
        /\ WaveStorage._perf_counter_ns storage'
           = Some (qpcPos * 100
                   + frameCount * WaveStorage.NS_PER_SEC
                     / WaveStorage._framerate storage)
        /\ (forall input,
            WaveStorageForms.holds storage input ->
            WaveStorageForms.holds storage'
              (input ++ packet_bytes memory address frameCount
                                     (nChannels fmt)))).
Proof.
  split; [reflexivity |].
  intros storage fmt Hst Hfmt HF Hch HR Hk Hfit Haddr.
  assert (HF0 : 0 < WaveStorage._framesize storage) by lia.
  assert (Hlen : len (packet_bytes memory address frameCount (nChannels fmt))
                 = frameCount * WaveStorage._framesize storage).
  { rewrite len_packet_bytes by nia. rewrite HF. reflexivity. }
  assert (Hal : len (packet_bytes memory address frameCount (nChannels fmt))
                mod WaveStorage._framesize storage = 0)
    by (rewrite Hlen; apply Z.mod_mul; lia).
  assert (Hdiv : len (packet_bytes memory address frameCount (nChannels fmt))
                 / WaveStorage._framesize storage = frameCount)
    by (rewrite Hlen; apply Z.div_mul; lia).
  unfold capture_packet.
  destruct (Z.eqb_spec frameCount 0); [lia |].
  unfold bind, get_format, lift, on_wavestorage. rewrite Hfmt.
  rewrite array_type_words by nia.
  destruct (Z.eqb_spec address 0); [contradiction |].
  rewrite Hst.
  fold (packet_bytes memory address frameCount (nChannels fmt)).
  set (data := packet_bytes memory address frameCount (nChannels fmt)) in *.
  set (ts := qpcPos * NS_PER_REFTIME).
  rewrite (WaveStorageFacts.write_ok data (Some ts) storage HF0 HR).
  exists (snd (WaveStorage.write data (Some ts) storage)).
  split; [reflexivity |].
  destruct (WaveStorageFacts.write_fields data (Some ts) storage HF0)
    as (_ & _ & _ & _ & EN & EK).
  split.
  { rewrite EK. unfold WaveStorageForms.marked. rewrite Hal. reflexivity. }
  split; [rewrite EN, Hdiv; reflexivity |].
  split.
  { rewrite (WaveStorageFacts.write_anchor data ts storage HF0 HR), Hdiv.
    reflexivity. }
  intros input Hh.
  pose proof (WaveStorageFacts.write_holds data (Some ts) storage input Hh)
    as Hh'.
  rewrite WaveStorageFacts.frames_of_aligned in Hh' by assumption. exact Hh'.
Qed.

Lemma X20_packet_is_whole_frames_witness :
  let c := snd (_openDevice stereo_device (__init__ 60)) in
  exists storage',
    capture_packet counting_memory 64 3 5 c = (Ok tt, with_storage storage' c)
    /\ WaveStorage._markers storage' = []
    /\ WaveStorage._nsampleswritten storage' = 0 + 3.
Proof.
  intros c.
  destruct (X20_packet_is_whole_frames counting_memory 64 3 5 c) as [_ H].
  destruct (H (WaveStorage.__init__ 2 2 48000 (Some 2880000))
              (mk_format 1 2 48000 192000 4 16 0))
    as (storage' & Hrun & Hmarkers & Hcount & _);
    [reflexivity | reflexivity | reflexivity | reflexivity | discriminate
    | reflexivity | reflexivity | discriminate |].
  exists storage'. split; [exact Hrun |]. split; [exact Hmarkers | exact Hcount].
Defined.

Lemma on_wavestorage_some {A} (m : M WaveStorage.t A) c storage :
  _wavestorage (recorder c) = Some storage ->
  on_wavestorage m c = (fst (m storage), with_storage (snd (m storage)) c).
Proof.
  intros Hst. unfold on_wavestorage. rewrite Hst.
  destruct (m storage). reflexivity.
Qed.

Lemma on_wavestorage_coherent {A} (m : M WaveStorage.t A) c :
  (forall storage,
     WaveStorage._framesize (snd (m storage)) = WaveStorage._framesize storage
     /\ WaveStorage._framerate (snd (m storage))
        = WaveStorage._framerate storage) ->
  coherent c -> coherent (snd (on_wavestorage m c)).
Proof.
  intros Hm Hc. unfold on_wavestorage.
  destruct (_wavestorage (recorder c)) as [storage |] eqn:Hst; [| exact Hc].
  specialize (Hm storage).
  destruct (m storage) as [r storage']. cbn [snd] in *.
  unfold coherent in *. rewrite Hst in Hc. cbn [recorder _wavestorage _format].
  destruct Hc as (fmt & Hfmt & HF & HR). destruct Hm as [EF ER].
  exists fmt. split; [exact Hfmt |]. split; congruence.
Qed.

Lemma open_coherent dev c : coherent c -> coherent (snd (_openDevice dev c)).
Proof.
  intros Hc.
  destruct (_wavestorage (recorder c)) as [storage |] eqn:Hst.
  - rewrite (open_with_storage dev c storage Hst). exact Hc.
  - destruct (getNVDAOutputDevice dev) as [[] | e] eqn:Hdev.
    2:{ unfold _openDevice, bind, lift. rewrite Hdev. exact Hc. }
    destruct (Activate dev) as [[] | e] eqn:Hact.
    2:{ unfold _openDevice, bind, lift. rewrite Hdev, Hact. exact Hc. }
    destruct (GetMixFormat dev) as [pfmt | e] eqn:Hmix.
    2:{ unfold _openDevice, bind, lift, get. rewrite Hdev, Hact, Hst, Hmix.
        exact Hc. }
    rewrite (open_new dev c pfmt Hst Hdev Hact Hmix). cbv zeta. cbn [snd].
    unfold coherent. cbn [recorder _wavestorage _format].
    eexists. split; [reflexivity |].
    cbn [nChannels nSamplesPerSec WaveStorage.__init__
         WaveStorage._framesize WaveStorage._framerate].
    split; reflexivity.
Qed.

Lemma coherent_act a c : coherent c -> coherent (snd (act a c)).
Proof.
  intros Hc. destruct a as [dev | memory address frameCount qpcPos
                            | now number speechSequence | now gesture];
    cbn [act].
  - apply open_coherent. exact Hc.
  - unfold capture_packet.
    destruct (frameCount =? 0); [exact Hc |].
    unfold bind, get_format, lift.
    destruct (_format c) as [fmt |]; [| exact Hc].
    destruct (array_type 2 (frameCount * nChannels fmt)); [| exact Hc].
    destruct (address =? 0); [exact Hc |].
    apply on_wavestorage_coherent; [| exact Hc].
    intros storage. apply WaveStorageFacts.write_geometry.
  - unfold _add_speech_marker, bind, get.
    destruct (_wavestorage (recorder c)) eqn:Hst; [| exact Hc].
    apply on_wavestorage_coherent; [| exact Hc].
    intros storage. apply WaveStorageFacts.addmarker_at_time_geometry.
  - unfold _add_gesture_marker, bind, get.
    destruct (_wavestorage (recorder c)) eqn:Hst; [| exact Hc].
    destruct (isModifier gesture); cbn [negb]; [exact Hc |].
    destruct (identifiers gesture) as [| identifier rest]; [exact Hc |].
    pose proof (on_wavestorage_coherent
                  (WaveStorage.addmarker_at_time now identifier) c
                  (fun storage =>
                     WaveStorageFacts.addmarker_at_time_geometry
                       now identifier storage) Hc) as H.
    destruct (on_wavestorage (WaveStorage.addmarker_at_time now identifier) c)
      as [[[] | e] c']; exact H.
Qed.

(** X21: the storage and the format stay in step.  Whatever sequence of
    device openings, packets, speech notifications and gestures a new
    recorder goes through, and whatever fails on the way, a storage that
    is there has frames of two bytes per channel of the recorder's
    format and the sample rate of that format: the state in which a
    packet is written as whole frames. *)
Theorem X21_storage_matches_format max_duration_sec actions :
  coherent (snd (for_each actions act (__init__ max_duration_sec))).
Proof.
  apply (NvdaAudioFacts.for_each_inv coherent act actions).
  - intros a c. apply coherent_act.
  - exact Logic.I.
Qed.

(** X22: the markers of the system recording.  Without a storage the
    two handlers do nothing; with one, the speech handler adds the label
    of the speech sequence at the time it is given, and the gesture
    handler adds the first identifier of a gesture that is not a
    modifier and nothing for a modifier.  The gesture handler returns
    [True] whenever it returns.  And a gesture stamped with the time of
    a packet, [qpcPos] in units of 100 ns, lands on the first frame of
    that packet, when the packet is not empty, has fewer than 2^62
    samples and is not at the NULL address, and the frame rate is
    positive and at most one frame per nanosecond. *)
Theorem X22_system_markers now number speechSequence gesture c :
  (_wavestorage (recorder c) = None ->
   _add_speech_marker now number speechSequence c = (Ok tt, c)
   /\ _add_gesture_marker now gesture c = (Ok true, c))
  /\ (forall storage, _wavestorage (recorder c) = Some storage ->
      _add_speech_marker now number speechSequence c
      = (Ok tt,
         with_storage
           (snd (WaveStorage.addmarker_at_time
                   now (NvdaAudio.speech_label number speechSequence) storage))
           c))
  /\ (isModifier gesture = true ->
      _add_gesture_marker now gesture c = (Ok true, c))
  /\ (forall storage identifier rest,
      _wavestorage (recorder c) = Some storage ->
      isModifier gesture = false ->
      identifiers gesture = identifier :: rest ->
      _add_gesture_marker now gesture c
      = (Ok true,
         with_storage
           (snd (WaveStorage.addmarker_at_time now identifier storage)) c))
  /\ (forall result c',
      _add_gesture_marker now gesture c = (Ok result, c') -> result = true)
  /\ (forall memory address frameCount qpcPos storage fmt identifier rest,
      _wavestorage (recorder c) = Some storage ->
      _format c = Some fmt ->
      WaveStorage._framesize storage = 2 * nChannels fmt ->
      0 < nChannels fmt ->
      0 < WaveStorage._framerate storage <= WaveStorage.NS_PER_SEC ->
      0 < frameCount -> frameCount * nChannels fmt < 2 ^ 62 ->
      address <> 0 ->
      isModifier gesture = false ->
      identifiers gesture = identifier :: rest ->
      let written :=
        snd (WaveStorage.write
               (packet_bytes memory address frameCount (nChannels fmt))
               (Some (qpcPos * 100)) storage) in
      (let* _ := capture_packet memory address frameCount qpcPos in
       _add_gesture_marker (qpcPos * 100) gesture) c
      = (Ok true,
         with_storage
           (WaveStorageForms.pruned
              (WaveStorage.set_markers
                 (WaveStorage._markers written
                  ++ [(WaveStorage._nsampleswritten storage, identifier)])
                 written))
           c)).
Proof.
  split.
  { intros Hst. unfold _add_speech_marker, _add_gesture_marker, bind, get, ret.
    cbv beta. rewrite Hst. split; reflexivity. }
  split.
  { intros storage Hst.
    unfold _add_speech_marker, bind, get. cbv beta. rewrite Hst.
    rewrite (on_wavestorage_some _ c storage Hst).
    rewrite WaveStorageFacts.addmarker_at_time_eq. reflexivity. }
  split.
  { intros Hmod. unfold _add_gesture_marker, bind, get, ret. cbv beta.
    rewrite Hmod. destruct (_wavestorage (recorder c)); reflexivity. }
  split.
  { intros storage identifier rest Hst Hmod Hids.
    unfold _add_gesture_marker, bind, get, ret. cbv beta.
    rewrite Hst, Hmod, Hids. cbn [negb].
    rewrite (on_wavestorage_some _ c storage Hst).
    rewrite WaveStorageFacts.addmarker_at_time_eq. reflexivity. }
  split.
  { intros result c'. unfold _add_gesture_marker, bind, get, ret. cbv beta.
    destruct (_wavestorage (recorder c));
      [destruct (isModifier gesture); cbn [negb];
       [| destruct (identifiers gesture);
          [| destruct (on_wavestorage _ c) as [[[] | e] c1]]] |];
      intros H; unfold raise in H; cbv beta iota in H; congruence. }
  intros memory address frameCount qpcPos storage fmt identifier rest
         Hst Hfmt HF Hch HR Hk Hfit Haddr Hmod Hids written.
  assert (HF0 : 0 < WaveStorage._framesize storage) by lia.
  assert (HR0 : WaveStorage._framerate storage <> 0) by lia.
  unfold bind at 1.
  unfold capture_packet.
  destruct (Z.eqb_spec frameCount 0); [lia |].
  unfold bind, get_format, lift. cbv beta. rewrite Hfmt.
  rewrite array_type_words by nia.
  destruct (Z.eqb_spec address 0); [contradiction |].
  rewrite (on_wavestorage_some _ c storage Hst).
  fold (packet_bytes memory address frameCount (nChannels fmt)).
  change (qpcPos * NS_PER_REFTIME) with (qpcPos * 100).
  rewrite (WaveStorageFacts.write_ok _ (Some (qpcPos * 100)) storage HF0 HR0).
  fold written. cbn [fst snd].
  unfold _add_gesture_marker, bind, get, ret. cbv beta.
  cbn [with_storage recorder _wavestorage].
  rewrite Hmod, Hids. cbn [negb].
  rewrite (on_wavestorage_some _ (with_storage written c) written eq_refl).
  unfold written.
  rewrite (WaveStorageFacts.marker_at_write_start storage _ (qpcPos * 100)
             identifier HF0 HR).
  reflexivity.
Qed.

Lemma X22_system_markers_witness :
  let c := snd (_openDevice stereo_device (__init__ 60)) in
  let key := mk_gesture false [lit "kb:a"; lit "kb(desktop):a"] in
  exists c',
    (let* _ := capture_packet counting_memory 64 2 4 in
     let* _ := capture_packet counting_memory 72 3 5 in
     _add_gesture_marker (5 * 100) key) c = (Ok true, c')
    /\ option_map WaveStorage._markers (_wavestorage (recorder c'))
       = Some [(2, lit "kb:a")].
Proof.
  intros c key.
  set (c1 := snd (capture_packet counting_memory 64 2 4 c)).
  destruct (X22_system_markers 0 0 [] key c1)
    as (_ & _ & _ & _ & _ & H).
  specialize (H counting_memory 72 3 5
                (snd (WaveStorage.write
                        (packet_bytes counting_memory 64 2 2) (Some (4 * 100))
                        (WaveStorage.__init__ 2 2 48000 (Some 2880000))))
                (mk_format 1 2 48000 192000 4 16 0)
                (lit "kb:a") [lit "kb(desktop):a"]).
  eexists. split.
  - unfold bind at 1. change (capture_packet counting_memory 64 2 4 c)
      with (Ok tt, c1).
    apply H; [reflexivity | reflexivity | reflexivity | reflexivity
             | split; [reflexivity | discriminate] | reflexivity
             | reflexivity | discriminate | reflexivity | reflexivity].
  - reflexivity.
Defined.

End SysAudioCaptureFacts.

(** * The output device *)

Module OutputDeviceFacts.
Import OutputDevice OutputDeviceForms.

Lemma range_indices count : range 0 count 1 = Ok (indices_below count).
Proof.
  unfold range, indices_below. cbn [Z.eqb Z.ltb Z.compare].
  rewrite Z.sub_0_r, Z.add_simpl_r, Z.div_1_r.
  f_equal. apply map_ext. intros k. lia.
Qed.

Lemma find_skips p devName prefix : forall rest,
  Forall (other_name p devName) prefix ->
  find_by_name p devName (prefix ++ rest) = find_by_name p devName rest.
Proof.
  induction prefix as [| i prefix IH]; intros rest Hall; [reflexivity |].
  inversion Hall as [| ? ? (dev & name & Hitem & Hname & Hne) Hrest]; subst.
  cbn [app find_by_name]. rewrite Hitem. cbn [and_then]. rewrite Hname.
  cbn [and_then]. destruct (decide (name = devName)); [contradiction |].
  apply IH. exact Hrest.
Qed.

Lemma indices_split count i :
  0 <= i < count ->
  indices_below count
  = indices_below i ++ i :: List.map Z.of_nat (seq (S (Z.to_nat i))
                                                  (Z.to_nat count - S (Z.to_nat i))).
Proof.
  intros Hi. unfold indices_below.
  assert (E : Z.to_nat count
              = (Z.to_nat i + S (Z.to_nat count - S (Z.to_nat i)))%nat) by lia.
  rewrite E at 1. rewrite seq_app, List.map_app. f_equal.
  cbn [Nat.add seq List.map]. rewrite Z2Nat.id by lia. reflexivity.
Qed.

Lemma indices_all (P : Z -> Prop) count :
  (forall j, 0 <= j < count -> P j) -> Forall P (indices_below count).
Proof.
  intros H. unfold indices_below. apply List.Forall_forall. intros j Hj.
  apply List.in_map_iff in Hj. destruct Hj as (k & <- & Hk).
  apply List.in_seq in Hk. apply H. lia.
Qed.

(** X23: the device with the configured id.  When the audio setting is
    the default key, the result is that of [GetDefaultAudioEndpoint];
    when it is the id of a device that is active and renders, the result
    is that device, and the speech setting is not looked at.  The first
    [try] statement ends without a device when the audio setting is
    missing, when [GetDevice], [GetState] or [GetDataFlow] raises
    [COMError], and when the device is not active or does not render. *)
Theorem X23_device_by_id p :
  GetDeviceEnumerator p = Ok tt ->
  (forall dev,
   conf_audio_outputDevice p = Ok (DEFAULT_DEVICE_KEY p) ->
   GetDefaultAudioEndpoint p = Ok dev ->
   getNVDAOutputDevice p = Ok dev)
  /\ (forall devId dev,
      conf_audio_outputDevice p = Ok devId -> devId <> DEFAULT_DEVICE_KEY p ->
      GetDevice p devId = Ok dev ->
      GetState p dev = Ok Active -> GetDataFlow p dev = Ok eRender ->
      getNVDAOutputDevice p = Ok dev)
  /\ (conf_audio_outputDevice p = Raise KeyError -> by_id p = Ok None)
  /\ (forall devId,
      conf_audio_outputDevice p = Ok devId -> devId <> DEFAULT_DEVICE_KEY p ->
      GetDevice p devId = Raise COMError
      \/ (exists dev, GetDevice p devId = Ok dev
            /\ (GetState p dev = Raise COMError
                \/ exists state, GetState p dev = Ok state
                     /\ (GetDataFlow p dev = Raise COMError
                         \/ exists dataflow, GetDataFlow p dev = Ok dataflow
                              /\ (state <> Active \/ dataflow <> eRender)))) ->
      by_id p = Ok None).
Proof.
  intros Henum. split; [| split; [| split]].
  - intros dev Hid Hdefault. unfold getNVDAOutputDevice, by_id.
    rewrite Henum, Hid. cbn [and_then].
    destruct (decide (DEFAULT_DEVICE_KEY p = DEFAULT_DEVICE_KEY p));
      [| contradiction].
    rewrite Hdefault. reflexivity.
  - intros devId dev Hid Hne Hdev Hstate Hflow.
    unfold getNVDAOutputDevice, by_id.
    rewrite Henum, Hid. cbn [and_then].
    destruct (decide (devId = DEFAULT_DEVICE_KEY p)); [contradiction |].
    rewrite Hdev. cbn [and_then]. rewrite Hstate. cbn [and_then].
    rewrite Hflow. reflexivity.
  - intros Hid. unfold by_id. rewrite Hid. reflexivity.
  - intros devId Hid Hne Hcase. unfold by_id. rewrite Hid. cbn [and_then].
    destruct (decide (devId = DEFAULT_DEVICE_KEY p)); [contradiction |].
    destruct Hcase as [-> | (dev & -> & Hcase)]; [reflexivity |].
    cbn [and_then].
    destruct Hcase as [-> | (state & -> & Hcase)]; [reflexivity |].
    cbn [and_then].
    destruct Hcase as [-> | (dataflow & -> & Hcase)]; [reflexivity |].
    cbn [and_then try_pass].
    destruct (Z.eqb_spec state Active), (Z.eqb_spec dataflow eRender);
      cbn [andb]; try reflexivity.
    destruct Hcase; contradiction.
Qed.

Lemma X23_device_by_id_witness :
  by_id by_speech_name = Ok None /\ by_id unplugged = Ok None.
Proof.
  split.
  - destruct (X23_device_by_id by_speech_name eq_refl) as (_ & _ & H & _).
    apply H. reflexivity.
  - destruct (X23_device_by_id unplugged eq_refl) as (_ & _ & _ & H).
    apply (H (lit "{0.0.0.00000000}.{usb}"));
      [reflexivity | discriminate | left; reflexivity].
Defined.

(** X24: after the first [try] statement has ended without a device.
    A missing speech setting raises [KeyError], which nothing catches:
    the function raises instead of falling back to the default endpoint.
    A [COMError] of [EnumAudioEndpoints] or [GetCount] is passed over
    and the default endpoint is the result, as it is when no active
    render endpoint has the configured name; otherwise the result is the
    first endpoint of the collection with that name. *)
Theorem X24_device_fallback p :
  GetDeviceEnumerator p = Ok tt -> by_id p = Ok None ->
  (conf_speech_outputDevice p = Raise KeyError ->
   getNVDAOutputDevice p = Raise KeyError)
  /\ (forall devName,
      conf_speech_outputDevice p = Ok devName ->
      EnumAudioEndpoints p = Raise COMError
      \/ (EnumAudioEndpoints p = Ok tt /\ GetCount p = Raise COMError) ->
      getNVDAOutputDevice p = GetDefaultAudioEndpoint p)
  /\ (forall devName count,
      conf_speech_outputDevice p = Ok devName ->
      EnumAudioEndpoints p = Ok tt -> GetCount p = Ok count ->
      (forall i, 0 <= i < count -> other_name p devName i) ->
      getNVDAOutputDevice p = GetDefaultAudioEndpoint p)
  /\ (forall devName count i dev,
      conf_speech_outputDevice p = Ok devName ->
      EnumAudioEndpoints p = Ok tt -> GetCount p = Ok count ->
      0 <= i < count ->
      Item p i = Ok dev -> FriendlyName p dev = Ok devName ->
      (forall j, 0 <= j < i -> other_name p devName j) ->
      getNVDAOutputDevice p = Ok dev).
Proof.
  intros Henum Hid. unfold getNVDAOutputDevice. rewrite Henum, Hid.
  cbn [and_then]. unfold by_name.
  split; [| split; [| split]].
  - intros ->. reflexivity.
  - intros devName -> [-> | [-> ->]]; reflexivity.
  - intros devName count -> -> -> Hall. cbn [and_then].
    rewrite range_indices. cbn [and_then].
    rewrite <- (app_nil_r (indices_below count)).
    rewrite find_skips by (apply indices_all; exact Hall). reflexivity.
  - intros devName count i dev -> -> -> Hi Hitem Hname Hbefore.
    cbn [and_then]. rewrite range_indices. cbn [and_then].
    rewrite (indices_split count i Hi).
    rewrite find_skips by (apply indices_all; exact Hbefore).
    cbn [find_by_name]. rewrite Hitem. cbn [and_then]. rewrite Hname.
    cbn [and_then]. destruct (decide (devName = devName)); [| contradiction].
    reflexivity.
Qed.

Lemma X24_device_fallback_witness :
  getNVDAOutputDevice unplugged = Raise KeyError
  /\ getNVDAOutputDevice by_speech_name = Ok 2%positive.
Proof.
  split.
  - destruct (X24_device_fallback unplugged eq_refl eq_refl) as (H & _).
    apply H. reflexivity.
  - destruct (X24_device_fallback by_speech_name eq_refl eq_refl)
      as (_ & _ & _ & H).
    apply (H (lit "Headphones") 3 1 2%positive);
      [reflexivity | reflexivity | reflexivity | lia | reflexivity
      | reflexivity |].
    intros j Hj. assert (j = 0) as -> by lia.
    exists 1%positive, (lit "Speakers").
    split; [reflexivity |]. split; [reflexivity | discriminate].
Defined.

End OutputDeviceFacts.
